(** * BLE mesh gateway: power manager, command sequencer and frame codec

    A shallow embedding of [old-tests/test-7-good.py] (classes [NodeState],
    [PowerManager] and [DCMonitorGateway]) together with the properties that
    the design document states about it.

    Conventions of the embedding.
    - Python [int] is [Z]; Python [float] is a binary64 [float] (Rocq's
      primitive floats), so every arithmetic step rounds as CPython does.
    - Python [str] is [string]; the wire protocol is ASCII, and the string
      helpers below implement the ASCII behaviour of [str.strip],
      [str.upper], [str.isdigit] and of the two regular expressions.
    - A Python [dict] is an association list in insertion order.
    - Exceptions are values of [Py.Exc]; a method that can raise returns a
      [Py.Res].
    - [asyncio.sleep] advances a virtual clock; [time.monotonic] reads it.
    - One coroutine runs at a time: a notification is handled between two
      methods, never in the middle of one. *)

From Stdlib Require Import ZArith Floats String Ascii List Bool Lia.
From Stdlib Require Import Sorted Permutation DecimalString.
Import ListNotations.

#[local] Set Warnings "-inexact-float".

Local Open Scope Z_scope.
Local Open Scope string_scope.

(* ================================================================== *)
(** * The Python fragment used by the gateway                          *)
(* ================================================================== *)

Module Py.

(** ** Exceptions *)

Inductive Exc : Set :=
| ZeroDivisionError
| OverflowError
| ValueError
| KeyError
| AttributeError.

Inductive Res (A : Type) : Type :=
| Ok (a : A)
| Raise (e : Exc).

Arguments Ok {A} a.
Arguments Raise {A} e.

Definition rbind {A B : Type} (r : Res A) (k : A -> Res B) : Res B :=
  match r with
  | Ok a => k a
  | Raise e => Raise e
  end.

(** ** Strings *)

Definition code (c : ascii) : N := N_of_ascii c.

(** [str.isspace] on the ASCII range: TAB..CR, FS..US and SPACE. *)
Definition isspace (c : ascii) : bool :=
  let n := code c in
  (((9 <=? n) && (n <=? 13)) || ((28 <=? n) && (n <=? 32)))%N.

Definition isdigit_ascii (c : ascii) : bool :=
  let n := code c in ((48 <=? n) && (n <=? 57))%N.

Definition upper_ascii (c : ascii) : ascii :=
  let n := code c in
  if ((97 <=? n) && (n <=? 122))%N then ascii_of_N (n - 32) else c.

Definition lower_ascii (c : ascii) : ascii :=
  let n := code c in
  if ((65 <=? n) && (n <=? 90))%N then ascii_of_N (n + 32) else c.

Fixpoint smap (f : ascii -> ascii) (s : string) : string :=
  match s with
  | EmptyString => EmptyString
  | String c s' => String (f c) (smap f s')
  end.

Definition upper : string -> string := smap upper_ascii.
Definition lower : string -> string := smap lower_ascii.

Fixpoint sall (p : ascii -> bool) (s : string) : bool :=
  match s with
  | EmptyString => true
  | String c s' => p c && sall p s'
  end.

(** [str.isdigit]: at least one character, all of them digits. *)
Definition isdigit (s : string) : bool :=
  match s with
  | EmptyString => false
  | _ => sall isdigit_ascii s
  end.

Fixpoint lstrip (s : string) : string :=
  match s with
  | EmptyString => EmptyString
  | String c s' => if isspace c then lstrip s' else s
  end.

Fixpoint rstrip (s : string) : string :=
  match s with
  | EmptyString => EmptyString
  | String c s' =>
      match rstrip s' with
      | EmptyString => if isspace c then EmptyString else String c EmptyString
      | r => String c r
      end
  end.

Definition strip (s : string) : string := lstrip (rstrip s).

Definition startswith (s p : string) : bool := prefix p s.

Fixpoint skip (n : nat) (s : string) : string :=
  match n, s with
  | O, _ => s
  | S n', String _ s' => skip n' s'
  | S _, EmptyString => EmptyString
  end.

(** [sub in s]. *)
Fixpoint contains (sub s : string) : bool :=
  prefix sub s ||
  match s with
  | EmptyString => false
  | String _ s' => contains sub s'
  end.

(** [s.split(sep, 1)] when [sep in s]: the text before and after the
    leftmost occurrence. *)
Fixpoint split_once (sep s : string) : option (string * string) :=
  if prefix sep s then Some (EmptyString, skip (String.length sep) s)
  else
    match s with
    | EmptyString => None
    | String c s' =>
        match split_once sep s' with
        | Some (l, r) => Some (String c l, r)
        | None => None
        end
    end.

(** Longest prefix whose characters satisfy [p], and the rest. *)
Fixpoint span (p : ascii -> bool) (s : string) : string * string :=
  match s with
  | EmptyString => (EmptyString, EmptyString)
  | String c s' =>
      if p c then let '(a, b) := span p s' in (String c a, b)
      else (EmptyString, s)
  end.

(** Case-insensitive literal at the start of [s]; returns what follows. *)
Fixpoint eat_ci (lit s : string) : option string :=
  match lit, s with
  | EmptyString, _ => Some s
  | String a lit', String b s' =>
      if Ascii.eqb (upper_ascii a) (upper_ascii b) then eat_ci lit' s' else None
  | String _ _, EmptyString => None
  end.

Fixpoint digits_value (acc : Z) (s : string) : Z :=
  match s with
  | EmptyString => acc
  | String c s' => digits_value (10 * acc + (Z.of_N (code c) - 48)) s'
  end.

(** [int(s)] for a string of decimal digits. *)
Definition int_of_digits (s : string) : Z := digits_value 0 s.

(** [str(n)] for an integer. *)
Definition str_of_int (z : Z) : string := NilZero.string_of_int (Z.to_int z).

(** ** Numbers *)

Local Open Scope float_scope.

(** [float(n)] for an integer: round to nearest even, [OverflowError] when
    the rounded value does not fit. *)
Definition float_of_int (z : Z) : Res float :=
  match binary_normalize prec emax z 0 false with
  | S754_infinity _ => Raise OverflowError
  | x => Ok (SF2Prim x)
  end.

(** Exact comparison of a float with an integer, as [float.__lt__] and its
    siblings do for an [int] operand; [None] when the float is a NaN. *)
Definition SF_compare_Z (x : spec_float) (z : Z) : option comparison :=
  match x with
  | S754_nan => None
  | S754_infinity s => Some (if s then Lt else Gt)
  | S754_zero _ => Some (0 ?= z)%Z
  | S754_finite s m e =>
      let mz := cond_Zopp s (Zpos m) in
      Some (if (0 <=? e)%Z then (mz * 2 ^ e ?= z)%Z
            else (mz ?= z * 2 ^ (- e))%Z)
  end.

Definition compare_float_int (f : float) (z : Z) : option comparison :=
  SF_compare_Z (Prim2SF f) z.

(** [f < z], [f > z] and [f <= z] for a float [f] and an int [z]. *)
Definition float_lt_int (f : float) (z : Z) : bool :=
  match compare_float_int f z with Some Lt => true | _ => false end.
Definition float_gt_int (f : float) (z : Z) : bool :=
  match compare_float_int f z with Some Gt => true | _ => false end.
Definition float_le_int (f : float) (z : Z) : bool :=
  match compare_float_int f z with Some Lt | Some Eq => true | _ => false end.

(** [int(f)]: truncation toward zero. *)
Definition SF_trunc (x : spec_float) : Res Z :=
  match x with
  | S754_nan => Raise ValueError
  | S754_infinity _ => Raise OverflowError
  | S754_zero _ => Ok 0%Z
  | S754_finite s m e =>
      Ok (cond_Zopp s (if (0 <=? e)%Z then Zpos m * 2 ^ e
                       else Zpos m / 2 ^ (- e)))%Z
  end.

Definition int_of_float (f : float) : Res Z := SF_trunc (Prim2SF f).

(** [a / b] on floats: [ZeroDivisionError] on a zero divisor. *)
Definition truediv (a b : float) : Res float :=
  if (b =? 0) then Raise ZeroDivisionError else Ok (a / b).

(** [a / n], [a * n]-style mixed operations convert the int first. *)
Definition truediv_int (a : float) (n : Z) : Res float :=
  rbind (float_of_int n) (truediv a).

Definition mul_int (n : Z) (a : float) : Res float :=
  rbind (float_of_int n) (fun nf => Ok (nf * a)).

Definition add_int (a : float) (n : Z) : Res float :=
  rbind (float_of_int n) (fun nf => Ok (a + nf)).

(** [sum(xs)] for a list of floats: the int [0] plus each element, left to
    right (CPython 3.12 adds a compensation term to the running sum, which
    vanishes whenever the partial sums are exact). *)
Definition fsum (xs : list float) : float := fold_left PrimFloat.add xs 0.

(** A value that is either an [int] or a [float], as the argument and the
    result of [min] and [max] in [_nudge_node]. *)
Inductive num : Set :=
| NInt (z : Z)
| NFloat (f : float).

Definition num_lt (a b : num) : bool :=
  match a, b with
  | NInt x, NInt y => (x <? y)%Z
  | NFloat x, NFloat y => (x <? y)
  | NFloat x, NInt y => float_lt_int x y
  | NInt x, NFloat y => float_gt_int y x
  end.

(** [min(a, b)] keeps [a] unless [b < a]; [max(a, b)] keeps [a] unless
    [b > a]. *)
Definition min2 (a b : num) : num := if num_lt b a then b else a.
Definition max2 (a b : num) : num := if num_lt a b then b else a.

Definition int_of_num (x : num) : Res Z :=
  match x with
  | NInt z => Ok z
  | NFloat f => int_of_float f
  end.

(** [float(s)] for [s] made of digits and dots (what [[\d.]+] captures):
    the nearest binary64 to the decimal, [ValueError] unless there is at
    least one digit and at most one dot. *)
Fixpoint scan_decimal (s : string) (mant : Z) (frac : Z) (dot : bool)
    (ndig : nat) : option (Z * Z * nat) :=
  match s with
  | EmptyString => Some (mant, frac, ndig)
  | String c s' =>
      if isdigit_ascii c then
        scan_decimal s' (10 * mant + (Z.of_N (code c) - 48))%Z
          (if dot then frac + 1 else frac)%Z dot (S ndig)
      else if Ascii.eqb c "."%char then
        if dot then None else scan_decimal s' mant frac true ndig
      else None
  end.

Definition float_of_decimal (s : string) : Res float :=
  match scan_decimal s 0 0 false 0 with
  | Some (mant, frac, S _) =>
      match mant with
      | Zpos m =>
          Ok (SF2Prim (SFdiv prec emax (S754_finite false m 0)
                         (S754_finite false (Z.to_pos (10 ^ frac)) 0)))
      | _ => Ok 0
      end
  | _ => Raise ValueError
  end.

End Py.

Import Py.

(* ================================================================== *)
(** * Data model                                                        *)
(* ================================================================== *)

(** [class NodeState]: the last known state of one mesh node. *)
Record NodeState : Set := mkNodeState {
  node_id : string;
  duty : Z;               (* current duty from the last sensor reading *)
  target_duty : Z;        (* user-requested duty *)
  commanded_duty : Z;     (* last duty sent by the power manager *)
  voltage : float;
  current : float;
  power : float;          (* mW *)
  last_seen : float;
  responsive : bool;
  poll_gen : Z
}.

(** [NodeState(node_id=nid)], created at monotonic time [now]. *)
Definition NodeState_new (nid : string) (now : float) : NodeState :=
  mkNodeState nid 0 0 0 0%float 0%float 0%float now true 0.

Definition set_target (ns : NodeState) (d : Z) : NodeState :=
  mkNodeState (node_id ns) (duty ns) d (commanded_duty ns) (voltage ns)
    (current ns) (power ns) (last_seen ns) (responsive ns) (poll_gen ns).

Definition set_commanded (ns : NodeState) (d : Z) : NodeState :=
  mkNodeState (node_id ns) (duty ns) (target_duty ns) d (voltage ns)
    (current ns) (power ns) (last_seen ns) (responsive ns) (poll_gen ns).

(** ** Dictionaries keyed by strings, in insertion order *)

Definition dict (V : Type) : Type := list (string * V).

Fixpoint dict_get {V : Type} (k : string) (d : dict V) : option V :=
  match d with
  | [] => None
  | (k', v) :: d' => if String.eqb k k' then Some v else dict_get k d'
  end.

(** [d[k] = v]: replaces in place, or appends a new key. *)
Fixpoint dict_set {V : Type} (k : string) (v : V) (d : dict V) : dict V :=
  match d with
  | [] => [(k, v)]
  | (k', v') :: d' =>
      if String.eqb k k' then (k', v) :: d' else (k', v') :: dict_set k v d'
  end.

Definition dict_keys {V : Type} (d : dict V) : list string := map fst d.
Definition dict_values {V : Type} (d : dict V) : list V := map snd d.
Definition dict_mem {V : Type} (k : string) (d : dict V) : bool :=
  match dict_get k d with Some _ => true | None => false end.

(** The dictionary comprehension [{k: d[k] for k in ks}] over live objects:
    the entries of [d] named by [ks], with their current values. *)
Definition dict_view {V : Type} (ks : list string) (d : dict V) : dict V :=
  flat_map (fun k => match dict_get k d with
                     | Some v => [(k, v)]
                     | None => []
                     end) ks.

(** ** Stable sort, as [sorted(xs, key=...)] *)

Section SortBy.
Context {A : Type} (key : A -> Z).

Fixpoint insert_by (x : A) (l : list A) : list A :=
  match l with
  | [] => [x]
  | y :: l' => if (key x <=? key y)%Z then x :: l else y :: insert_by x l'
  end.

Fixpoint sort_by (l : list A) : list A :=
  match l with
  | [] => []
  | x :: l' => insert_by x (sort_by l')
  end.
End SortBy.

(** [lambda x: int(x) if x.isdigit() else 999] *)
Definition node_sort_key (x : string) : Z :=
  if isdigit x then int_of_digits x else 999.

(** ** Output of the program: log lines and TUI messages *)

Inductive Output : Type :=
| Log (text : string)
| LogThreshold (mw budget : float)
| LogAdjusting (total budget : float) (ids : list string)
| LogBalancing (total budget : float) (shares : list float)
    (changes : list string)
| SensorDataMsg (nid : string) (d : Z) (v i p : float) (raw : string).

(** [class PowerManager] *)
Record PowerManager : Type := mkPowerManager {
  nodes : dict NodeState;
  threshold_mw : option float;
  priority_node : option string;
  _adjusting : bool;
  _last_adjustment : float;
  _poll_generation : Z;
  _polling : bool;
  _needs_bootstrap : bool
}.

Definition POLL_INTERVAL : float := 3.0.
Definition READ_STAGGER : float := 2.5.
Definition STALE_TIMEOUT : float := 45.0.
Definition COOLDOWN : float := 5.0.
Definition HEADROOM_MW : float := 500.0.
Definition PRIORITY_WEIGHT : float := 2.0.

(** [PowerManager(gateway)] *)
Definition PowerManager_new : PowerManager :=
  mkPowerManager [] None None false 0%float 0 false false.

Definition pm_with_nodes (pm : PowerManager) (d : dict NodeState) : PowerManager :=
  mkPowerManager d (threshold_mw pm) (priority_node pm) (_adjusting pm)
    (_last_adjustment pm) (_poll_generation pm) (_polling pm)
    (_needs_bootstrap pm).

Definition pm_with_adjusting (pm : PowerManager) (b : bool) : PowerManager :=
  mkPowerManager (nodes pm) (threshold_mw pm) (priority_node pm) b
    (_last_adjustment pm) (_poll_generation pm) (_polling pm)
    (_needs_bootstrap pm).

Definition pm_with_last_adjustment (pm : PowerManager) (t : float) : PowerManager :=
  mkPowerManager (nodes pm) (threshold_mw pm) (priority_node pm) (_adjusting pm)
    t (_poll_generation pm) (_polling pm) (_needs_bootstrap pm).

(** [self.priority_node = p; self._last_adjustment = 0] *)
Definition pm_with_priority (pm : PowerManager) (p : option string) : PowerManager :=
  mkPowerManager (nodes pm) (threshold_mw pm) p (_adjusting pm)
    0%float (_poll_generation pm) (_polling pm) (_needs_bootstrap pm).

(** [class DCMonitorGateway].  [connected] stands for
    [self.client and self.client.is_connected]; [written] is the sequence of
    payloads handed to [write_gatt_char(COMMAND_CHAR_UUID, ...)]; [out] is
    what [log] and [print] produced; [clock] is [time.monotonic()];
    [tui] stands for [self.app and _HAS_TEXTUAL]. *)
Record Gateway : Type := mkGateway {
  connected : bool;
  _chunk_buf : string;
  _power_manager : option PowerManager;
  _monitoring : bool;
  tui : bool;
  debug_mode : bool;
  written : list string;
  out : list Output;
  clock : float
}.

Definition Gateway_new (tui_attached : bool) (now : float) : Gateway :=
  mkGateway false "" None false tui_attached false [] [] now.

Definition gw_with_pm (gw : Gateway) (pm : option PowerManager) : Gateway :=
  mkGateway (connected gw) (_chunk_buf gw) pm (_monitoring gw) (tui gw)
    (debug_mode gw) (written gw) (out gw) (clock gw).

Definition gw_with_buf (gw : Gateway) (b : string) : Gateway :=
  mkGateway (connected gw) b (_power_manager gw) (_monitoring gw) (tui gw)
    (debug_mode gw) (written gw) (out gw) (clock gw).

Definition gw_with_written (gw : Gateway) (w : list string) : Gateway :=
  mkGateway (connected gw) (_chunk_buf gw) (_power_manager gw) (_monitoring gw)
    (tui gw) (debug_mode gw) w (out gw) (clock gw).

Definition gw_with_out (gw : Gateway) (o : list Output) : Gateway :=
  mkGateway (connected gw) (_chunk_buf gw) (_power_manager gw) (_monitoring gw)
    (tui gw) (debug_mode gw) (written gw) o (clock gw).

Definition gw_with_clock (gw : Gateway) (t : float) : Gateway :=
  mkGateway (connected gw) (_chunk_buf gw) (_power_manager gw) (_monitoring gw)
    (tui gw) (debug_mode gw) (written gw) (out gw) t.

Definition gw_with_monitoring (gw : Gateway) (b : bool) : Gateway :=
  mkGateway (connected gw) (_chunk_buf gw) (_power_manager gw) b
    (tui gw) (debug_mode gw) (written gw) (out gw) (clock gw).

(** ** Methods as state transformers that may raise *)

Definition M (A : Type) : Type := Gateway -> Res A * Gateway.

Definition ret {A : Type} (a : A) : M A := fun gw => (Ok a, gw).
Definition raise {A : Type} (e : Exc) : M A := fun gw => (Raise e, gw).

Definition bind {A B : Type} (m : M A) (k : A -> M B) : M B :=
  fun gw =>
    match m gw with
    | (Ok a, gw') => k a gw'
    | (Raise e, gw') => (Raise e, gw')
    end.

Notation "x <- m ;; k" := (bind m (fun x => k))
  (at level 61, m at next level, right associativity).
Notation "m ;; k" := (bind m (fun _ => k))
  (at level 61, right associativity).

(** [try: body finally: fin] *)
Definition try_finally {A : Type} (body : M A) (fin : M unit) : M A :=
  fun gw =>
    let '(r, gw1) := body gw in
    match fin gw1 with
    | (Ok _, gw2) => (r, gw2)
    | (Raise e, gw2) => (Raise e, gw2)
    end.

Definition lift {A : Type} (r : Res A) : M A := fun gw => (r, gw).

(** [for x in xs: body(x)] *)
Fixpoint for_each {A : Type} (xs : list A) (body : A -> M unit) : M unit :=
  match xs with
  | [] => ret tt
  | x :: xs' => body x ;; for_each xs' body
  end.

Definition log (o : Output) : M unit :=
  fun gw => (Ok tt, gw_with_out gw (out gw ++ [o])).

(** [await asyncio.sleep(d)] *)
Definition sleep (d : float) : M unit :=
  fun gw => (Ok tt, gw_with_clock gw (clock gw + d)%float).

(** [time.monotonic()] *)
Definition monotonic : M float := fun gw => (Ok (clock gw), gw).

(** [self._power_manager] dereferenced, as in
    [gw._power_manager.method(...)]: the method body runs on that object. *)
Definition with_pm {A : Type} (k : PowerManager -> M A) : M A :=
  fun gw =>
    match _power_manager gw with
    | Some pm => k pm gw
    | None => (Raise AttributeError, gw)
    end.

Definition put_pm (pm : PowerManager) : M unit :=
  fun gw => (Ok tt, gw_with_pm gw (Some pm)).

(** Assignment to a field of the [NodeState] object stored under [nid]. *)
Definition update_node (nid : string) (f : NodeState -> NodeState) : M unit :=
  with_pm (fun pm =>
    match dict_get nid (nodes pm) with
    | Some ns => put_pm (pm_with_nodes pm (dict_set nid (f ns) (nodes pm)))
    | None => raise KeyError
    end).

(* ================================================================== *)
(** * PowerManager: public API and notification hook                   *)
(* ================================================================== *)

(** [PowerManager.set_threshold] *)
Definition set_threshold (mw : float) : M unit :=
  with_pm (fun pm =>
    let snapshot (kv : string * NodeState) :=
      let ns := snd kv in
      if ((target_duty ns =? 0) && (0 <? duty ns))%Z
      then (fst kv, set_target ns (duty ns)) else kv in
    put_pm (mkPowerManager (map snapshot (nodes pm)) (Some mw)
              (priority_node pm) false 0%float (_poll_generation pm)
              (_polling pm)
              (match nodes pm with [] => true | _ => false end)) ;;
    let budget := (mw - HEADROOM_MW)%float in
    log (LogThreshold mw budget)).

(** [PowerManager.set_priority] and [PowerManager.clear_priority] *)
Definition set_priority (nid : string) : M unit :=
  with_pm (fun pm =>
    put_pm (pm_with_priority pm (Some nid)) ;;
    log (Log ("[POWER] Priority node: " ++ nid))).

Definition clear_priority : M unit :=
  with_pm (fun pm =>
    put_pm (pm_with_priority pm None) ;;
    log (Log "[POWER] Priority cleared")).

(** [PowerManager.set_target_duty] *)
Definition set_target_duty (nid : string) (d : Z) : M unit :=
  with_pm (fun pm =>
    now <- monotonic ;;
    let nodes1 :=
      if dict_mem nid (nodes pm) then nodes pm
      else dict_set nid (NodeState_new nid now) (nodes pm) in
    put_pm (pm_with_nodes pm nodes1) ;;
    update_node nid (fun ns => set_target ns d)).

(** [PowerManager.on_sensor_data] *)
Definition on_sensor_data (nid : string) (d : Z) (v i p : float) : M unit :=
  with_pm (fun pm =>
    now <- monotonic ;;
    let nodes1 :=
      if dict_mem nid (nodes pm) then nodes pm
      else dict_set nid (NodeState_new nid now) (nodes pm) in
    put_pm (pm_with_nodes pm nodes1) ;;
    update_node nid (fun ns =>
      mkNodeState (node_id ns) d (target_duty ns)
        (match threshold_mw pm with
         | None => d
         | Some _ => commanded_duty ns
         end)
        v i p now true (_poll_generation pm))).

(** [PowerManager._estimate_mw_per_pct] *)
Definition effective_duty (ns : NodeState) : Z :=
  if (0 <? commanded_duty ns)%Z then commanded_duty ns else duty ns.

Fixpoint collect_estimates (ns : list NodeState) : Res (list float) :=
  match ns with
  | [] => Ok []
  | n :: rest =>
      let d := effective_duty n in
      if (0 <? d)%Z && float_gt_int (power n) 0 then
        rbind (truediv_int (power n) d) (fun e =>
        rbind (collect_estimates rest) (fun es => Ok (e :: es)))
      else collect_estimates rest
  end.

Definition _estimate_mw_per_pct (ns : NodeState) (all_nodes : dict NodeState)
  : Res float :=
  let duty_value := effective_duty ns in
  if (0 <? duty_value)%Z && float_gt_int (power ns) 0 then
    truediv_int (power ns) duty_value
  else
    rbind (collect_estimates (dict_values all_nodes)) (fun estimates =>
      match estimates with
      | [] => Ok 50.0%float
      | _ => truediv_int (fsum estimates) (Z.of_nat (List.length estimates))
      end).

(* ================================================================== *)
(** * DCMonitorGateway: command path                                    *)
(* ================================================================== *)

(** [DCMonitorGateway.send_command]; a write on a connected link is taken
    to succeed. *)
Definition send_command (cmd : string) (_silent : bool) : M bool :=
  fun gw =>
    if negb (connected gw) then
      (Ok false, gw_with_out gw (out gw ++ [Log "Not connected"]))
    else
      let gw1 := gw_with_written gw (written gw ++ [cmd]) in
      (Ok true,
       if _silent then gw1
       else gw_with_out gw1 (out gw1 ++ [Log ("Sent: " ++ cmd)])).

(** The f-string [f"{nid}:{command}:{value}"] or [f"{nid}:{command}"]. *)
Definition format_cmd (nid command : string) (value : option string) : string :=
  match value with
  | Some v => nid ++ ":" ++ command ++ ":" ++ v
  | None => nid ++ ":" ++ command
  end.

(** The node ids that [send_to_node("ALL", ...)] iterates over. *)
Definition expand_all (pm : option PowerManager) : list string :=
  match pm with
  | Some p =>
      match nodes p with
      | [] => ["1"; "2"]
      | _ => sort_by node_sort_key (dict_keys (nodes p))
      end
  | None => ["1"; "2"]
  end.

(** [DCMonitorGateway.send_to_node] *)
Definition send_to_node (node command : string) (value : option string)
    (_silent : bool) : M bool :=
  if String.eqb (upper node) "ALL" then
    fun gw =>
      (for_each (expand_all (_power_manager gw)) (fun nid =>
         if negb (isdigit nid) then ret tt
         else
           send_command (format_cmd nid command value) _silent ;;
           sleep 2.5%float) ;;
       ret true) gw
  else send_command (format_cmd node command value) _silent.

(** [DCMonitorGateway.set_duty] *)
Definition set_duty (node : string) (percent : Z) (_from_power_mgr : bool)
    (_silent : bool) : M bool :=
  let percent := Z.max 0 (Z.min 100 percent) in
  (fun gw =>
     match _power_manager gw with
     | Some pm =>
         if negb _from_power_mgr then
           if String.eqb (upper node) "ALL" then
             match nodes pm with
             | [] => for_each ["1"; "2"] (fun nid => set_target_duty nid percent) gw
             | _ => for_each (dict_keys (nodes pm))
                      (fun nid => set_target_duty nid percent) gw
             end
           else set_target_duty node percent gw
         else (Ok tt, gw)
     | None => (Ok tt, gw)
     end) ;;
  send_to_node node "DUTY" (Some (str_of_int percent)) _silent.

(** The one-shot commands. *)
Definition start_ramp (node : string) : M bool := send_to_node node "RAMP" None false.
Definition read_status (node : string) : M bool := send_to_node node "STATUS" None false.
Definition read_sensor (node : string) : M bool := send_to_node node "READ" None false.

(* ================================================================== *)
(** * PowerManager: the control loop                                    *)
(* ================================================================== *)

(** [PowerManager._nudge_node].  [R] holds the keys of the dictionary passed
    as [all_nodes]; its values are the live [NodeState] objects. *)
Definition _nudge_node (nid : string) (target_share_mw : float)
    (R : list string) : M (option string) :=
  with_pm (fun pm =>
    match dict_get nid (nodes pm) with
    | None => raise KeyError
    | Some ns =>
        let all_nodes := dict_view R (nodes pm) in
        mw_per_pct <- lift (_estimate_mw_per_pct ns all_nodes) ;;
        ideal_duty <- lift (truediv target_share_mw mw_per_pct) ;;
        let ceiling := if (0 <? target_duty ns)%Z then target_duty ns else 100 in
        let ideal_duty := max2 (NInt 0) (min2 (NInt ceiling) (NFloat ideal_duty)) in
        let current := effective_duty ns in
        new_duty <- lift (int_of_num ideal_duty) ;;
        if (new_duty =? current)%Z then ret None
        else
          let new_duty := Z.max 0 (Z.min 100 new_duty) in
          if (new_duty =? current)%Z then ret None
          else
            let change := "N" ++ nid ++ ":" ++ str_of_int current ++ "->"
                          ++ str_of_int new_duty ++ "%" in
            set_duty nid new_duty true true ;;
            update_node nid (fun n => set_commanded n new_duty) ;;
            sleep 2.5%float ;;
            ret (Some change)
    end).

(** The loop [for nid, ns in sorted(...): change = await _nudge_node(...)],
    collecting the changes. *)
Fixpoint nudge_each (ids : list string) (share : float) (R : list string)
  : M (list string) :=
  match ids with
  | [] => ret []
  | nid :: rest =>
      change <- _nudge_node nid share R ;;
      changes <- nudge_each rest share R ;;
      ret (match change with
           | Some c => c :: changes
           | None => changes
           end)
  end.

Definition total_power_of (R : list string) : M float :=
  with_pm (fun pm =>
    ret (fsum (map power (dict_values (dict_view R (nodes pm)))))).

(** [PowerManager._balance_proportional] *)
Definition _balance_proportional (R : list string) (budget : float) : M unit :=
  let n := Z.of_nat (List.length R) in
  share_mw <- lift (truediv_int budget n) ;;
  changes <- nudge_each (sort_by node_sort_key R) share_mw R ;;
  total_power <- total_power_of R ;;
  match changes with
  | [] => ret tt
  | _ => log (LogBalancing total_power budget [share_mw] changes)
  end.

(** [PowerManager._balance_with_priority] *)
Definition _balance_with_priority (R : list string) (budget : float) : M unit :=
  with_pm (fun pm =>
    match priority_node pm with
    | None => raise KeyError
    | Some pri =>
        match dict_get pri (dict_view R (nodes pm)) with
        | None => raise KeyError
        | Some priority_ns =>
            let non_priority := filter (fun nid => negb (String.eqb nid pri)) R in
            let n_others := Z.of_nat (List.length non_priority) in
            total_shares <- lift (add_int PRIORITY_WEIGHT n_others) ;;
            weight <- lift (truediv PRIORITY_WEIGHT total_shares) ;;
            let priority_budget := (budget * weight)%float in
            pri_mw_per_pct <-
              lift (_estimate_mw_per_pct priority_ns (dict_view R (nodes pm))) ;;
            let pri_ceiling :=
              if (0 <? target_duty priority_ns)%Z then target_duty priority_ns
              else 100 in
            pri_max_power <- lift (mul_int pri_ceiling pri_mw_per_pct) ;;
            let priority_budget :=
              if (pri_max_power <? priority_budget)%float
                 && negb (Nat.eqb (List.length non_priority) 0)
              then pri_max_power else priority_budget in
            let remaining := (budget - priority_budget)%float in
            non_pri_share <-
              (match non_priority with
               | [] => ret 0%float
               | _ => lift (truediv_int remaining n_others)
               end) ;;
            change <- _nudge_node pri priority_budget R ;;
            let changes0 :=
              match change with
              | Some c => [c ++ "(pri)"]
              | None => []
              end in
            changes1 <- nudge_each (sort_by node_sort_key non_priority)
                          non_pri_share R ;;
            total_power <- total_power_of R ;;
            match (changes0 ++ changes1)%list with
            | [] => ret tt
            | changes =>
                log (LogBalancing total_power budget
                       [priority_budget; non_pri_share] changes)
            end
        end
    end).

(** [PowerManager._evaluate_and_adjust] *)
Definition _evaluate_and_adjust : M unit :=
  with_pm (fun pm =>
    match threshold_mw pm with
    | None => ret tt
    | Some threshold =>
        if _adjusting pm then ret tt
        else
          now <- monotonic ;;
          let since := (now - _last_adjustment pm)%float in
          if (since <? COOLDOWN)%float then ret tt
          else
            let responsive_nodes :=
              filter (fun kv => responsive (snd kv)) (nodes pm) in
            match responsive_nodes with
            | [] => ret tt
            | _ =>
                let budget := (threshold - HEADROOM_MW)%float in
                if float_le_int budget 0 then ret tt
                else
                  let total_power := fsum (map power (dict_values responsive_nodes)) in
                  let deadband := (budget * 0.05)%float in
                  if (abs (total_power - budget) <? deadband)%float then ret tt
                  else
                    let all_at_target :=
                      forallb (fun ns =>
                                 (target_duty ns <=? commanded_duty ns)%Z
                                 || (target_duty ns =? 0)%Z)
                              (dict_values responsive_nodes) in
                    if all_at_target && (total_power <=? budget)%float then ret tt
                    else
                      let R := dict_keys responsive_nodes in
                      log (LogAdjusting total_power budget R) ;;
                      put_pm (pm_with_adjusting pm true) ;;
                      try_finally
                        ((match priority_node pm with
                          | Some pri =>
                              if negb (String.eqb pri "")
                                 && existsb (String.eqb pri) R
                              then _balance_with_priority R budget
                              else _balance_proportional R budget
                          | None => _balance_proportional R budget
                          end) ;;
                         now' <- monotonic ;;
                         with_pm (fun pm' =>
                           put_pm (pm_with_last_adjustment pm' now')))
                        (with_pm (fun pm' =>
                           put_pm (pm_with_adjusting pm' false)))
            end
    end).

Definition stop_node (node : string) : M bool :=
  (fun gw => (Ok tt, gw_with_monitoring gw false)) ;;
  send_to_node node "STOP" None false.

Definition start_monitor (node : string) : M bool :=
  (fun gw => (Ok tt, gw_with_monitoring gw true)) ;;
  send_to_node node "MONITOR" None false.

(** The operator commands of [dispatch_command] that reach the command
    characteristic.  [target] is [gw.target_node], which the [node] command
    only ever sets to a digit [0]..[9] or to ["ALL"]. *)
Inductive Command : Set :=
| CmdStop
| CmdRamp
| CmdStatus
| CmdRead
| CmdMonitor
| CmdDuty (val : Z)
| CmdRaw (text : string).

Definition dispatch_command (target : string) (c : Command) : M bool :=
  match c with
  | CmdStop => stop_node target
  | CmdRamp => start_ramp target
  | CmdStatus => read_status target
  | CmdRead => read_sensor target
  | CmdMonitor => start_monitor target
  | CmdDuty val => set_duty target val false false
  | CmdRaw text => send_command (upper text) false
  end.

(* ================================================================== *)
(** * DCMonitorGateway: frame codec                                     *)
(* ================================================================== *)

(** [NODE_ID_RE.match(s)]: [NODE(\d+)], ignoring case, anchored at the
    start; returns group 1. *)
Definition NODE_ID_RE_match (s : string) : option string :=
  match eat_ci "NODE" s with
  | Some rest =>
      match span isdigit_ascii rest with
      | (EmptyString, _) => None
      | (digits, _) => Some digits
      end
  | None => None
  end.

Definition is_decimal_char (c : ascii) : bool :=
  isdigit_ascii c || Ascii.eqb c "."%char.

(** One capture group [(class+)] followed by the literal [lit]. *)
Definition group_then (class : ascii -> bool) (lit s : string)
  : option (string * string) :=
  match span class s with
  | (EmptyString, _) => None
  | (g, rest) =>
      match eat_ci lit rest with
      | Some rest' => Some (g, rest')
      | None => None
      end
  end.

(** [SENSOR_RE.match(s)]:
    [D:(\d+)%,V:([\d.]+)V,I:([\d.]+)mA,P:([\d.]+)mW], ignoring case,
    anchored at the start; returns the four groups. *)
Definition SENSOR_RE_match (s : string)
  : option (string * string * string * string) :=
  match eat_ci "D:" s with
  | None => None
  | Some s1 =>
      match group_then isdigit_ascii "%,V:" s1 with
      | None => None
      | Some (g1, s2) =>
          match group_then is_decimal_char "V,I:" s2 with
          | None => None
          | Some (g2, s3) =>
              match group_then is_decimal_char "mA,P:" s3 with
              | None => None
              | Some (g3, s4) =>
                  match group_then is_decimal_char "mW" s4 with
                  | None => None
                  | Some (g4, _) => Some (g1, g2, g3, g4)
                  end
              end
          end
      end
  end.

(** Which branch of [notification_handler] a notification took. *)
Inductive Handled : Type :=
| Continuation
| Telemetry (nid : string) (d : Z) (v i p : float)
| Unparsed (node_tag payload : string)
| ErrorLine (line : string)
| SentLine (line : string)
| ReadyLine (line : string)
| TimeoutLine (line : string)
| PlainLine (line : string).

Definition polling_now (gw : Gateway) : bool :=
  match _power_manager gw with
  | Some pm => _polling pm
  | None => false
  end.

(** The second half of [notification_handler]: what happens to a
    reassembled line once [_chunk_buf] has been cleared.  [timestamp] is
    [datetime.now().strftime("%H:%M:%S")]. *)
Definition handle_line (timestamp decoded : string) : M Handled :=
  fun gw =>
    let stamp := "[" ++ timestamp ++ "] " in
    match split_once ":DATA:" decoded with
    | Some (node_tag, payload) =>
        let raw := stamp ++ node_tag ++ " >> " ++ payload in
        match SENSOR_RE_match payload, NODE_ID_RE_match node_tag with
        | Some (g1, g2, g3, g4), Some nid =>
            (let d := int_of_digits g1 in
             v <- lift (float_of_decimal g2) ;;
             i <- lift (float_of_decimal g3) ;;
             p <- lift (float_of_decimal g4) ;;
             (fun gw' =>
                match _power_manager gw' with
                | Some _ => on_sensor_data nid d v i p gw'
                | None => (Ok tt, gw')
                end) ;;
             (if tui gw then log (SensorDataMsg nid d v i p raw)
              else log (Log raw)) ;;
             ret (Telemetry nid d v i p)) gw
        | _, _ => (log (Log raw) ;; ret (Unparsed node_tag payload)) gw
        end
    | None =>
        if startswith decoded "ERROR:" then
          ((if polling_now gw then ret tt
            else log (Log (stamp ++ "!! " ++ decoded))) ;;
           ret (ErrorLine decoded)) gw
        else if startswith decoded "SENT:" then
          ((if tui gw && negb (debug_mode gw) then ret tt
            else log (Log (stamp ++ "-> " ++ decoded))) ;;
           ret (SentLine decoded)) gw
        else if startswith decoded "MESH_READY" then
          (log (Log (stamp ++ decoded)) ;; ret (ReadyLine decoded)) gw
        else if startswith decoded "TIMEOUT:" then
          ((if polling_now gw then ret tt
            else log (Log (stamp ++ "!! " ++ decoded))) ;;
           ret (TimeoutLine decoded)) gw
        else (log (Log (stamp ++ decoded)) ;; ret (PlainLine decoded)) gw
    end.

(** [DCMonitorGateway.notification_handler]; [data] is the decoded
    notification.  The result names the branch taken. *)
Definition notification_handler (timestamp data : string) : M Handled :=
  fun gw =>
    let decoded := strip data in
    if startswith decoded "+" then
      (Ok Continuation, gw_with_buf gw (_chunk_buf gw ++ skip 1 decoded))
    else
      let decoded :=
        match _chunk_buf gw with
        | EmptyString => decoded
        | buf => buf ++ decoded
        end in
      handle_line timestamp decoded (gw_with_buf gw "").

(** Successive notifications on one link: each callback runs on the state
    its predecessor left, whether or not that one raised. *)
Fixpoint feed (timestamp : string) (chunks : list string) (gw : Gateway)
  : list (Res Handled) * Gateway :=
  match chunks with
  | [] => ([], gw)
  | c :: rest =>
      let '(r, gw1) := notification_handler timestamp c gw in
      let '(rs, gw2) := feed timestamp rest gw1 in
      (r :: rs, gw2)
  end.

(* ================================================================== *)
(** * DCMonitorGateway: scanning                                        *)
(* ================================================================== *)

Definition DC_MONITOR_SERVICE_UUID : string :=
  "0000dc01-0000-1000-8000-00805f9b34fb".
Definition DEVICE_NAME_PREFIXES : list string :=
  ["Mesh-Gateway"; "ESP-BLE-MESH"].

(** What [BleakScanner.discover(return_adv=True)] reports for one device. *)
Record BLEDevice : Set := mkDevice {
  address : string;
  name : option string
}.

Record AdvertisementData : Set := mkAdv {
  service_uuids : list string
}.

Definition truthy (s : option string) : bool :=
  match s with
  | Some (String _ _) => true
  | _ => false
  end.

Definition name_or (d : BLEDevice) (dflt : string) : string :=
  match name d with
  | Some (String c n) => String c n
  | _ => dflt
  end.

(** The body of the [for] loop of [scan_for_nodes] for one device: whether
    the device is appended, and the line logged when it is. *)
Definition scan_match (target_address : option string) (device : BLEDevice)
    (adv_data : AdvertisementData) : option Output :=
  let tagline := " [" ++ address device ++ "]" in
  if truthy target_address
     && String.eqb (upper (address device))
          (upper (match target_address with Some t => t | None => "" end))
  then Some (Log ("Found target: " ++ name_or device "(no name)" ++ tagline))
  else if truthy (name device)
          && existsb (fun p => contains p (name_or device ""))
               DEVICE_NAME_PREFIXES
  then Some (Log ("Found: " ++ name_or device "" ++ tagline))
  else
    match service_uuids adv_data with
    | [] => None
    | uuids =>
        if existsb (String.eqb (lower DC_MONITOR_SERVICE_UUID))
             (map lower uuids)
        then Some (Log ("Found: " ++ name_or device "Unknown" ++ tagline
                        ++ " (by service UUID)"))
        else None
    end.

(** [DCMonitorGateway.scan_for_nodes], given what
    [BleakScanner.discover] reported within the timeout. *)
Definition scan_for_nodes
    (devices : dict (BLEDevice * AdvertisementData))
    (target_address : option string) : M (list BLEDevice) :=
  log (Log "Scanning for BLE devices...") ;;
  let found :=
    flat_map (fun entry =>
                let '(device, adv_data) := snd entry in
                match scan_match target_address device adv_data with
                | Some line => [(device, line)]
                | None => []
                end) devices in
  for_each (map snd found) log ;;
  (match found with
   | [] =>
       log (Log "No DC Monitor gateways found") ;;
       log (Log "Tip: Make sure ESP32-C6 is powered and advertising")
   | _ => ret tt
   end) ;;
  ret (map fst found).

(* ================================================================== *)
(** * Scenarios and statements                                          *)
(* ================================================================== *)

Definition responsive_nodes (pm : PowerManager) : dict NodeState :=
  filter (fun kv => responsive (snd kv)) (nodes pm).

Definition total_power (pm : PowerManager) : float :=
  fsum (map power (dict_values (responsive_nodes pm))).

Definition budget_of (threshold : float) : float :=
  (threshold - HEADROOM_MW)%float.

Definition all_at_target (pm : PowerManager) : bool :=
  forallb (fun ns => (target_duty ns <=? commanded_duty ns)%Z
                     || (target_duty ns =? 0)%Z)
          (dict_values (responsive_nodes pm)).

(** The last duty commanded for a node, when the registry knows it. *)
Definition commanded_of (gw : Gateway) (nid : string) : option Z :=
  match _power_manager gw with
  | Some pm => option_map commanded_duty (dict_get nid (nodes pm))
  | None => None
  end.

Definition registry_of (gw : Gateway) : dict NodeState :=
  match _power_manager gw with
  | Some pm => nodes pm
  | None => []
  end.

Module Scenario.

(** A responsive node as the registry holds it after a reading taken
    while power management was off (12 V supply). *)
Definition node (nid : string) (d t : Z) (p : float) : NodeState :=
  mkNodeState nid d t d 12%float (p / 12)%float p 0%float true 0.

(** A connected gateway whose power manager has the given registry,
    threshold and priority, five minutes after start-up. *)
Definition gateway (ns : list NodeState) (threshold : float)
    (pri : option string) : Gateway :=
  mkGateway true "" 
    (Some (mkPowerManager (map (fun n => (node_id n, n)) ns)
             (Some threshold) pri false 0%float 1 true false))
    false false false [] [] 300%float.

(** S1: two nodes at duty 100 drawing 5000 mW each, threshold 4000 mW. *)
Definition S1 : Gateway :=
  gateway [node "1" 100 100 5000; node "2" 100 100 5000] 4000 None.

(** S2: the same link with node 1 as the priority node. *)
Definition S2 : Gateway :=
  gateway [node "1" 100 100 5000; node "2" 100 100 5000] 4000 (Some "1").




(** S4: total 3450 mW against a budget of 3500 mW. *)
Definition S4 : Gateway :=
  gateway [node "1" 35 100 1750; node "2" 34 100 1700] 4000 None.

(** What the design document expects on the wire in S2 and in S3. *)
Definition S2_expected : Prop :=
  written (snd (_evaluate_and_adjust S2)) = ["1:DUTY:47"; "2:DUTY:23"].


(** The smallest positive binary64, [5e-324] in Python. *)
Definition tiny : float := 0x1p-1074%float.

Fixpoint zeros (n : nat) : string :=
  match n with
  | O => ""
  | S n' => String "0" (zeros n')
  end.

(** A well-formed telemetry line reporting 5e-324 mW at duty 2. *)
Definition tiny_reading : string :=
  "NODE1:DATA:D:2%,V:12.0V,I:0.0mA,P:0." ++ zeros 323 ++ "5mW".

(** An idle gateway whose power manager exists but is switched off. *)
Definition idle : Gateway :=
  mkGateway true "" (Some PowerManager_new) false false false [] []
    300%float.

(** The registry entry that [tiny_reading] produces. *)
Definition tiny_node : NodeState :=
  mkNodeState "1" 2 0 2 12%float 0%float tiny 300%float true 0.

(** Power management switched on over that registry, after the operator
    asked for 50 % on the node. *)
Definition tiny_gateway : Gateway :=
  mkGateway true ""
    (Some (mkPowerManager [("1", set_target tiny_node 50)]
             (Some 4000%float) None false
             0%float 1 true false))
    false false false [] [] 400%float.

(** A device that merely mentions a gateway prefix inside its name. *)
Definition stranger : BLEDevice :=
  mkDevice "11:22:33:44:55:66" (Some "Not-A-Mesh-Gateway").

Definition discovered : dict (BLEDevice * AdvertisementData) :=
  [("11:22:33:44:55:66", (stranger, mkAdv []))].

Definition wanted_address : string := "AA:BB:CC:DD:EE:FF".

End Scenario.

(** The conditions under which an evaluation holds back: no responsive
    node, cooldown not elapsed, no positive budget, total inside the
    deadband, or nothing left to raise while under budget. *)
Inductive holds_back (gw : Gateway) (pm : PowerManager) : Prop :=
| HB_empty :
    responsive_nodes pm = [] -> holds_back gw pm
| HB_cooldown :
    (clock gw - _last_adjustment pm <? COOLDOWN)%float = true ->
    holds_back gw pm
| HB_budget (threshold : float) :
    threshold_mw pm = Some threshold ->
    float_le_int (budget_of threshold) 0 = true ->
    holds_back gw pm
| HB_deadband (threshold : float) :
    threshold_mw pm = Some threshold ->
    (abs (total_power pm - budget_of threshold)
       <? budget_of threshold * 0.05)%float = true ->
    holds_back gw pm
| HB_at_target (threshold : float) :
    threshold_mw pm = Some threshold ->
    all_at_target pm = true ->
    (total_power pm <=? budget_of threshold)%float = true ->
    holds_back gw pm.

(** What [set_duty(nid, v, _from_power_mgr=True, _silent=True)] leaves
    behind for a single node. *)
Definition after_duty_command (gw : Gateway) (nid : string) (v : Z) : Gateway :=
  if connected gw
  then gw_with_written gw
         (written gw ++ [format_cmd nid "DUTY" (Some (str_of_int v))])
  else gw_with_out gw (out gw ++ [Log "Not connected"]).

(** The state after the tail of [_nudge_node]: command, assignment to
    [commanded_duty], pause. *)
Definition after_nudge (gw : Gateway) (pm : PowerManager) (nid : string)
    (ns : NodeState) (v : Z) : Gateway :=
  let gw1 := after_duty_command gw nid v in
  gw_with_clock
    (gw_with_pm gw1
       (Some (pm_with_nodes pm (dict_set nid (set_commanded ns v) (nodes pm)))))
    (clock gw + 2.5)%float.

(** The verbs of the wire grammar. *)
Definition VERBS : list string :=
  ["READ"; "DUTY"; "RAMP"; "STOP"; "STATUS"; "MONITOR"; "ON"; "OFF"].

Definition no_ALL (w : string) : Prop := contains "ALL" w = false.

(** A command value is absent or a run of decimal digits. *)
Definition decimal_value (value : option string) : Prop :=
  match value with
  | Some v => sall isdigit_ascii v = true
  | None => True
  end.

(** The order that [sorted(xs, key=key)] establishes. *)
Definition key_le {A : Type} (key : A -> Z) (a b : A) : Prop :=
  key a <= key b.

Definition by_numeric_id (a b : string) : Prop :=
  int_of_digits a <= int_of_digits b.

(** "The string ALL never appears in any bytes written to the command
    characteristic by any operation", over the operator commands. *)
Definition never_writes_ALL : Prop :=
  forall (target : string) (c : Command) (gw : Gateway),
    Forall no_ALL (written gw) ->
    Forall no_ALL (written (snd (dispatch_command target c gw))).

(** A registry with the nodes 10, 2 and 1, discovered in that order. *)
Definition three_nodes : Gateway :=
  Scenario.gateway
    [Scenario.node "10" 50 50 2500; Scenario.node "2" 50 50 2500;
     Scenario.node "1" 50 50 2500] 9000 None.






(** [ceiling] in [_nudge_node]: the target when there is one, else 100. *)
Definition ceiling_of (ns : NodeState) : Z :=
  if (0 <? target_duty ns)%Z then target_duty ns else 100.

(** What a nudge of the node stored under [nid] can lead to: an exception or
    "no change", both with the state untouched, or a committed duty [v]. *)
Definition nudge_outcome (gw : Gateway) (pm : PowerManager) (nid : string)
    (ns : NodeState) (res : Res (option string) * Gateway) : Prop :=
  match res with
  | (Raise _, gw') => gw' = gw
  | (Ok None, gw') =>
      gw' = gw
      /\ exists z, 0 <= z <= ceiling_of ns
                   /\ (z = effective_duty ns
                       \/ Z.max 0 (Z.min 100 z) = effective_duty ns)
  | (Ok (Some _), gw') =>
      exists v, 0 <= v <= 100 /\ v <= ceiling_of ns
                /\ gw' = after_nudge gw pm nid ns v
  end.

(** A DUTY command for a node of the registry [pm0], within that node's
    target when it has one. *)
Definition duty_command_ok (pm0 : PowerManager) (w : string) : Prop :=
  exists nid ns v,
    dict_get nid (nodes pm0) = Some ns
    /\ w = format_cmd nid "DUTY" (Some (str_of_int v))
    /\ 0 <= v <= 100
    /\ (0 < target_duty ns -> v <= target_duty ns).

(** A registry entry after some nudges: same target, and a commanded duty
    that is the old one or lies within the target. *)
Definition node_ok (ns0 ns : NodeState) : Prop :=
  target_duty ns = target_duty ns0
  /\ (commanded_duty ns = commanded_duty ns0
      \/ (0 <= commanded_duty ns <= 100
          /\ (0 < target_duty ns0 -> commanded_duty ns <= target_duty ns0))).

Definition registry_ok (d0 d : dict NodeState) : Prop :=
  forall nid,
    match dict_get nid d0, dict_get nid d with
    | Some ns0, Some ns => node_ok ns0 ns
    | None, None => True
    | _, _ => False
    end.

(** The states an adjustment that started in [gw0], with registry [pm0],
    can pass through. *)
Definition adjusted (gw0 : Gateway) (pm0 : PowerManager) (gw : Gateway) : Prop :=
  exists pm sent,
    _power_manager gw = Some pm
    /\ written gw = (written gw0 ++ sent)%list
    /\ Forall (duty_command_ok pm0) sent
    /\ registry_ok (nodes pm0) (nodes pm).

Definition preserves {A : Type} (I : Gateway -> Prop) (m : M A) : Prop :=
  forall gw, I gw -> I (snd (m gw)).

(** No registry key reads as the broadcast literal. *)
Definition no_broadcast_key (pm : PowerManager) : Prop :=
  forall nid ns, dict_get nid (nodes pm) = Some ns -> upper nid <> "ALL".

(* ================================================================== *)
(** * The rest of the power manager and of the gateway                  *)
(* ================================================================== *)

(** [f"{x:.0f}"]: the nearest integer, ties to even, of the exact value. *)
Definition round_half_even (m d : Z) : Z :=
  let q := m / d in
  let r := m mod d in
  match (2 * r ?= d) with
  | Lt => q
  | Gt => q + 1
  | Eq => if Z.even q then q else q + 1
  end.

Definition format_0f (f : float) : string :=
  match Prim2SF f with
  | S754_nan => "nan"
  | S754_infinity s => if s then "-inf" else "inf"
  | S754_zero s => if s then "-0" else "0"
  | S754_finite s m e =>
      let n := if (0 <=? e)%Z then (Zpos m * 2 ^ e)%Z
               else round_half_even (Zpos m) (2 ^ (- e))%Z in
      (if s then "-" else "") ++ str_of_int n
  end.

Definition set_responsive (ns : NodeState) (b : bool) : NodeState :=
  mkNodeState (node_id ns) (duty ns) (target_duty ns) (commanded_duty ns)
    (voltage ns) (current ns) (power ns) (last_seen ns) b (poll_gen ns).

(** [self.threshold_mw = None; self._polling = False] *)
Definition pm_switched_off (pm : PowerManager) : PowerManager :=
  mkPowerManager (nodes pm) None (priority_node pm) (_adjusting pm)
    (_last_adjustment pm) (_poll_generation pm) false (_needs_bootstrap pm).

(** [self._poll_generation += 1] *)
Definition pm_next_generation (pm : PowerManager) : PowerManager :=
  mkPowerManager (nodes pm) (threshold_mw pm) (priority_node pm) (_adjusting pm)
    (_last_adjustment pm) (_poll_generation pm + 1) (_polling pm)
    (_needs_bootstrap pm).

(** The body of the loop of [_mark_stale_nodes] for the node stored under
    [k]; [now] is the [time.monotonic()] taken before the loop. *)
Definition mark_stale (now : float) (k : string) : M unit :=
  with_pm (fun pm =>
    match dict_get k (nodes pm) with
    | None => raise KeyError
    | Some ns =>
        if negb (isdigit (node_id ns)) then ret tt
        else
          let age := (now - last_seen ns)%float in
          if (STALE_TIMEOUT <? age)%float then
            (if responsive ns
             then log (Log ("[POWER] Node " ++ node_id ns ++ " unresponsive ("
                            ++ format_0f age ++ "s)"))
             else ret tt) ;;
            update_node k (fun n => set_responsive n false)
          else ret tt
    end).

(** [PowerManager._mark_stale_nodes] *)
Definition _mark_stale_nodes : M unit :=
  with_pm (fun pm =>
    now <- monotonic ;;
    for_each (dict_keys (nodes pm)) (mark_stale now)).

(** The body of the loop of [disable] for the node stored under [k]. *)
Definition restore_node (k : string) : M unit :=
  with_pm (fun pm =>
    match dict_get k (nodes pm) with
    | None => raise KeyError
    | Some ns =>
        (if negb (commanded_duty ns =? target_duty ns)%Z
            && (0 <? target_duty ns)%Z
         then
           log (Log ("[POWER] Restoring node " ++ node_id ns ++ ": "
                     ++ str_of_int (commanded_duty ns) ++ "% -> "
                     ++ str_of_int (target_duty ns) ++ "%")) ;;
           set_duty (node_id ns) (target_duty ns) true true ;;
           sleep 2.5%float
         else ret tt) ;;
        update_node k (fun n => set_commanded n 0)
    end).

(** [PowerManager.disable] *)
Definition disable : M unit :=
  with_pm (fun pm => put_pm (pm_switched_off pm)) ;;
  sleep 2.0%float ;;
  with_pm (fun pm => for_each (dict_keys (nodes pm)) restore_node) ;;
  log (Log "[POWER] Threshold disabled").

(** The loop of [_poll_all_nodes]; it returns as soon as the threshold is
    found unset. *)
Fixpoint poll_each (node_ids : list string) : M unit :=
  match node_ids with
  | [] => ret tt
  | nid :: rest =>
      with_pm (fun pm =>
        match threshold_mw pm with
        | None => ret tt
        | Some _ =>
            if negb (isdigit nid) then poll_each rest
            else
              send_to_node nid "READ" None true ;;
              sleep READ_STAGGER ;;
              poll_each rest
        end)
  end.

(** [PowerManager._poll_all_nodes] *)
Definition _poll_all_nodes : M unit :=
  with_pm (fun pm =>
    put_pm (pm_next_generation pm) ;;
    match nodes pm with
    | [] => ret tt
    | _ => poll_each (sort_by node_sort_key (dict_keys (nodes pm)))
    end).

(** The inner loop of [_bootstrap_discovery] for one expected node:
    [for attempt in attempts], leaving at the first attempt that finds the
    node in the registry. *)
Fixpoint probe_node (nid : Z) (attempts : list Z) : M unit :=
  match attempts with
  | [] => ret tt
  | attempt :: rest =>
      with_pm (fun pm =>
        if dict_mem (str_of_int nid) (nodes pm) then ret tt
        else
          (if (0 <? attempt)%Z
           then log (Log ("[POWER] Node " ++ str_of_int nid
                          ++ " not found, attempt "
                          ++ str_of_int (attempt + 1) ++ "/3..."))
           else ret tt) ;;
          send_to_node (str_of_int nid) "READ" None true ;;
          sleep READ_STAGGER ;;
          probe_node nid rest)
  end.

(** The outer loop of [_bootstrap_discovery]. *)
Fixpoint probe_each (nids : list Z) : M unit :=
  match nids with
  | [] => ret tt
  | nid :: rest =>
      with_pm (fun pm =>
        match threshold_mw pm with
        | None => ret tt
        | Some _ => probe_node nid [0; 1; 2] ;; probe_each rest
        end)
  end.

(** [PowerManager._bootstrap_discovery], with [EXPECTED_NODES = 2] and
    [MAX_RETRIES = 3]. *)
Definition _bootstrap_discovery : M unit :=
  log (Log "[POWER] Discovering mesh nodes...") ;;
  probe_each [1; 2].

(** [DCMonitorGateway.disconnect]; the client's own [disconnect] is taken
    to bring the link down. *)
Definition disconnect : M unit :=
  fun gw =>
    let gw1 :=
      if connected gw
      then gw_with_out
             (mkGateway false (_chunk_buf gw) (_power_manager gw)
                (_monitoring gw) (tui gw) (debug_mode gw) (written gw)
                (out gw) (clock gw))
             (out gw ++ [Log "Disconnected"])
      else gw in
    (Ok tt, gw_with_buf gw1 "").

(** The [node <id>] command of [dispatch_command]: the new
    [gw.target_node] for the argument [parts[1]], or [None] when the
    argument is refused. *)
Definition select_node (arg : string) : option string :=
  let new_node := upper (strip arg) in
  if String.eqb new_node "ALL" then Some "ALL"
  else if isdigit new_node
          && (0 <=? int_of_digits new_node)%Z
          && (int_of_digits new_node <=? 9)%Z
  then Some (lower new_node)
  else None.

(** The [--node] argument as [main] validates it: the node the one-shot
    commands address, or [None] when the parser reports an error. *)
Definition main_node (arg : string) : option string :=
  if negb (String.eqb (upper arg) "ALL")
     && negb (isdigit arg && (0 <=? int_of_digits arg)%Z
              && (int_of_digits arg <=? 9)%Z)
  then None
  else Some (if String.eqb (upper arg) "ALL" then upper arg else arg).

Definition is_raw (c : Command) : bool :=
  match c with
  | CmdRaw _ => true
  | _ => false
  end.

(** What a step of the command path leaves alone: the link, the
    continuation buffer and the power manager. *)
Definition same_link (gw gw' : Gateway) : Prop :=
  connected gw' = connected gw
  /\ _chunk_buf gw' = _chunk_buf gw
  /\ _power_manager gw' = _power_manager gw.

(** A target that the [node] command or the [--node] option accepts. *)
Definition accepted_target (t : string) : Prop :=
  exists arg, select_node arg = Some t \/ main_node arg = Some t.

Definition clamp_percent (percent : Z) : Z := Z.max 0 (Z.min 100 percent).

(** The registry entry for [k], or the one [NodeState(node_id=k)] creates
    at time [now]. *)
Definition entry_or_new (k : string) (d : dict NodeState) (now : float)
  : NodeState :=
  match dict_get k d with
  | Some ns => ns
  | None => NodeState_new k now
  end.

(** What [on_sensor_data] assigns to the fields of an entry. *)
Definition with_reading (pm : PowerManager) (now : float) (d : Z)
    (v i p : float) (ns : NodeState) : NodeState :=
  mkNodeState (node_id ns) d (target_duty ns)
    (match threshold_mw pm with
     | None => d
     | Some _ => commanded_duty ns
     end)
    v i p now true (_poll_generation pm).

(** An entry before and after a notification: same node, same target, and
    under power management the same commanded duty. *)
Definition reading_only (pm : PowerManager) (ns ns' : NodeState) : Prop :=
  node_id ns' = node_id ns
  /\ target_duty ns' = target_duty ns
  /\ (threshold_mw pm <> None -> commanded_duty ns' = commanded_duty ns).



(** A node that [_mark_stale_nodes] marks at time [now], and the entry the
    sweep leaves behind. *)
Definition stale (now : float) (ns : NodeState) : bool :=
  isdigit (node_id ns) && (STALE_TIMEOUT <? now - last_seen ns)%float.

Definition swept (now : float) (ns : NodeState) : NodeState :=
  set_responsive ns (responsive ns && negb (stale now ns)).

(** A node that [disable] sends back to its target, and the command it
    sends. *)
Definition needs_restore (ns : NodeState) : bool :=
  negb (commanded_duty ns =? target_duty ns)%Z && (0 <? target_duty ns)%Z.

Definition restore_cmd (ns : NodeState) : string :=
  format_cmd (node_id ns) "DUTY"
    (Some (str_of_int (clamp_percent (target_duty ns)))).

(** No registry entry carries the broadcast literal as its node id. *)
Definition no_broadcast_id (pm : PowerManager) : Prop :=
  forall k ns, dict_get k (nodes pm) = Some ns -> upper (node_id ns) <> "ALL".

(** The READ commands of one poll cycle over the registry [d]. *)
Definition poll_ids (d : dict NodeState) : list string :=
  filter isdigit (sort_by node_sort_key (dict_keys d)).

(** The probes of [_bootstrap_discovery] for the expected node [k]. *)
Definition probes (pm : PowerManager) (k : string) : list string :=
  if dict_mem k (nodes pm) then []
  else repeat (format_cmd k "READ" None) 3.

(** Two states of one registry entry that differ at most in the commanded
    duty. *)
Definition same_but_commanded (a b : NodeState) : Prop :=
  b = set_commanded a (commanded_duty b).

(** The states a balancing pass that started in [gw0], with power manager
    [pm0], can pass through: the link, the policy and the readings are as
    they were. *)
Definition policy_kept (gw0 : Gateway) (pm0 : PowerManager) (gw : Gateway)
  : Prop :=
  connected gw = connected gw0
  /\ _chunk_buf gw = _chunk_buf gw0
  /\ exists pm,
       _power_manager gw = Some pm
       /\ threshold_mw pm = threshold_mw pm0
       /\ priority_node pm = priority_node pm0
       /\ _adjusting pm = _adjusting pm0
       /\ _last_adjustment pm = _last_adjustment pm0
       /\ _poll_generation pm = _poll_generation pm0
       /\ _polling pm = _polling pm0
       /\ _needs_bootstrap pm = _needs_bootstrap pm0
       /\ dict_keys (nodes pm) = dict_keys (nodes pm0)
       /\ forall k,
            match dict_get k (nodes pm0), dict_get k (nodes pm) with
            | Some a, Some b => same_but_commanded a b
            | None, None => True
            | _, _ => False
            end.

(** A float that is neither a NaN nor an infinity. *)
Definition finite (x : float) : bool :=
  match Prim2SF x with
  | S754_zero _ | S754_finite _ _ _ => true
  | _ => false
  end.

(** [l1] is [l2] with some elements left out. *)
Inductive subseq {A : Type} : list A -> list A -> Prop :=
| subseq_nil : subseq [] []
| subseq_skip (x : A) (l1 l2 : list A) : subseq l1 l2 -> subseq l1 (x :: l2)
| subseq_take (x : A) (l1 l2 : list A) :
    subseq l1 l2 -> subseq (x :: l1) (x :: l2).

(** The DUTY command for a node and a value. *)
Definition duty_cmd (c : string * Z) : string :=
  format_cmd (fst c) "DUTY" (Some (str_of_int (snd c))).

(** A method that writes nothing but DUTY commands with values in
    [0,100], at most one for each of [ids] and in that order. *)
Definition emits_at {A : Type} (m : M A) (ids : list string) (gw : Gateway)
  : Prop :=
  exists cs,
    written (snd (m gw)) = (written gw ++ map duty_cmd cs)%list
    /\ subseq (map fst cs) ids
    /\ Forall (fun c => 0 <= snd c <= 100) cs.

Definition emits {A : Type} (m : M A) (ids : list string) : Prop :=
  forall gw, emits_at m ids gw.

(** The order in which an adjustment visits the responsive nodes: the
    priority node first when it is one of them, then the others by
    [node_sort_key]. *)
Definition nudge_order (pm : PowerManager) : list string :=
  let R := dict_keys (responsive_nodes pm) in
  match priority_node pm with
  | Some pri =>
      if negb (String.eqb pri "") && existsb (String.eqb pri) R
      then pri :: sort_by node_sort_key
                    (filter (fun nid => negb (String.eqb nid pri)) R)
      else sort_by node_sort_key R
  | None => sort_by node_sort_key R
  end.

(** The registry 10, 2, 1 under a threshold of 4000 mW with node 2 as the
    priority node. *)
Definition three_nodes_priority : Gateway :=
  Scenario.gateway
    [Scenario.node "10" 50 50 2500; Scenario.node "2" 50 50 2500;
     Scenario.node "1" 50 50 2500] 4000 (Some "2").

(** Every registry key is a digit string. *)
Definition digit_keys (pm : PowerManager) : Prop :=
  forall nid ns, dict_get nid (nodes pm) = Some ns -> isdigit nid = true.

(** The devices that a scan appends, in the order of discovery. *)
Definition scan_hits (devices : dict (BLEDevice * AdvertisementData))
    (target_address : option string) : list BLEDevice :=
  flat_map (fun entry =>
              match scan_match target_address (fst (snd entry))
                      (snd (snd entry)) with
              | Some _ => [fst (snd entry)]
              | None => []
              end) devices.

(** The three ways a device can match in [scan_for_nodes]. *)
Definition matches_scan (target_address : option string) (device : BLEDevice)
    (adv_data : AdvertisementData) : Prop :=
  (exists t, target_address = Some t /\ t <> ""
             /\ upper (address device) = upper t)
  \/ (exists n p, name device = Some n /\ In p DEVICE_NAME_PREFIXES
                  /\ contains p n = true)
  \/ In (lower DC_MONITOR_SERVICE_UUID) (map lower (service_uuids adv_data)).



(* ================================================================== *)
(** * Properties                                                        *)
(* ================================================================== *)

(** ** Dictionaries *)

Lemma dict_get_set_same {V : Type} (k : string) (v : V) (d : dict V) :
  dict_get k (dict_set k v d) = Some v.
Proof.
  induction d as [|[k' v'] d IH]; simpl.
  - now rewrite String.eqb_refl.
  - destruct (String.eqb k k') eqn:E; simpl; rewrite E; auto.
Qed.

Lemma dict_get_set_other {V : Type} (k k' : string) (v : V) (d : dict V) :
  k <> k' -> dict_get k' (dict_set k v d) = dict_get k' d.
Proof.
  intros Hne. induction d as [|[k0 v0] d IH]; simpl.
  - destruct (String.eqb k' k) eqn:E; auto.
    apply String.eqb_eq in E. congruence.
  - destruct (String.eqb k k0) eqn:E; simpl.
    + apply String.eqb_eq in E. subst k0.
      destruct (String.eqb k' k) eqn:E'; auto.
      apply String.eqb_eq in E'. congruence.
    + now rewrite IH.
Qed.

(** ** Truncation of a float lying strictly between 0 and an integer *)

Lemma int_of_float_between (f : float) (c : Z) :
  float_lt_int f c = true ->
  float_gt_int f 0 = true ->
  exists z, int_of_float f = Ok z /\ 0 <= z < c.
Proof.
  unfold float_lt_int, float_gt_int, compare_float_int, int_of_float.
  destruct (Prim2SF f) as [s | s | | s m e];
    cbn [SF_compare_Z SF_trunc cond_Zopp Z.opp].
  - intros _ H. discriminate.
  - destruct s; intros H1 H2; discriminate.
  - discriminate.
  - destruct (Z.leb_spec 0 e) as [He|He].
    + assert (Hp : 0 < 2 ^ e) by now apply Z.pow_pos_nonneg.
      destruct s; unfold cond_Zopp; cbn [Z.opp].
      * intros _ H.
        destruct (Z.compare_spec (Z.neg m * 2 ^ e) 0); try discriminate. nia.
      * intros H _.
        destruct (Z.compare_spec (Z.pos m * 2 ^ e) c); try discriminate.
        eexists; split; [reflexivity | nia].
    + assert (Hp : 0 < 2 ^ (- e)) by (apply Z.pow_pos_nonneg; lia).
      destruct s; unfold cond_Zopp; cbn [Z.opp].
      * intros _ H. rewrite Z.mul_0_l in H.
        destruct (Z.compare_spec (Z.neg m) 0); discriminate.
      * intros H _.
        destruct (Z.compare_spec (Z.pos m) (c * 2 ^ (- e))); try discriminate.
        eexists; split; [reflexivity|]. split.
        -- apply Z.div_pos; lia.
        -- apply Z.div_lt_upper_bound; lia.
Qed.

Lemma clamped_ideal_bounds (c : Z) (x : float) :
  0 < c ->
  exists z,
    int_of_num (max2 (NInt 0) (min2 (NInt c) (NFloat x))) = Ok z
    /\ 0 <= z <= c.
Proof.
  intros Hc. unfold min2, max2, num_lt.
  destruct (float_lt_int x c) eqn:Hlt.
  - destruct (float_gt_int x 0) eqn:Hgt.
    + destruct (int_of_float_between x c Hlt Hgt) as (z & Hz & Hb).
      exists z. simpl. split; [assumption | lia].
    + exists 0. simpl. split; [reflexivity | lia].
  - destruct (Z.ltb_spec 0 c); [|lia].
    exists c. simpl. split; [reflexivity | lia].
Qed.

(** ** A duty command issued by the power manager *)

Lemma set_duty_from_power_mgr (gw : Gateway) (nid : string) (v : Z) :
  upper nid <> "ALL" ->
  0 <= v <= 100 ->
  set_duty nid v true true gw = (Ok (connected gw), after_duty_command gw nid v).
Proof.
  intros Hall Hv. apply String.eqb_neq in Hall.
  unfold set_duty, bind, send_to_node, after_duty_command.
  rewrite Hall.
  replace (Z.max 0 (Z.min 100 v)) with v by lia.
  destruct (_power_manager gw); unfold send_command; cbn [negb];
    destruct (connected gw); reflexivity.
Qed.

Lemma after_duty_command_pm (gw : Gateway) (nid : string) (v : Z) :
  _power_manager (after_duty_command gw nid v) = _power_manager gw.
Proof. unfold after_duty_command. now destruct (connected gw). Qed.

Lemma after_duty_command_clock (gw : Gateway) (nid : string) (v : Z) :
  clock (after_duty_command gw nid v) = clock gw.
Proof. unfold after_duty_command. now destruct (connected gw). Qed.

Lemma after_duty_command_written (gw : Gateway) (nid : string) (v : Z) :
  written (after_duty_command gw nid v) =
  (written gw ++
   if connected gw then [format_cmd nid "DUTY" (Some (str_of_int v))]
   else [])%list.
Proof.
  unfold after_duty_command.
  destruct (connected gw); cbn; [reflexivity | now rewrite app_nil_r].
Qed.

Lemma nudge_commit (gw : Gateway) (pm : PowerManager) (nid : string)
    (ns : NodeState) (v : Z) (change : string) :
  _power_manager gw = Some pm ->
  dict_get nid (nodes pm) = Some ns ->
  upper nid <> "ALL" ->
  0 <= v <= 100 ->
  (set_duty nid v true true ;;
   update_node nid (fun n => set_commanded n v) ;;
   sleep 2.5%float ;;
   ret (Some change)) gw
  = (Ok (Some change), after_nudge gw pm nid ns v).
Proof.
  intros Hpm Hget Hall Hv.
  unfold bind at 1. rewrite (set_duty_from_power_mgr gw nid v Hall Hv).
  unfold bind at 1, update_node, with_pm.
  rewrite after_duty_command_pm, Hpm, Hget.
  unfold put_pm, bind, sleep, ret, after_nudge.
  cbn [clock gw_with_pm]. now rewrite after_duty_command_clock.
Qed.

(** ** The registry's setter and the raw command path *)

Lemma set_target_duty_result (gw : Gateway) (pm : PowerManager)
    (nid : string) (d : Z) :
  _power_manager gw = Some pm ->
  exists nodes',
    set_target_duty nid d gw
      = (Ok tt, gw_with_pm gw (Some (pm_with_nodes pm nodes')))
    /\ dict_get nid nodes'
       = Some (set_target
                 (match dict_get nid (nodes pm) with
                  | Some ns => ns
                  | None => NodeState_new nid (clock gw)
                  end) d)
    /\ forall k, k <> nid -> dict_get k nodes' = dict_get k (nodes pm).
Proof.
  intros Hpm.
  unfold set_target_duty, with_pm. rewrite Hpm.
  unfold bind at 1, monotonic at 1.
  unfold bind at 1, put_pm at 1, update_node, with_pm.
  cbn [_power_manager gw_with_pm nodes pm_with_nodes].
  unfold dict_mem.
  destruct (dict_get nid (nodes pm)) as [ns|] eqn:Hget.
  - rewrite Hget. unfold put_pm. cbn.
    eexists. split; [reflexivity|]. split.
    + apply dict_get_set_same.
    + intros k Hk. apply dict_get_set_other. congruence.
  - rewrite dict_get_set_same. unfold put_pm. cbn.
    eexists. split; [reflexivity|]. split.
    + apply dict_get_set_same.
    + intros k Hk. rewrite !dict_get_set_other by congruence. reflexivity.
Qed.

Lemma send_command_result (gw : Gateway) (cmd : string) (silent : bool) :
  exists gw',
    send_command cmd silent gw = (Ok (connected gw), gw')
    /\ _power_manager gw' = _power_manager gw
    /\ connected gw' = connected gw
    /\ _chunk_buf gw' = _chunk_buf gw
    /\ clock gw' = clock gw
    /\ written gw' = (written gw ++ if connected gw then [cmd] else [])%list.
Proof.
  unfold send_command.
  destruct (connected gw) eqn:Hc; cbn [negb].
  - destruct silent; eexists; (split; [reflexivity|]); cbn; auto.
  - eexists; split; [reflexivity|]; cbn. rewrite app_nil_r. auto.
Qed.

(** ** Stable sort by key *)

Section SortByFacts.
Context {A : Type} (key : A -> Z).

Lemma insert_by_perm (x : A) (l : list A) :
  Permutation (insert_by key x l) (x :: l).
Proof.
  induction l as [|y l IH]; simpl.
  - reflexivity.
  - destruct (key x <=? key y)%Z.
    + reflexivity.
    + rewrite IH. apply perm_swap.
Qed.

Lemma sort_by_perm (l : list A) : Permutation (sort_by key l) l.
Proof.
  induction l as [|x l IH]; simpl.
  - reflexivity.
  - rewrite insert_by_perm. now constructor.
Qed.

Lemma insert_by_sorted (x : A) (l : list A) :
  StronglySorted (key_le key) l -> StronglySorted (key_le key) (insert_by key x l).
Proof.
  induction 1 as [|y l Hs IH Hy]; simpl.
  - repeat constructor.
  - destruct (Z.leb_spec (key x) (key y)) as [Hle|Hgt].
    + constructor; [now constructor|].
      constructor; [exact Hle|].
      eapply Forall_impl; [|exact Hy].
      unfold key_le. intros a Ha. lia.
    + constructor; [exact IH|].
      eapply Permutation_Forall; [symmetry; apply insert_by_perm|].
      constructor; [unfold key_le; lia | exact Hy].
Qed.

Lemma sort_by_sorted (l : list A) : StronglySorted (key_le key) (sort_by key l).
Proof.
  induction l as [|x l IH]; simpl.
  - constructor.
  - now apply insert_by_sorted.
Qed.

End SortByFacts.

Lemma StronglySorted_filter {A : Type} (R : A -> A -> Prop) (p : A -> bool)
    (l : list A) :
  StronglySorted R l -> StronglySorted R (filter p l).
Proof.
  induction 1 as [|x l Hs IH Hx]; simpl.
  - constructor.
  - destruct (p x); [|exact IH].
    constructor; [exact IH|].
    apply Forall_forall. intros y Hy. apply filter_In in Hy.
    rewrite Forall_forall in Hx. now apply Hx.
Qed.

Lemma StronglySorted_within {A : Type} (P : A -> Prop) (R R' : A -> A -> Prop)
    (l : list A) :
  (forall a b, P a -> P b -> R a b -> R' a b) ->
  Forall P l -> StronglySorted R l -> StronglySorted R' l.
Proof.
  intros HR HP Hs. induction Hs as [|x l Hs IH Hx].
  - constructor.
  - inversion HP as [|? ? Px Pl]; subst.
    constructor; [now apply IH|].
    rewrite Forall_forall in *. intros y Hy. apply HR; auto.
Qed.

Lemma Permutation_filter {A : Type} (p : A -> bool) (l l' : list A) :
  Permutation l l' -> Permutation (filter p l) (filter p l').
Proof.
  induction 1; simpl.
  - constructor.
  - destruct (p x); [now constructor | assumption].
  - destruct (p x), (p y); try reflexivity. apply perm_swap.
  - etransitivity; eassumption.
Qed.

(** ** No broadcast literal in an expanded command *)

Lemma append_empty_r (s : string) : s ++ "" = s.
Proof.
  induction s as [|c s IH]; [reflexivity|].
  cbn [append]. now rewrite IH.
Qed.

Lemma contains_ALL_skip (c : ascii) (s : string) :
  c <> "A"%char -> contains "ALL" (String c s) = contains "ALL" s.
Proof.
  intros Hc. cbn [contains prefix].
  destruct (ascii_dec "A" c) as [E|_]; [congruence | reflexivity].
Qed.

Lemma digit_not_A (c : ascii) : isdigit_ascii c = true -> c <> "A"%char.
Proof. intros H E. subst c. discriminate H. Qed.

Lemma contains_ALL_digits_app (d s : string) :
  sall isdigit_ascii d = true -> contains "ALL" (d ++ s) = contains "ALL" s.
Proof.
  induction d as [|c d IH]; intros H.
  - reflexivity.
  - cbn [sall] in H. apply andb_prop in H as [Hc Hd].
    cbn [append]. rewrite contains_ALL_skip by now apply digit_not_A.
    now apply IH.
Qed.

Lemma contains_ALL_digits (d : string) :
  sall isdigit_ascii d = true -> contains "ALL" d = false.
Proof.
  induction d as [|c d IH]; intros H.
  - reflexivity.
  - cbn [sall] in H. apply andb_prop in H as [Hc Hd].
    rewrite contains_ALL_skip by now apply digit_not_A.
    now apply IH.
Qed.

Lemma isdigit_sall (s : string) : isdigit s = true -> sall isdigit_ascii s = true.
Proof. destruct s; [discriminate | trivial]. Qed.

Lemma format_cmd_no_ALL (nid command : string) (value : option string) :
  isdigit nid = true ->
  In command VERBS ->
  decimal_value value ->
  no_ALL (format_cmd nid command value).
Proof.
  intros Hn Hc Hv. apply isdigit_sall in Hn.
  unfold no_ALL, format_cmd.
  assert (Hrest : contains "ALL"
                    match value with
                    | Some v => ":" ++ v
                    | None => ""
                    end = false).
  { destruct value as [v|]; [|reflexivity].
    cbn [append]. rewrite contains_ALL_skip by discriminate.
    now apply contains_ALL_digits. }
  assert (Hcmd : contains "ALL"
                   (command ++ match value with
                               | Some v => ":" ++ v
                               | None => ""
                               end) = false).
  { unfold VERBS in Hc. cbn [In] in Hc.
    destruct value as [v|];
      intuition (subst command; cbn [append];
                 repeat first
                   [ rewrite contains_ALL_skip by discriminate
                   | progress cbn [contains prefix orb];
                     match goal with
                     | |- context [ascii_dec ?a ?b] =>
                         let d := eval vm_compute in (ascii_dec a b) in
                         change (ascii_dec a b) with d; cbv iota
                     end ];
                 try exact Hrest). }
  destruct value as [v|].
  - rewrite contains_ALL_digits_app by assumption.
    cbn [append]. rewrite contains_ALL_skip by discriminate. exact Hcmd.
  - rewrite contains_ALL_digits_app by assumption.
    cbn [append]. rewrite contains_ALL_skip by discriminate.
    now rewrite append_empty_r in Hcmd.
Qed.

(** ** The broadcast loop of [send_to_node] *)

Lemma broadcast_loop (command : string) (value : option string)
    (silent : bool) (ids : list string) (gw : Gateway) :
  exists gw',
    for_each ids (fun nid =>
        if negb (isdigit nid) then ret tt
        else
          send_command (format_cmd nid command value) silent ;;
          sleep 2.5%float) gw = (Ok tt, gw')
    /\ connected gw' = connected gw
    /\ _power_manager gw' = _power_manager gw
    /\ _chunk_buf gw' = _chunk_buf gw
    /\ written gw' =
       (written gw
        ++ if connected gw
           then map (fun nid => format_cmd nid command value)
                  (filter isdigit ids)
           else [])%list.
Proof.
  revert gw. induction ids as [|nid ids IH]; intros gw.
  - exists gw. cbn [for_each ret filter map].
    destruct (connected gw); rewrite app_nil_r; auto.
  - cbn [for_each filter]. unfold bind at 1.
    destruct (isdigit nid) eqn:Hd; cbn [negb].
    + unfold bind at 1.
      destruct (send_command_result gw (format_cmd nid command value) silent)
        as (gw1 & Hsend & Hpm1 & Hc1 & Hb1 & _ & Hw1).
      rewrite Hsend. unfold sleep at 1.
      destruct (IH (gw_with_clock gw1 (clock gw1 + 2.5)%float)) as
        (gw' & Hrun & Hc' & Hpm' & Hb' & Hw').
      exists gw'. rewrite Hrun. cbn in Hc', Hpm', Hb', Hw'.
      repeat split; try congruence.
      rewrite Hw', Hw1, Hc1.
      destruct (connected gw); cbn [map]; now rewrite <- app_assoc.
    + unfold ret at 1. apply IH.
Qed.

Lemma upper_digit_not_A (c : ascii) :
  isdigit_ascii c = true -> Ascii.eqb (upper_ascii c) "A" = false.
Proof.
  destruct c as [[] [] [] [] [] [] [] []]; try discriminate; reflexivity.
Qed.

Lemma digits_not_ALL (node : string) :
  isdigit node = true -> String.eqb (upper node) "ALL" = false.
Proof.
  destruct node as [|c node]; [discriminate|].
  cbn [isdigit sall]. intros H. apply andb_prop in H as [Hc _].
  cbn [upper smap String.eqb]. now rewrite (upper_digit_not_A c Hc).
Qed.

Lemma expand_all_registry (gw : Gateway) :
  registry_of gw <> [] ->
  expand_all (_power_manager gw)
    = sort_by node_sort_key (dict_keys (registry_of gw)).
Proof.
  unfold registry_of, expand_all.
  destruct (_power_manager gw) as [pm|]; [|congruence].
  destruct (nodes pm); [congruence | reflexivity].
Qed.

Lemma expand_all_fallback (gw : Gateway) :
  registry_of gw = [] -> expand_all (_power_manager gw) = ["1"; "2"].
Proof.
  unfold registry_of, expand_all.
  destruct (_power_manager gw) as [pm|]; [|reflexivity].
  now intros ->.
Qed.

Lemma sort_key_of_digits (a b : string) :
  isdigit a = true -> isdigit b = true ->
  key_le node_sort_key a b -> by_numeric_id a b.
Proof.
  unfold key_le, by_numeric_id, node_sort_key. now intros -> ->.
Qed.

(** ** Strings: stripping and splitting *)
















(** ** The frame codec *)

Lemma buffer_join (buf decoded : string) :
  match buf with
  | EmptyString => decoded
  | String a s => String a s ++ decoded
  end = buf ++ decoded.
Proof. now destruct buf. Qed.

Lemma handler_final (ts data : string) (gw : Gateway) :
  startswith (strip data) "+" = false ->
  notification_handler ts data gw
  = handle_line ts (_chunk_buf gw ++ strip data) (gw_with_buf gw "").
Proof.
  intros H. unfold notification_handler. rewrite H.
  now rewrite buffer_join.
Qed.












(** ** The outcome of a nudge *)

Lemma nudge_outcome_holds (gw : Gateway) (pm : PowerManager) (nid : string)
    (ns : NodeState) (share : float) (R : list string) :
  _power_manager gw = Some pm ->
  dict_get nid (nodes pm) = Some ns ->
  upper nid <> "ALL" ->
  nudge_outcome gw pm nid ns (_nudge_node nid share R gw).
Proof.
  intros Hpm Hget Hall.
  unfold _nudge_node, with_pm. rewrite Hpm, Hget.
  unfold bind at 1, lift at 1.
  destruct (_estimate_mw_per_pct ns (dict_view R (nodes pm))) as [mw|e];
    [|reflexivity].
  unfold bind at 1, lift at 1.
  destruct (truediv share mw) as [ideal|e]; [|reflexivity].
  fold (ceiling_of ns).
  assert (Hc : 0 < ceiling_of ns).
  { unfold ceiling_of. destruct (Z.ltb_spec 0 (target_duty ns)); lia. }
  destruct (clamped_ideal_bounds (ceiling_of ns) ideal Hc) as (z & Hz & Hzb).
  unfold bind at 1, lift at 1. rewrite Hz.
  destruct (Z.eqb_spec z (effective_duty ns)) as [E1|N1].
  { cbn. split; [reflexivity|]. exists z. auto. }
  set (v := Z.max 0 (Z.min 100 z)).
  destruct (Z.eqb_spec v (effective_duty ns)) as [E2|N2].
  { cbn. split; [reflexivity|]. exists z. auto. }
  rewrite (nudge_commit gw pm nid ns v _ Hpm Hget Hall) by lia.
  cbn. exists v. repeat split; lia.
Qed.

(** ** Invariants along a method *)

Section Preserves.
Context (I : Gateway -> Prop).

Lemma preserves_ret {A : Type} (a : A) : preserves I (ret a).
Proof. now intros gw. Qed.

Lemma preserves_raise {A : Type} (e : Exc) : preserves I (@raise A e).
Proof. now intros gw. Qed.

Lemma preserves_lift {A : Type} (r : Res A) : preserves I (lift r).
Proof. now intros gw. Qed.

Lemma preserves_bind {A B : Type} (m : M A) (k : A -> M B) :
  preserves I m -> (forall a, preserves I (k a)) -> preserves I (bind m k).
Proof.
  intros Hm Hk gw HI. unfold bind. specialize (Hm gw HI).
  destruct (m gw) as [[a|e] gw1]; cbn [snd] in *.
  - now apply Hk.
  - exact Hm.
Qed.

Lemma preserves_try_finally {A : Type} (body : M A) (fin : M unit) :
  preserves I body -> preserves I fin -> preserves I (try_finally body fin).
Proof.
  intros Hb Hf gw HI. unfold try_finally. specialize (Hb gw HI).
  destruct (body gw) as [r gw1]. cbn [snd] in Hb. specialize (Hf gw1 Hb).
  destruct (fin gw1) as [[u|e] gw2]; exact Hf.
Qed.

Lemma preserves_with_pm {A : Type} (k : PowerManager -> M A) :
  (forall pm gw, _power_manager gw = Some pm -> I gw -> I (snd (k pm gw))) ->
  preserves I (with_pm k).
Proof.
  intros Hk gw HI. unfold with_pm.
  destruct (_power_manager gw) as [pm|] eqn:Hpm; [now apply Hk | exact HI].
Qed.

End Preserves.

(** ** What an adjustment can do to the registry and to the wire *)

Lemma node_ok_refl (ns : NodeState) : node_ok ns ns.
Proof. split; auto. Qed.

Lemma registry_ok_refl (d : dict NodeState) : registry_ok d d.
Proof.
  intros nid. destruct (dict_get nid d); [apply node_ok_refl | exact Logic.I].
Qed.

Lemma adjusted_start (gw : Gateway) (pm : PowerManager) :
  _power_manager gw = Some pm -> adjusted gw pm gw.
Proof.
  intros Hpm. exists pm, []. rewrite app_nil_r.
  repeat split; auto using registry_ok_refl.
Qed.

Section Adjusted.
Context (gw0 : Gateway) (pm0 : PowerManager).
Hypothesis Hkeys : no_broadcast_key pm0.

Lemma adjusted_put (gw : Gateway) (pm pm' : PowerManager) :
  adjusted gw0 pm0 gw ->
  _power_manager gw = Some pm ->
  nodes pm' = nodes pm ->
  adjusted gw0 pm0 (gw_with_pm gw (Some pm')).
Proof.
  intros (pm1 & sent & Hpm1 & Hw & Hsent & Hreg) Hpm Hn.
  assert (pm1 = pm) by congruence. subst pm1.
  exists pm', sent. cbn. rewrite Hn. auto.
Qed.

Lemma adjusted_log (o : Output) : preserves (adjusted gw0 pm0) (log o).
Proof.
  intros gw (pm & sent & Hpm & Hw & Hsent & Hreg).
  exists pm, sent. cbn. auto.
Qed.

Lemma adjusted_monotonic : preserves (adjusted gw0 pm0) monotonic.
Proof. now intros gw. Qed.

Lemma adjusted_nudge (nid : string) (share : float) (R : list string) :
  preserves (adjusted gw0 pm0) (_nudge_node nid share R).
Proof.
  intros gw HI.
  destruct HI as (pm & sent & Hpm & Hw & Hsent & Hreg).
  destruct (dict_get nid (nodes pm)) as [ns|] eqn:Hget.
  2:{ unfold _nudge_node, with_pm. rewrite Hpm, Hget. cbn.
      exists pm, sent. auto. }
  pose proof (Hreg nid) as Hnid. rewrite Hget in Hnid.
  destruct (dict_get nid (nodes pm0)) as [ns0|] eqn:Hget0; [|contradiction].
  destruct Hnid as [Htgt Hcmd].
  pose proof (nudge_outcome_holds gw pm nid ns share R Hpm Hget
                (Hkeys nid ns0 Hget0)) as Hout.
  destruct (_nudge_node nid share R gw) as [[[change|]|e] gw'];
    cbn [nudge_outcome snd] in *.
  - destruct Hout as (v & Hv & Hvc & ->).
    assert (Hbound : 0 < target_duty ns0 -> v <= target_duty ns0).
    { intros Hpos. unfold ceiling_of in Hvc. rewrite Htgt in Hvc.
      destruct (Z.ltb_spec 0 (target_duty ns0)); lia. }
    exists (pm_with_nodes pm (dict_set nid (set_commanded ns v) (nodes pm))),
      (sent ++ if connected gw
               then [format_cmd nid "DUTY" (Some (str_of_int v))]
               else [])%list.
    unfold after_nudge.
    cbn [_power_manager gw_with_clock gw_with_pm written nodes pm_with_nodes].
    rewrite after_duty_command_written, Hw, <- app_assoc.
    repeat split; auto.
    + apply Forall_app. split; [exact Hsent|].
      destruct (connected gw); [|constructor].
      constructor; [|constructor]. exists nid, ns0, v. auto.
    + intros k. destruct (String.eqb_spec nid k) as [<-|Hne].
      * rewrite Hget0, dict_get_set_same. split; [exact Htgt|].
        right. cbn [commanded_duty set_commanded]. split; [exact Hv | exact Hbound].
      * rewrite dict_get_set_other by exact Hne. apply Hreg.
  - destruct Hout as [-> _]. exists pm, sent. auto.
  - subst gw'. exists pm, sent. auto.
Qed.

Lemma adjusted_nudge_each (ids : list string) (share : float)
    (R : list string) :
  preserves (adjusted gw0 pm0) (nudge_each ids share R).
Proof.
  induction ids as [|nid ids IH]; cbn [nudge_each].
  - apply preserves_ret.
  - apply preserves_bind; [apply adjusted_nudge|]. intros change.
    apply preserves_bind; [exact IH|]. intros changes.
    apply preserves_ret.
Qed.

Lemma adjusted_total_power_of (R : list string) :
  preserves (adjusted gw0 pm0) (total_power_of R).
Proof.
  apply preserves_with_pm. intros pm gw _ HI. exact HI.
Qed.

Lemma adjusted_balance_proportional (R : list string) (budget : float) :
  preserves (adjusted gw0 pm0) (_balance_proportional R budget).
Proof.
  unfold _balance_proportional.
  apply preserves_bind; [apply preserves_lift|]. intros share.
  apply preserves_bind; [apply adjusted_nudge_each|]. intros changes.
  apply preserves_bind; [apply adjusted_total_power_of|]. intros total.
  destruct changes; [apply preserves_ret | apply adjusted_log].
Qed.

Lemma adjusted_balance_with_priority (R : list string) (budget : float) :
  preserves (adjusted gw0 pm0) (_balance_with_priority R budget).
Proof.
  unfold _balance_with_priority.
  apply preserves_with_pm. intros pm gw Hpm HI. revert gw Hpm HI.
  destruct (priority_node pm) as [pri|]; [|now intros].
  destruct (dict_get pri (dict_view R (nodes pm))) as [priority_ns|];
    [|now intros].
  intros gw _. revert gw.
  apply preserves_bind; [apply preserves_lift|]. intros total_shares.
  apply preserves_bind; [apply preserves_lift|]. intros weight.
  apply preserves_bind; [apply preserves_lift|]. intros pri_mw.
  apply preserves_bind; [apply preserves_lift|]. intros pri_max.
  apply preserves_bind.
  { destruct (filter _ R); [apply preserves_ret | apply preserves_lift]. }
  intros non_pri_share.
  apply preserves_bind; [apply adjusted_nudge|]. intros change.
  apply preserves_bind; [apply adjusted_nudge_each|]. intros changes1.
  apply preserves_bind; [apply adjusted_total_power_of|]. intros total.
  destruct (_ ++ changes1)%list; [apply preserves_ret | apply adjusted_log].
Qed.

End Adjusted.

Lemma adjusted_evaluate (gw : Gateway) (pm : PowerManager) :
  _power_manager gw = Some pm ->
  no_broadcast_key pm ->
  adjusted gw pm (snd (_evaluate_and_adjust gw)).
Proof.
  intros Hpm Hkeys.
  pose proof (adjusted_start gw pm Hpm) as Hstart.
  unfold _evaluate_and_adjust, with_pm. rewrite Hpm.
  destruct (threshold_mw pm) as [th|]; [|exact Hstart].
  destruct (_adjusting pm); [exact Hstart|].
  unfold bind at 1, monotonic at 1.
  destruct (clock gw - _last_adjustment pm <? COOLDOWN)%float; [exact Hstart|].
  destruct (filter (fun kv => responsive (snd kv)) (nodes pm)) as [|kv rest];
    [exact Hstart|].
  set (resp := kv :: rest).
  destruct (float_le_int (th - HEADROOM_MW) 0); [exact Hstart|].
  match goal with
  | |- context [if ?b then ret tt else _] => destruct b; [exact Hstart|]
  end.
  match goal with
  | |- context [if ?b then ret tt else _] => destruct b; [exact Hstart|]
  end.
  unfold bind at 1, log at 1. unfold bind at 1, put_pm at 1.
  match goal with
  | |- adjusted gw pm (snd (try_finally ?body ?fin ?gw1)) =>
      assert (H1 : adjusted gw pm gw1)
  end.
  { exists (pm_with_adjusting pm true), []. cbn. rewrite app_nil_r.
    repeat split; auto using registry_ok_refl. }
  revert H1. apply preserves_try_finally.
  - apply preserves_bind.
    + destruct (priority_node pm) as [pri|];
        [destruct (negb (String.eqb pri "") && _)|];
        auto using adjusted_balance_with_priority,
                   adjusted_balance_proportional.
    + intros _. apply preserves_bind; [apply adjusted_monotonic|].
      intros now'. apply preserves_with_pm. intros pm' gw' Hpm' HI.
      now apply adjusted_put with (pm := pm').
  - apply preserves_with_pm. intros pm' gw' Hpm' HI.
    now apply adjusted_put with (pm := pm').
Qed.

Lemma str_of_int_percent (v : Z) :
  0 <= v <= 100 -> sall isdigit_ascii (str_of_int v) = true.
Proof.
  intros Hv.
  assert (Hall : forallb (fun n => sall isdigit_ascii (str_of_int (Z.of_nat n)))
                   (seq 0 101) = true) by (vm_compute; reflexivity).
  rewrite forallb_forall in Hall.
  specialize (Hall (Z.to_nat v)). rewrite Z2Nat.id in Hall by lia.
  apply Hall. apply in_seq. lia.
Qed.

(** ** Scenarios S2 and S3 *)

(** C1, as the design document words it: the wire does not carry
    [1:DUTY:47] in scenario S2. *)
Lemma S2_expected_fails : ~ Scenario.S2_expected.
Proof.
  unfold Scenario.S2_expected. vm_compute. discriminate.
Qed.

(** C1 (amended): in scenario S2 one adjustment cycle computes the shares
    3500*(2/3) for node 1 and the remainder for node 2, truncates the ideal
    duties 46.67 and 23.33 and writes exactly [1:DUTY:46] then
    [2:DUTY:23]; both commanded duties are updated accordingly. *)
Theorem S2_priority_adjustment :
  let '(r, gw) := _evaluate_and_adjust Scenario.S2 in
  r = Ok tt
  /\ written gw = ["1:DUTY:46"; "2:DUTY:23"]
  /\ out gw =
       [LogAdjusting 10000 3500 ["1"; "2"];
        LogBalancing 10000 3500
          [(3500 * (2 / 3))%float; ((3500 - 3500 * (2 / 3)) / 1)%float]
          ["N1:100->46%(pri)"; "N2:100->23%"]]
  /\ commanded_of gw "1" = Some 46
  /\ commanded_of gw "2" = Some 23.
Proof.
  vm_compute. repeat split.
Qed.



(** ** The mW-per-percent estimate *)

(** C9: the estimate is not always positive.  A reading of 5e-324 mW at
    duty 2 is accepted by the frame codec and stored; for that node the
    estimator passes both of its guards and returns the underflowed
    quotient [0.0], on which the nudge and with it the whole adjustment
    raise [ZeroDivisionError].  The same happens end to end: the reading,
    then the operator's [duty 50] and [threshold 4000], then the first
    evaluation. *)
Theorem estimate_underflows_to_zero :
  feed "12:00:00" [Scenario.tiny_reading] Scenario.idle
    = ([Ok (Telemetry "1" 2 12 0 Scenario.tiny)],
       mkGateway true ""
         (Some (mkPowerManager [("1", Scenario.tiny_node)] None None false
                  0%float 0 false false))
         false false false []
         [Log ("[12:00:00] NODE1 >> " ++ skip 11 Scenario.tiny_reading)]
         300%float)
  /\ (0 <? effective_duty Scenario.tiny_node)%Z = true
  /\ float_gt_int (power Scenario.tiny_node) 0 = true
  /\ _estimate_mw_per_pct Scenario.tiny_node [("1", Scenario.tiny_node)]
       = Ok 0%float
  /\ _nudge_node "1" 3500 ["1"] Scenario.tiny_gateway
       = (Raise ZeroDivisionError, Scenario.tiny_gateway)
  /\ fst (_evaluate_and_adjust Scenario.tiny_gateway)
       = Raise ZeroDivisionError
  /\ written (snd (_evaluate_and_adjust Scenario.tiny_gateway)) = []
  /\ (let gw1 := snd (feed "12:00:00" [Scenario.tiny_reading] Scenario.idle) in
      let gw2 := snd (set_duty "1" 50 false false gw1) in
      let gw3 := snd (set_threshold 4000 gw2) in
      written gw3 = ["1:DUTY:50"]
      /\ fst (_evaluate_and_adjust gw3) = Raise ZeroDivisionError
      /\ written (snd (_evaluate_and_adjust gw3)) = ["1:DUTY:50"]).
Proof.
  vm_compute. repeat split.
Qed.

(** ** Scanning *)

(** C7: a scan for the address [AA:BB:CC:DD:EE:FF] returns a device with
    another address, and a scan without an address returns a device whose
    name does not begin with either prefix and which advertises no service
    UUID: the name test is a substring test and is not skipped when an
    address is given. *)
Theorem scan_returns_stranger :
  fst (scan_for_nodes Scenario.discovered (Some Scenario.wanted_address)
         Scenario.idle) = Ok [Scenario.stranger]
  /\ fst (scan_for_nodes Scenario.discovered None Scenario.idle)
       = Ok [Scenario.stranger]
  /\ String.eqb (upper (address Scenario.stranger))
       (upper Scenario.wanted_address) = false
  /\ existsb (fun p => startswith "Not-A-Mesh-Gateway" p)
       DEVICE_NAME_PREFIXES = false
  /\ service_uuids (mkAdv []) = [].
Proof.
  vm_compute. repeat split.
Qed.

(** ** Evaluate-and-adjust holds back *)

(** C6: when the responsive set is empty, or less than the cooldown has
    elapsed since the last adjustment, or the budget is not positive, or the
    total lies inside the 5 % deadband, or every responsive node is at or
    above its target (or has none) while the total is within budget, an
    evaluation returns normally and leaves the whole state as it was: no
    command is written, no node state and no power-manager field changes. *)
Theorem evaluate_holds_back (gw : Gateway) (pm : PowerManager) :
  _power_manager gw = Some pm ->
  holds_back gw pm ->
  _evaluate_and_adjust gw = (Ok tt, gw).
Proof.
  intros Hpm Hb.
  unfold _evaluate_and_adjust, with_pm. rewrite Hpm.
  destruct (threshold_mw pm) as [th|] eqn:Hth; [|reflexivity].
  destruct (_adjusting pm); [reflexivity|].
  unfold bind at 1, monotonic at 1.
  destruct (clock gw - _last_adjustment pm <? COOLDOWN)%float eqn:Hcool;
    [reflexivity|].
  fold (responsive_nodes pm).
  destruct (responsive_nodes pm) as [|kv rest] eqn:HR; [reflexivity|].
  rewrite <- HR. fold (budget_of th). fold (total_power pm).
  fold (all_at_target pm).
  destruct (float_le_int (budget_of th) 0) eqn:Hbud; [reflexivity|].
  destruct (abs (total_power pm - budget_of th) <? budget_of th * 0.05)%float
    eqn:Hdead; [reflexivity|].
  destruct (all_at_target pm && (total_power pm <=? budget_of th)%float)
    eqn:Hat; [reflexivity|].
  exfalso.
  destruct Hb as [He | Hc | th' Ht Hb' | th' Ht Hd | th' Ht Ha Hl].
  - rewrite He in HR. discriminate.
  - rewrite Hc in Hcool. discriminate.
  - assert (th' = th) by congruence. subst. rewrite Hb' in Hbud. discriminate.
  - assert (th' = th) by congruence. subst. rewrite Hd in Hdead. discriminate.
  - assert (th' = th) by congruence. subst.
    rewrite Ha, Hl in Hat. discriminate.
Qed.

(** Scenario S4: budget 3500 mW, total 3450 mW, nothing is written. *)
Lemma evaluate_holds_back_S4 :
  (abs (3450 - 3500) <? 3500 * 0.05)%float = true
  /\ _evaluate_and_adjust Scenario.S4 = (Ok tt, Scenario.S4)
  /\ written Scenario.S4 = [].
Proof.
  split; [reflexivity|]. split; [|reflexivity].
  eapply evaluate_holds_back; [reflexivity|].
  eapply HB_deadband; [reflexivity|].
  vm_compute. reflexivity.
Defined.

(** ** The nudge never exceeds the target *)



(** X20: a whole adjustment, whatever policy it applies and whether or not
    it completes: everything it writes is a DUTY command for a node of the
    registry, with a value in [0,100] that does not exceed that node's
    positive target; every target is left as it was, and every commanded
    duty is the old one or lies within the target. *)
Corollary adjustment_within_targets (gw : Gateway) (pm : PowerManager) :
  _power_manager gw = Some pm ->
  no_broadcast_key pm ->
  let gw' := snd (_evaluate_and_adjust gw) in
  exists sent,
    written gw' = (written gw ++ sent)%list
    /\ Forall (duty_command_ok pm) sent
    /\ registry_ok (nodes pm) (registry_of gw').
Proof.
  intros Hpm Hkeys gw'.
  destruct (adjusted_evaluate gw pm Hpm Hkeys)
    as (pm' & sent & Hpm' & Hw & Hsent & Hreg).
  exists sent. unfold registry_of. subst gw'. rewrite Hpm'. auto.
Qed.

(** X21: with digit-string keys, as the frame codec and the operator
    commands create them, nothing an adjustment writes contains [ALL]. *)
Corollary adjustment_writes_no_ALL (gw : Gateway) (pm : PowerManager) :
  _power_manager gw = Some pm ->
  (forall nid ns, dict_get nid (nodes pm) = Some ns -> isdigit nid = true) ->
  exists sent,
    written (snd (_evaluate_and_adjust gw)) = (written gw ++ sent)%list
    /\ Forall no_ALL sent.
Proof.
  intros Hpm Hdigits.
  assert (Hkeys : no_broadcast_key pm).
  { intros nid ns Hget. apply String.eqb_neq, digits_not_ALL.
    now apply (Hdigits nid ns). }
  destruct (adjusted_evaluate gw pm Hpm Hkeys)
    as (pm' & sent & _ & Hw & Hsent & _).
  exists sent. split; [exact Hw|].
  eapply Forall_impl; [|exact Hsent].
  intros w (nid & ns & v & Hget & -> & Hv & _).
  apply format_cmd_no_ALL.
  - now apply (Hdigits nid ns).
  - unfold VERBS. cbn. auto.
  - cbn. now apply str_of_int_percent.
Qed.

(** ** Setting a target *)



(** ** Broadcast expansion *)

(** C3, second half as the design document words it: the operator's [raw]
    command hands its text to the command characteristic unchanged, so
    [raw all:read] puts [ALL:READ] on the wire. *)
Lemma raw_command_writes_ALL : ~ never_writes_ALL.
Proof.
  intros H.
  specialize (H "1" (CmdRaw "all:read") Scenario.idle (Forall_nil _)).
  vm_compute in H. inversion H as [|w ws Hw _]. discriminate Hw.
Qed.

(** C3 (amended): a call of [send_to_node] for a node that is ALL, in any
    letter case, or a digit string, with a verb of the wire grammar and a
    decimal or absent value, writes no command that contains [ALL]; when
    the node is ALL and the link is connected it writes one command per
    digit-identified registry entry, in ascending numeric order, or one
    command each for ids 1 and 2 when the registry is empty or absent. *)
Theorem broadcast_expansion (gw : Gateway) (node command : string)
    (value : option string) (silent : bool) :
  upper node = "ALL" \/ isdigit node = true ->
  let ids := filter isdigit (expand_all (_power_manager gw)) in
  let '(r, gw') := send_to_node node command value silent gw in
  exists sent,
    written gw' = (written gw ++ sent)%list
    /\ (In command VERBS -> decimal_value value -> Forall no_ALL sent)
    /\ (upper node = "ALL" -> connected gw = true ->
        r = Ok true
        /\ sent = map (fun nid => format_cmd nid command value) ids
        /\ (registry_of gw <> [] ->
            Permutation ids (filter isdigit (dict_keys (registry_of gw)))
            /\ StronglySorted by_numeric_id ids)
        /\ (registry_of gw = [] -> ids = ["1"; "2"])).
Proof.
  intros Hnode ids.
  unfold send_to_node.
  destruct (String.eqb_spec (upper node) "ALL") as [Hall|Hall].
  - unfold bind at 1.
    destruct (broadcast_loop command value silent
                (expand_all (_power_manager gw)) gw)
      as (gw' & Hrun & _ & _ & _ & Hw).
    rewrite Hrun. unfold ret. fold ids in Hw.
    exists (if connected gw
            then map (fun nid => format_cmd nid command value) ids
            else []).
    split; [exact Hw|]. split.
    + intros Hverb Hval. destruct (connected gw); [|constructor].
      apply Forall_forall.
      intros w Hw'. apply in_map_iff in Hw' as (nid & <- & Hin).
      apply filter_In in Hin as [_ Hd].
      now apply format_cmd_no_ALL.
    + intros _ Hconn. rewrite Hconn.
      split; [reflexivity|]. split; [reflexivity|]. split.
      * intros Hne. subst ids. rewrite (expand_all_registry gw Hne). split.
        -- apply Permutation_filter, sort_by_perm.
        -- apply StronglySorted_within
             with (P := fun a => isdigit a = true) (R := key_le node_sort_key).
           ++ exact sort_key_of_digits.
           ++ apply Forall_forall. intros a Ha. now apply filter_In in Ha.
           ++ apply StronglySorted_filter, sort_by_sorted.
      * intros He. subst ids. now rewrite (expand_all_fallback gw He).
  - destruct Hnode as [Hn|Hd]; [contradiction|].
    destruct (send_command_result gw (format_cmd node command value) silent)
      as (gw' & Hsend & _ & _ & _ & _ & Hw).
    rewrite Hsend.
    exists (if connected gw then [format_cmd node command value] else []).
    split; [exact Hw|]. split.
    + intros Hverb Hval. destruct (connected gw); [|constructor].
      constructor; [|constructor]. now apply format_cmd_no_ALL.
    + intros Habs. contradiction.
Qed.

(** A broadcast [DUTY:40] over a registry holding nodes 10, 2 and 1. *)
Lemma broadcast_expansion_three_nodes :
  (upper "all" = "ALL" \/ isdigit "all" = true)
  /\ connected three_nodes = true
  /\ written (snd (send_to_node "all" "DUTY" (Some "40") false three_nodes))
     = ["1:DUTY:40"; "2:DUTY:40"; "10:DUTY:40"].
Proof.
  split; [left; reflexivity|]. split; [reflexivity|].
  pose proof (broadcast_expansion three_nodes "all" "DUTY" (Some "40") false
                (or_introl eq_refl)) as H.
  cbv zeta in H.
  destruct (send_to_node "all" "DUTY" (Some "40") false three_nodes)
    as [r gw'].
  destruct H as (sent & Hw & _ & Hexp).
  destruct (Hexp eq_refl eq_refl) as (_ & Hsent & _).
  cbn [snd]. rewrite Hw, Hsent. reflexivity.
Defined.

(** ** Telemetry lines that do not parse *)



(** ** Chunk reassembly *)




(* ================================================================== *)
(** * Further properties of the gateway and of the power manager       *)
(* ================================================================== *)

(** ** The command path *)

Lemma same_link_refl (gw : Gateway) : same_link gw gw.
Proof. repeat split. Qed.

Lemma same_link_trans (a b c : Gateway) :
  same_link a b -> same_link b c -> same_link a c.
Proof.
  intros (H1 & H2 & H3) (H4 & H5 & H6). repeat split; congruence.
Qed.

(** [send_to_node] never raises and never touches the power manager; its
    result is [True] for a broadcast and the state of the link otherwise. *)
Lemma send_to_node_result (node command : string) (value : option string)
    (silent : bool) (gw : Gateway) :
  exists gw' sent,
    send_to_node node command value silent gw
      = (Ok (if String.eqb (upper node) "ALL" then true else connected gw),
         gw')
    /\ same_link gw gw'
    /\ written gw' = (written gw ++ sent)%list
    /\ sent = (if connected gw
               then if String.eqb (upper node) "ALL"
                    then map (fun nid => format_cmd nid command value)
                           (filter isdigit (expand_all (_power_manager gw)))
                    else [format_cmd node command value]
               else []).
Proof.
  unfold send_to_node.
  destruct (String.eqb (upper node) "ALL").
  - unfold bind at 1.
    destruct (broadcast_loop command value silent
                (expand_all (_power_manager gw)) gw)
      as (gw' & Hrun & Hc & Hpm & Hb & Hw).
    rewrite Hrun. unfold ret.
    eexists gw', _. split; [reflexivity|].
    split; [repeat split; assumption|].
    split; [exact Hw|]. reflexivity.
  - destruct (send_command_result gw (format_cmd node command value) silent)
      as (gw' & Hsend & Hpm & Hc & Hb & _ & Hw).
    rewrite Hsend.
    eexists gw', _. split; [reflexivity|].
    split; [repeat split; assumption|].
    split; [exact Hw|]. reflexivity.
Qed.

Lemma send_to_node_no_ALL (node command : string) (value : option string)
    (silent : bool) (gw : Gateway) :
  upper node = "ALL" \/ isdigit node = true ->
  In command VERBS ->
  decimal_value value ->
  Forall no_ALL (written gw) ->
  Forall no_ALL (written (snd (send_to_node node command value silent gw))).
Proof.
  intros Hnode Hverb Hval Hold.
  destruct (send_to_node_result node command value silent gw)
    as (gw' & sent & Hrun & _ & Hw & Hsent).
  rewrite Hrun. cbn [snd]. rewrite Hw.
  apply Forall_app. split; [exact Hold|].
  subst sent. destruct (connected gw); [|constructor].
  destruct (String.eqb_spec (upper node) "ALL") as [Hall|Hall].
  - apply Forall_forall. intros w Hin.
    apply in_map_iff in Hin as (nid & <- & Hin).
    apply filter_In in Hin as [_ Hd].
    now apply format_cmd_no_ALL.
  - destruct Hnode as [Hn|Hd]; [contradiction|].
    constructor; [|constructor]. now apply format_cmd_no_ALL.
Qed.

(** Recording one target after another: the link is left alone and every
    named entry, created when missing, carries the target. *)
Lemma for_each_set_target_duty (p : Z) (ks : list string) :
  forall (gw : Gateway) (pm : PowerManager),
    _power_manager gw = Some pm ->
    exists d',
      for_each ks (fun nid => set_target_duty nid p) gw
        = (Ok tt, gw_with_pm gw (Some (pm_with_nodes pm d')))
      /\ forall k,
           dict_get k d'
           = if existsb (String.eqb k) ks
             then Some (set_target
                          (match dict_get k (nodes pm) with
                           | Some ns => ns
                           | None => NodeState_new k (clock gw)
                           end) p)
             else dict_get k (nodes pm).
Proof.
  induction ks as [|nid ks IH]; intros gw pm Hpm.
  - exists (nodes pm). split.
    + cbn [for_each]. unfold ret. f_equal.
      destruct gw, pm. cbn in *. now subst.
    + reflexivity.
  - cbn [for_each]. unfold bind at 1.
    destruct (set_target_duty_result gw pm nid p Hpm)
      as (nodes1 & Hrun & Hsame & Hother).
    rewrite Hrun.
    destruct (IH (gw_with_pm gw (Some (pm_with_nodes pm nodes1)))
                (pm_with_nodes pm nodes1) eq_refl)
      as (d' & Hloop & Hget).
    exists d'. split; [rewrite Hloop; reflexivity|].
    intros k. rewrite Hget. cbn [existsb nodes pm_with_nodes clock gw_with_pm].
    destruct (String.eqb_spec k nid) as [->|Hne]; cbn [orb].
    + rewrite Hsame.
      destruct (existsb (String.eqb nid) ks); reflexivity.
    + rewrite (Hother k) by congruence. reflexivity.
Qed.

(** [set_duty] is its bookkeeping followed by one [send_to_node]: the
    bookkeeping leaves everything but the registry alone. *)
Lemma set_duty_split (node : string) (percent : Z) (from_pm silent : bool)
    (gw : Gateway) :
  exists gw1,
    set_duty node percent from_pm silent gw
      = send_to_node node "DUTY" (Some (str_of_int (clamp_percent percent)))
          silent gw1
    /\ connected gw1 = connected gw
    /\ _chunk_buf gw1 = _chunk_buf gw
    /\ written gw1 = written gw
    /\ out gw1 = out gw
    /\ clock gw1 = clock gw
    /\ match _power_manager gw with
       | None => gw1 = gw
       | Some pm =>
           if from_pm then gw1 = gw
           else
             exists d',
               gw1 = gw_with_pm gw (Some (pm_with_nodes pm d'))
               /\ forall k,
                    dict_get k d'
                    = if existsb (String.eqb k)
                           (if String.eqb (upper node) "ALL"
                            then match nodes pm with
                                 | [] => ["1"; "2"]
                                 | _ => dict_keys (nodes pm)
                                 end
                            else [node])
                      then Some (set_target
                                   (match dict_get k (nodes pm) with
                                    | Some ns => ns
                                    | None => NodeState_new k (clock gw)
                                    end) (clamp_percent percent))
                      else dict_get k (nodes pm)
       end.
Proof.
  unfold set_duty, clamp_percent. unfold bind at 1.
  destruct (_power_manager gw) as [pm|] eqn:Hpm.
  - destruct from_pm; cbn [negb].
    + exists gw. repeat split; reflexivity.
    + set (p := Z.max 0 (Z.min 100 percent)).
      set (ks := if String.eqb (upper node) "ALL"
                 then match nodes pm with
                      | [] => ["1"; "2"]
                      | _ => dict_keys (nodes pm)
                      end
                 else [node]).
      destruct (for_each_set_target_duty p ks gw pm Hpm) as (d' & Hloop & Hget).
      assert (Hrun :
        (if String.eqb (upper node) "ALL"
         then match nodes pm with
              | [] => for_each ["1"; "2"] (fun nid => set_target_duty nid p) gw
              | _ :: _ => for_each (dict_keys (nodes pm))
                            (fun nid => set_target_duty nid p) gw
              end
         else set_target_duty node p gw)
        = (Ok tt, gw_with_pm gw (Some (pm_with_nodes pm d')))).
      { rewrite <- Hloop. subst ks.
        destruct (String.eqb (upper node) "ALL").
        - destruct (nodes pm); reflexivity.
        - cbn [for_each]. unfold bind, ret.
          destruct (set_target_duty node p gw) as [[[]|e] g]; reflexivity. }
      rewrite Hrun.
      exists (gw_with_pm gw (Some (pm_with_nodes pm d'))).
      repeat split; try reflexivity.
      exists d'. split; [reflexivity|exact Hget].
  - exists gw. repeat split; reflexivity.
Qed.

(** ** Dictionaries *)

Lemma dict_get_in_keys {V : Type} (k : string) (v : V) (d : dict V) :
  dict_get k d = Some v -> In k (dict_keys d).
Proof.
  induction d as [|[k' v'] d IH]; cbn; [discriminate|].
  destruct (String.eqb_spec k k') as [->|Hne]; intros H; auto.
Qed.

Lemma in_keys_dict_get {V : Type} (k : string) (d : dict V) :
  In k (dict_keys d) -> exists v, dict_get k d = Some v.
Proof.
  induction d as [|[k' v'] d IH]; cbn; [contradiction|].
  destruct (String.eqb_spec k k') as [->|Hne]; intros H; eauto.
  destruct H as [->|H]; [contradiction|auto].
Qed.

Lemma existsb_eqb_in (k : string) (ks : list string) :
  existsb (String.eqb k) ks = true <-> In k ks.
Proof.
  rewrite existsb_exists. split.
  - intros (x & Hin & Heq). apply String.eqb_eq in Heq. now subst.
  - intros Hin. exists k. split; [exact Hin|apply String.eqb_refl].
Qed.

Lemma dict_keys_set {V : Type} (k : string) (v v' : V) (d : dict V) :
  dict_get k d = Some v' -> dict_keys (dict_set k v d) = dict_keys d.
Proof.
  induction d as [|[k' w] d IH]; cbn; [discriminate|].
  destruct (String.eqb_spec k k') as [->|Hne]; cbn; intros H.
  - reflexivity.
  - f_equal. auto.
Qed.

Lemma dict_set_same {V : Type} (k : string) (v : V) (d : dict V) :
  dict_get k d = Some v -> dict_set k v d = d.
Proof.
  induction d as [|[k' w] d IH]; cbn; [discriminate|].
  destruct (String.eqb_spec k k') as [->|Hne]; intros H.
  - congruence.
  - f_equal. auto.
Qed.

Lemma dict_get_nodup {V : Type} (k : string) (v : V) (d : dict V) :
  NoDup (dict_keys d) -> In (k, v) d -> dict_get k d = Some v.
Proof.
  induction d as [|[k' w] d IH]; cbn; [contradiction|].
  intros Hnd [Heq|Hin].
  - injection Heq as -> ->. now rewrite String.eqb_refl.
  - inversion Hnd as [|? ? Hnot Hnd']; subst.
    destruct (String.eqb_spec k k') as [->|Hne].
    + exfalso. apply Hnot. change (In (fst (k', v)) (map fst d)).
      now apply in_map.
    + auto.
Qed.

(** ** Which nodes the operator can address *)

Lemma lower_digit (c : ascii) : isdigit_ascii c = true -> lower_ascii c = c.
Proof.
  destruct c as [[] [] [] [] [] [] [] []]; try discriminate; reflexivity.
Qed.

Lemma lower_digits (s : string) : sall isdigit_ascii s = true -> lower s = s.
Proof.
  unfold lower. induction s as [|c s IH]; cbn [smap sall]; intros H.
  - reflexivity.
  - apply andb_prop in H as [Hc Hs]. now rewrite lower_digit, IH.
Qed.

Lemma select_node_sound (arg t : string) :
  select_node arg = Some t ->
  t = "ALL" \/ (isdigit t = true /\ 0 <= int_of_digits t <= 9).
Proof.
  unfold select_node. intros H.
  destruct (String.eqb (upper (strip arg)) "ALL").
  - injection H as <-. now left.
  - destruct (isdigit (upper (strip arg))) eqn:Hd; [|discriminate].
    destruct (0 <=? int_of_digits (upper (strip arg)))%Z eqn:H0;
      [|discriminate].
    destruct (int_of_digits (upper (strip arg)) <=? 9)%Z eqn:H9;
      [|discriminate].
    cbn in H. injection H as <-.
    rewrite lower_digits by now apply isdigit_sall.
    right. split; [exact Hd|]. split; lia.
Qed.

Lemma main_node_sound (arg t : string) :
  main_node arg = Some t ->
  t = "ALL" \/ (isdigit t = true /\ 0 <= int_of_digits t <= 9).
Proof.
  unfold main_node. intros H.
  destruct (String.eqb_spec (upper arg) "ALL") as [Hall|Hall]; cbn in H.
  - injection H as <-. now left.
  - destruct (isdigit arg) eqn:Hd; [|discriminate].
    destruct (0 <=? int_of_digits arg)%Z eqn:H0; [|discriminate].
    destruct (int_of_digits arg <=? 9)%Z eqn:H9; [|discriminate].
    cbn in H. injection H as <-.
    right. split; [exact Hd|]. split; lia.
Qed.

Lemma accepted_target_cases (t : string) :
  accepted_target t -> upper t = "ALL" \/ isdigit t = true.
Proof.
  intros (arg & [H|H]).
  - destruct (select_node_sound arg t H) as [->|[Hd _]]; auto.
  - destruct (main_node_sound arg t H) as [->|[Hd _]]; auto.
Qed.

(** ** Sensor readings *)

Lemma on_sensor_data_result (gw : Gateway) (pm : PowerManager)
    (nid : string) (d : Z) (v i p : float) :
  _power_manager gw = Some pm ->
  exists nodes',
    on_sensor_data nid d v i p gw
      = (Ok tt, gw_with_pm gw (Some (pm_with_nodes pm nodes')))
    /\ dict_get nid nodes'
       = Some (with_reading pm (clock gw) d v i p
                 (entry_or_new nid (nodes pm) (clock gw)))
    /\ forall k, k <> nid -> dict_get k nodes' = dict_get k (nodes pm).
Proof.
  intros Hpm.
  unfold on_sensor_data, with_pm. rewrite Hpm.
  unfold bind at 1, monotonic at 1.
  unfold bind at 1, put_pm at 1, update_node, with_pm.
  cbn [_power_manager gw_with_pm nodes pm_with_nodes].
  unfold dict_mem, entry_or_new.
  destruct (dict_get nid (nodes pm)) as [ns|] eqn:Hget.
  - rewrite Hget. unfold put_pm. cbn.
    eexists. split; [reflexivity|]. split.
    + apply dict_get_set_same.
    + intros k Hk. apply dict_get_set_other. congruence.
  - rewrite dict_get_set_same. unfold put_pm. cbn.
    eexists. split; [reflexivity|]. split.
    + apply dict_get_set_same.
    + intros k Hk. rewrite !dict_get_set_other by congruence. reflexivity.
Qed.

(** What [handle_line] can do to the state: add output, after at most one
    call of [on_sensor_data]. *)
Lemma handle_line_state (ts decoded : string) (gw : Gateway) :
  exists o,
    snd (handle_line ts decoded gw) = gw_with_out gw o
    \/ exists pm nid d v i p,
         _power_manager gw = Some pm
         /\ snd (handle_line ts decoded gw)
            = gw_with_out (snd (on_sensor_data nid d v i p gw)) o.
Proof.
  assert (Hsame : gw = gw_with_out gw (out gw)) by now destruct gw.
  destruct (handle_line ts decoded gw) as [r g] eqn:Hrun. cbn [snd].
  revert Hrun. unfold handle_line.
  destruct (split_once ":DATA:" decoded) as [[tag payload]|].
  - destruct (SENSOR_RE_match payload) as [[[[g1 g2] g3] g4]|];
      [destruct (NODE_ID_RE_match tag) as [nid|]|].
    + unfold bind at 1, lift at 1.
      destruct (float_of_decimal g2) as [v|e]; [|intros [= <- <-]; eauto].
      unfold bind at 1, lift at 1.
      destruct (float_of_decimal g3) as [i|e]; [|intros [= <- <-]; eauto].
      unfold bind at 1, lift at 1.
      destruct (float_of_decimal g4) as [p|e]; [|intros [= <- <-]; eauto].
      unfold bind at 1.
      destruct (_power_manager gw) as [pm|] eqn:Hpm.
      * destruct (on_sensor_data_result gw pm nid (int_of_digits g1) v i p Hpm)
          as (nodes' & Hsd & _).
        rewrite Hsd.
        destruct (tui gw); cbv [bind log ret]; intros [= <- <-];
          eexists; right; exists pm, nid, (int_of_digits g1), v, i, p;
          (split; [reflexivity|]); rewrite Hsd; reflexivity.
      * destruct (tui gw); cbv [bind log ret]; intros [= <- <-];
          eexists; left; reflexivity.
    + cbv [bind log ret]. intros [= <- <-]. eexists; left; reflexivity.
    + cbv [bind log ret]. intros [= <- <-]. eexists; left; reflexivity.
  - repeat match goal with
           | |- context [if ?b then _ else _] => destruct b
           end;
      cbv [bind log ret]; intros [= <- <-]; eexists; left;
      solve [reflexivity | exact Hsame].
Qed.

Lemma reading_only_refl (pm : PowerManager) (ns : NodeState) :
  reading_only pm ns ns.
Proof. repeat split. Qed.

(** ** Reading a telemetry line *)
















(** ** Loops over the registry *)

Lemma for_each_identity {A : Type} (body : A -> M unit) (xs : list A)
    (gw : Gateway) :
  (forall x, In x xs -> body x gw = (Ok tt, gw)) ->
  for_each xs body gw = (Ok tt, gw).
Proof.
  induction xs as [|x xs IH]; intros H; [reflexivity|].
  cbn [for_each]. unfold bind. rewrite (H x) by now left.
  apply IH. intros y Hy. apply H. now right.
Qed.

Lemma gw_with_pm_same (gw : Gateway) (pm : PowerManager) :
  _power_manager gw = Some pm ->
  gw_with_pm gw (Some (pm_with_nodes pm (nodes pm))) = gw.
Proof. destruct gw, pm. cbn. now intros ->. Qed.

Lemma set_responsive_same (ns : NodeState) :
  set_responsive ns (responsive ns) = ns.
Proof. now destruct ns. Qed.

Lemma swept_stale (now : float) (ns : NodeState) :
  stale now ns = true -> swept now ns = set_responsive ns false.
Proof. unfold swept. intros ->. now rewrite andb_false_r. Qed.

Lemma swept_fresh (now : float) (ns : NodeState) :
  stale now ns = false -> swept now ns = ns.
Proof.
  unfold swept. intros ->. cbn [negb]. rewrite andb_true_r.
  apply set_responsive_same.
Qed.

Lemma swept_idem (now : float) (ns : NodeState) :
  swept now (swept now ns) = swept now ns.
Proof.
  unfold swept, stale, set_responsive. cbn.
  now destruct (responsive ns), (isdigit (node_id ns) && _).
Qed.

(** One pass of the loop of [_mark_stale_nodes]. *)
Lemma mark_stale_step (now : float) (k : string) (gw : Gateway)
    (pm : PowerManager) (ns : NodeState) :
  _power_manager gw = Some pm ->
  dict_get k (nodes pm) = Some ns ->
  exists d1 extra,
    mark_stale now k gw
      = (Ok tt,
         gw_with_out (gw_with_pm gw (Some (pm_with_nodes pm d1)))
           (out gw ++ extra))
    /\ dict_keys d1 = dict_keys (nodes pm)
    /\ (forall k', dict_get k' d1
                   = if String.eqb k' k then Some (swept now ns)
                     else dict_get k' (nodes pm))
    /\ (swept now ns = ns -> extra = []).
Proof.
  intros Hpm Hget.
  assert (Hid : (Ok tt, gw)
                = (Ok tt,
                   gw_with_out
                     (gw_with_pm gw (Some (pm_with_nodes pm (nodes pm))))
                     (out gw ++ []))).
  { rewrite gw_with_pm_same by assumption. rewrite app_nil_r.
    now destruct gw. }
  assert (Hlook : forall k', dict_get k' (nodes pm)
                             = if String.eqb k' k then Some ns
                               else dict_get k' (nodes pm)).
  { intros k'. destruct (String.eqb_spec k' k) as [->|]; auto. }
  unfold mark_stale, with_pm. rewrite Hpm, Hget.
  destruct (stale now ns) eqn:Hst.
  - unfold stale in Hst. apply andb_prop in Hst as [Hd Hage].
    rewrite Hd, Hage. cbn [negb].
    assert (Hsw : swept now ns = set_responsive ns false).
    { apply swept_stale. unfold stale. now rewrite Hd, Hage. }
    exists (dict_set k (set_responsive ns false) (nodes pm)).
    exists (if responsive ns
            then [Log ("[POWER] Node " ++ node_id ns ++ " unresponsive ("
                       ++ format_0f (now - last_seen ns) ++ "s)")]
            else []).
    split; [|split; [|split]].
    + unfold bind, update_node, with_pm, put_pm.
      destruct (responsive ns); cbv [log ret];
        cbn [_power_manager gw_with_out]; rewrite Hpm, Hget;
        [reflexivity|].
      rewrite app_nil_r. now destruct gw.
    + eapply dict_keys_set; eassumption.
    + intros k'. rewrite Hsw.
      destruct (String.eqb_spec k' k) as [->|Hne].
      * apply dict_get_set_same.
      * apply dict_get_set_other. congruence.
    + rewrite Hsw. intros Hfix.
      assert (Hr : responsive ns = false).
      { rewrite <- Hfix. reflexivity. }
      now rewrite Hr.
  - exists (nodes pm), [].
    assert (Hsw : swept now ns = ns) by now apply swept_fresh.
    rewrite Hsw. split; [|split; [reflexivity|split; [exact Hlook|reflexivity]]].
    unfold stale in Hst.
    destruct (isdigit (node_id ns)); cbn [negb andb] in *;
      [rewrite Hst|]; exact Hid.
Qed.

Lemma mark_stale_loop (now : float) (ks : list string) :
  forall (gw : Gateway) (pm : PowerManager),
    _power_manager gw = Some pm ->
    (forall k, In k ks -> In k (dict_keys (nodes pm))) ->
    exists d' extra,
      for_each ks (mark_stale now) gw
        = (Ok tt,
           gw_with_out (gw_with_pm gw (Some (pm_with_nodes pm d')))
             (out gw ++ extra))
      /\ dict_keys d' = dict_keys (nodes pm)
      /\ (forall k,
            dict_get k d'
            = if existsb (String.eqb k) ks
              then option_map (swept now) (dict_get k (nodes pm))
              else dict_get k (nodes pm))
      /\ ((forall k ns, In k ks -> dict_get k (nodes pm) = Some ns ->
                        swept now ns = ns) -> extra = []).
Proof.
  induction ks as [|k ks IH]; intros gw pm Hpm Hin.
  - exists (nodes pm), []. split; [|split; [|split]]; try reflexivity.
    cbn [for_each]. unfold ret.
    rewrite gw_with_pm_same by assumption. rewrite app_nil_r.
    now destruct gw.
  - destruct (in_keys_dict_get k (nodes pm) (Hin k (or_introl eq_refl)))
      as (ns & Hget).
    destruct (mark_stale_step now k gw pm ns Hpm Hget)
      as (d1 & extra1 & Hstep & Hkeys1 & Hget1 & Hquiet1).
    cbn [for_each]. unfold bind at 1. rewrite Hstep.
    destruct (IH (gw_with_out (gw_with_pm gw (Some (pm_with_nodes pm d1)))
                    (out gw ++ extra1))
                (pm_with_nodes pm d1) eq_refl)
      as (d' & extra & Hloop & Hkeys & Hget' & Hquiet).
    { intros k' Hk'. cbn [nodes pm_with_nodes]. rewrite Hkeys1.
      apply Hin. now right. }
    exists d', (extra1 ++ extra)%list.
    split; [|split; [|split]].
    + rewrite Hloop. cbn. now rewrite app_assoc.
    + rewrite Hkeys. cbn [nodes pm_with_nodes]. exact Hkeys1.
    + intros k'. rewrite Hget'. cbn [nodes pm_with_nodes existsb].
      rewrite Hget1.
      destruct (String.eqb_spec k' k) as [->|Hne]; cbn [orb].
      * rewrite Hget. cbn [option_map]. rewrite swept_idem.
        now destruct (existsb (String.eqb k) ks).
      * reflexivity.
    + intros Hall.
      rewrite Hquiet1 by (apply (Hall k ns); [now left|exact Hget]).
      rewrite Hquiet; [reflexivity|].
      intros k' ns' Hk' Hg'. cbn [nodes pm_with_nodes] in Hg'.
      rewrite Hget1 in Hg'.
      destruct (String.eqb_spec k' k) as [->|Hne].
      * injection Hg' as <-. apply swept_idem.
      * apply (Hall k' ns'); [now right|exact Hg'].
Qed.

Lemma mark_stale_settled (now : float) (k : string) (gw : Gateway)
    (pm : PowerManager) (ns : NodeState) :
  _power_manager gw = Some pm ->
  dict_get k (nodes pm) = Some ns ->
  swept now ns = ns ->
  mark_stale now k gw = (Ok tt, gw).
Proof.
  intros Hpm Hget Hfix.
  unfold mark_stale, with_pm. rewrite Hpm, Hget.
  destruct (isdigit (node_id ns)) eqn:Hd; cbn [negb]; [|reflexivity].
  destruct (STALE_TIMEOUT <? now - last_seen ns)%float eqn:Hage;
    [|reflexivity].
  assert (Hst : stale now ns = true) by (unfold stale; now rewrite Hd, Hage).
  rewrite (swept_stale now ns Hst) in Hfix.
  assert (Hr : responsive ns = false) by (rewrite <- Hfix; reflexivity).
  rewrite Hr. unfold bind, ret, update_node, with_pm, put_pm.
  rewrite Hpm, Hget, Hfix.
  rewrite (dict_set_same k ns (nodes pm) Hget).
  now rewrite gw_with_pm_same.
Qed.

(** ** Switching power management off *)

Lemma set_commanded_idem (ns : NodeState) (v : Z) :
  set_commanded (set_commanded ns v) v = set_commanded ns v.
Proof. reflexivity. Qed.

Lemma flat_map_agree {A B : Type} (f g : A -> list B) (l : list A) :
  (forall a, In a l -> f a = g a) -> flat_map f l = flat_map g l.
Proof.
  induction l as [|a l IH]; intros H; [reflexivity|].
  cbn [flat_map]. rewrite (H a) by now left.
  f_equal. apply IH. intros b Hb. apply H. now right.
Qed.

(** One pass of the loop of [disable]. *)
Lemma restore_node_step (k : string) (gw : Gateway) (pm : PowerManager)
    (ns : NodeState) :
  _power_manager gw = Some pm ->
  dict_get k (nodes pm) = Some ns ->
  upper (node_id ns) <> "ALL" ->
  exists gw1,
    restore_node k gw = (Ok tt, gw1)
    /\ _power_manager gw1
       = Some (pm_with_nodes pm (dict_set k (set_commanded ns 0) (nodes pm)))
    /\ connected gw1 = connected gw
    /\ _chunk_buf gw1 = _chunk_buf gw
    /\ written gw1 =
         (written gw ++
          if needs_restore ns && connected gw then [restore_cmd ns] else [])%list.
Proof.
  intros Hpm Hget Hid.
  unfold restore_node, with_pm. rewrite Hpm, Hget.
  fold (needs_restore ns).
  destruct (needs_restore ns); cbn [andb].
  - unfold bind at 1. unfold bind at 1, log at 1.
    unfold bind at 1.
    match goal with
    | |- context [set_duty _ _ true true ?g] =>
        destruct (set_duty_split (node_id ns) (target_duty ns) true true g)
          as (g1 & -> & Hc1 & Hb1 & Hw1 & _ & _ & Hreg);
        cbn [_power_manager gw_with_out] in Hreg; rewrite Hpm in Hreg;
        subst g1
    end.
    match goal with
    | |- context [send_to_node ?n ?c ?v ?s ?g] =>
        destruct (send_to_node_result n c v s g)
          as (g2 & sent & -> & (Hc2 & Hb2 & Hpm2) & Hw2 & ->)
    end.
    apply String.eqb_neq in Hid. rewrite Hid in *.
    unfold sleep at 1. unfold update_node, with_pm.
    cbn [_power_manager gw_with_clock gw_with_out connected written
         _chunk_buf] in *.
    rewrite Hpm2, Hpm, Hget. unfold put_pm.
    eexists. split; [reflexivity|].
    cbn [_power_manager gw_with_pm gw_with_clock connected _chunk_buf written].
    repeat split; assumption.
  - unfold bind, ret, update_node, with_pm, put_pm. rewrite Hpm, Hget.
    eexists. split; [reflexivity|].
    cbn [_power_manager gw_with_pm connected _chunk_buf written].
    rewrite app_nil_r. repeat split.
Qed.

Lemma restore_loop (ks : list string) :
  forall (gw : Gateway) (pm : PowerManager),
    _power_manager gw = Some pm ->
    NoDup ks ->
    (forall k, In k ks -> In k (dict_keys (nodes pm))) ->
    no_broadcast_id pm ->
    exists gw' d',
      for_each ks restore_node gw = (Ok tt, gw')
      /\ _power_manager gw' = Some (pm_with_nodes pm d')
      /\ dict_keys d' = dict_keys (nodes pm)
      /\ (forall k,
            dict_get k d'
            = if existsb (String.eqb k) ks
              then option_map (fun ns => set_commanded ns 0)
                     (dict_get k (nodes pm))
              else dict_get k (nodes pm))
      /\ connected gw' = connected gw
      /\ _chunk_buf gw' = _chunk_buf gw
      /\ written gw' =
           (written gw ++
            if connected gw
            then flat_map
                   (fun k => match dict_get k (nodes pm) with
                             | Some ns =>
                                 if needs_restore ns then [restore_cmd ns]
                                 else []
                             | None => []
                             end) ks
            else [])%list.
Proof.
  induction ks as [|k ks IH]; intros gw pm Hpm Hnd Hin Hids.
  - exists gw, (nodes pm). cbn [for_each flat_map existsb]. unfold ret.
    repeat split; auto.
    + rewrite Hpm. f_equal. now destruct pm.
    + destruct (connected gw); now rewrite app_nil_r.
  - inversion Hnd as [|? ? Hnot Hnd']; subst.
    destruct (in_keys_dict_get k (nodes pm) (Hin k (or_introl eq_refl)))
      as (ns & Hget).
    destruct (restore_node_step k gw pm ns Hpm Hget (Hids k ns Hget))
      as (gw1 & Hstep & Hpm1 & Hc1 & Hb1 & Hw1).
    cbn [for_each]. unfold bind at 1. rewrite Hstep.
    set (d1 := dict_set k (set_commanded ns 0) (nodes pm)) in *.
    assert (Hget1 : forall k', dict_get k' d1
                               = if String.eqb k' k
                                 then Some (set_commanded ns 0)
                                 else dict_get k' (nodes pm)).
    { intros k'. subst d1. destruct (String.eqb_spec k' k) as [->|Hne].
      - apply dict_get_set_same.
      - apply dict_get_set_other. congruence. }
    assert (Hkeys1 : dict_keys d1 = dict_keys (nodes pm)).
    { subst d1. eapply dict_keys_set; eassumption. }
    destruct (IH gw1 (pm_with_nodes pm d1) Hpm1 Hnd')
      as (gw' & d' & Hloop & Hpm' & Hkeys & Hget' & Hc' & Hb' & Hw').
    { intros k' Hk'. cbn [nodes pm_with_nodes]. rewrite Hkeys1.
      apply Hin. now right. }
    { intros k' ns' Hk'. cbn [nodes pm_with_nodes] in Hk'.
      rewrite Hget1 in Hk'.
      destruct (String.eqb_spec k' k) as [->|Hne].
      - injection Hk' as <-. exact (Hids k ns Hget).
      - exact (Hids k' ns' Hk'). }
    cbn [nodes pm_with_nodes] in Hkeys.
    exists gw', d'. split; [exact Hloop|].
    split; [exact Hpm'|]. split; [congruence|].
    split; [|split; [congruence|split; [congruence|]]].
    + intros k'. rewrite Hget'. cbn [nodes pm_with_nodes existsb].
      rewrite Hget1.
      destruct (String.eqb_spec k' k) as [->|Hne]; cbn [orb].
      * rewrite Hget. cbn [option_map].
        now destruct (existsb (String.eqb k) ks).
      * reflexivity.
    + rewrite Hw', Hw1, Hc1. cbn [flat_map]. rewrite Hget.
      cbn [nodes pm_with_nodes].
      assert (Hsame :
        flat_map (fun k0 => match dict_get k0 d1 with
                            | Some ns0 =>
                                if needs_restore ns0 then [restore_cmd ns0]
                                else []
                            | None => []
                            end) ks
        = flat_map (fun k0 => match dict_get k0 (nodes pm) with
                              | Some ns0 =>
                                  if needs_restore ns0 then [restore_cmd ns0]
                                  else []
                              | None => []
                              end) ks).
      { apply flat_map_agree. intros k' Hk'. rewrite Hget1.
        destruct (String.eqb_spec k' k) as [->|Hne]; [contradiction|].
        reflexivity. }
      rewrite Hsame.
      destruct (connected gw), (needs_restore ns); cbn [andb app];
        rewrite <- ?app_assoc, ?app_nil_r; reflexivity.
Qed.

Lemma flat_map_keys {V A : Type} (F : V -> list A) (d : dict V) :
  NoDup (dict_keys d) ->
  flat_map (fun k => match dict_get k d with
                     | Some v => F v
                     | None => []
                     end) (dict_keys d)
  = flat_map F (dict_values d).
Proof.
  unfold dict_keys, dict_values.
  induction d as [|[k v] d IH]; intros Hnd; [reflexivity|].
  cbn [map fst snd flat_map dict_get] in *.
  rewrite String.eqb_refl. f_equal.
  inversion Hnd as [|? ? Hnot Hnd']; subst.
  rewrite <- (IH Hnd'). apply flat_map_agree.
  intros k' Hk'. destruct (String.eqb_spec k' k) as [->|Hne];
    [contradiction|reflexivity].
Qed.

Lemma flat_map_filter {A B : Type} (p : A -> bool) (f : A -> B)
    (l : list A) :
  flat_map (fun a => if p a then [f a] else []) l = map f (filter p l).
Proof.
  induction l as [|a l IH]; [reflexivity|].
  cbn [flat_map filter]. rewrite IH. now destruct (p a).
Qed.

(** ** Polling and discovery *)

(** A READ for a digit-identified node is one silent write. *)
Lemma read_one (nid : string) (gw : Gateway) :
  isdigit nid = true ->
  exists gw',
    (forall k : M unit,
       (send_to_node nid "READ" None true ;; sleep READ_STAGGER ;; k) gw
       = k gw')
    /\ same_link gw gw'
    /\ out gw' = (out gw ++ if connected gw then []
                            else [Log "Not connected"])%list
    /\ written gw' =
         (written gw ++
          if connected gw then [format_cmd nid "READ" None] else [])%list.
Proof.
  intros Hd. unfold send_to_node. rewrite (digits_not_ALL nid Hd).
  unfold bind, send_command, sleep.
  destruct (connected gw) eqn:Hc; cbn [negb];
    eexists; (split; [intros k; reflexivity|]);
    cbn [connected _chunk_buf _power_manager written out gw_with_clock
         gw_with_written gw_with_out];
    rewrite ?app_nil_r; repeat split; auto.
Qed.

Lemma poll_each_off (ids : list string) (gw : Gateway) (pm : PowerManager) :
  _power_manager gw = Some pm ->
  threshold_mw pm = None ->
  poll_each ids gw = (Ok tt, gw).
Proof.
  intros Hpm Hth. destruct ids; [reflexivity|].
  cbn [poll_each]. unfold with_pm. now rewrite Hpm, Hth.
Qed.

Lemma poll_each_on (ids : list string) :
  forall (gw : Gateway) (pm : PowerManager) (t : float),
    _power_manager gw = Some pm ->
    threshold_mw pm = Some t ->
    exists gw',
      poll_each ids gw = (Ok tt, gw')
      /\ same_link gw gw'
      /\ written gw' =
           (written gw ++
            if connected gw
            then map (fun nid => format_cmd nid "READ" None)
                   (filter isdigit ids)
            else [])%list.
Proof.
  induction ids as [|nid ids IH]; intros gw pm t Hpm Hth.
  - exists gw. cbn [poll_each filter map]. unfold ret.
    split; [reflexivity|]. split; [apply same_link_refl|].
    destruct (connected gw); now rewrite app_nil_r.
  - cbn [poll_each filter]. unfold with_pm. rewrite Hpm, Hth.
    destruct (isdigit nid) eqn:Hd; cbn [negb].
    + destruct (read_one nid gw Hd) as (gw1 & Hrun & Hl1 & _ & Hw1).
      rewrite Hrun.
      destruct Hl1 as (Hc1 & Hb1 & Hpm1).
      destruct (IH gw1 pm t) as (gw' & Hloop & Hl' & Hw');
        [congruence|assumption|].
      exists gw'. split; [exact Hloop|].
      split; [eapply same_link_trans; [|eassumption]; repeat split; assumption|].
      rewrite Hw', Hw1, Hc1.
      destruct (connected gw); cbn [map]; now rewrite <- app_assoc.
    + apply (IH gw pm t Hpm Hth).
Qed.

(** The probes for one expected node. *)
Lemma probe_node_known (nid : Z) (attempts : list Z) (gw : Gateway)
    (pm : PowerManager) :
  _power_manager gw = Some pm ->
  dict_mem (str_of_int nid) (nodes pm) = true ->
  probe_node nid attempts gw = (Ok tt, gw).
Proof.
  intros Hpm Hmem. destruct attempts; [reflexivity|].
  cbn [probe_node]. unfold with_pm. now rewrite Hpm, Hmem.
Qed.

Lemma probe_node_unknown (nid : Z) (attempts : list Z) :
  isdigit (str_of_int nid) = true ->
  forall (gw : Gateway) (pm : PowerManager),
    _power_manager gw = Some pm ->
    dict_mem (str_of_int nid) (nodes pm) = false ->
    exists gw',
      probe_node nid attempts gw = (Ok tt, gw')
      /\ same_link gw gw'
      /\ written gw' =
           (written gw ++
            if connected gw
            then repeat (format_cmd (str_of_int nid) "READ" None)
                   (List.length attempts)
            else [])%list.
Proof.
  intros Hd. induction attempts as [|a attempts IH]; intros gw pm Hpm Hmem.
  - exists gw. cbn [probe_node List.length repeat]. unfold ret.
    split; [reflexivity|]. split; [apply same_link_refl|].
    destruct (connected gw); now rewrite app_nil_r.
  - cbn [probe_node]. unfold with_pm. rewrite Hpm, Hmem.
    unfold bind at 1.
    set (note := if (0 <? a)%Z then log _ else ret tt).
    assert (Hnote : exists o, note gw = (Ok tt, gw_with_out gw o)).
    { subst note. destruct (0 <? a)%Z; [eexists; reflexivity|].
      exists (out gw). unfold ret. f_equal. now destruct gw. }
    destruct Hnote as (o & ->).
    destruct (read_one (str_of_int nid) (gw_with_out gw o) Hd)
      as (gw1 & Hrun & (Hc1 & Hb1 & Hpm1) & _ & Hw1).
    rewrite Hrun.
    cbn [connected _chunk_buf _power_manager written gw_with_out] in *.
    destruct (IH gw1 pm) as (gw' & Hloop & (Hc' & Hb' & Hpm') & Hw');
      [congruence|assumption|].
    exists gw'. split; [exact Hloop|].
    split; [repeat split; congruence|].
    rewrite Hw', Hw1, Hc1. cbn [List.length repeat].
    destruct (connected gw); now rewrite <- app_assoc.
Qed.

Lemma probe_node_probes (nid : Z) (gw : Gateway) (pm : PowerManager) :
  isdigit (str_of_int nid) = true ->
  _power_manager gw = Some pm ->
  exists gw',
    probe_node nid [0; 1; 2] gw = (Ok tt, gw')
    /\ same_link gw gw'
    /\ written gw' =
         (written gw ++
          if connected gw then probes pm (str_of_int nid) else [])%list.
Proof.
  intros Hd Hpm. unfold probes.
  destruct (dict_mem (str_of_int nid) (nodes pm)) eqn:Hmem.
  - exists gw. rewrite (probe_node_known nid _ gw pm Hpm Hmem).
    split; [reflexivity|]. split; [apply same_link_refl|].
    destruct (connected gw); now rewrite app_nil_r.
  - exact (probe_node_unknown nid [0; 1; 2] Hd gw pm Hpm Hmem).
Qed.

(** ** What an evaluation leaves alone *)

Lemma same_but_commanded_refl (ns : NodeState) : same_but_commanded ns ns.
Proof. unfold same_but_commanded. now destruct ns. Qed.

Lemma policy_kept_start (gw : Gateway) (pm : PowerManager) :
  _power_manager gw = Some pm -> policy_kept gw pm gw.
Proof.
  intros Hpm. repeat (split; [reflexivity|]).
  exists pm. repeat (split; [first [assumption|reflexivity]|]).
  intros k. destruct (dict_get k (nodes pm));
    [apply same_but_commanded_refl|exact I].
Qed.

Section PolicyKept.
Context (gw0 : Gateway) (pm0 : PowerManager).

Lemma policy_frame (gw gw' : Gateway) :
  policy_kept gw0 pm0 gw ->
  connected gw' = connected gw ->
  _chunk_buf gw' = _chunk_buf gw ->
  _power_manager gw' = _power_manager gw ->
  policy_kept gw0 pm0 gw'.
Proof.
  intros (Hc & Hb & pm & Hpm & H) Hc' Hb' Hpm'.
  repeat (split; [congruence|]).
  exists pm. split; [congruence|exact H].
Qed.

Lemma policy_log (o : Output) : preserves (policy_kept gw0 pm0) (log o).
Proof. intros gw HI. now apply policy_frame with (gw := gw). Qed.

Lemma policy_sleep (d : float) : preserves (policy_kept gw0 pm0) (sleep d).
Proof. intros gw HI. now apply policy_frame with (gw := gw). Qed.

Lemma policy_monotonic : preserves (policy_kept gw0 pm0) monotonic.
Proof. now intros gw. Qed.

Lemma policy_set_duty (nid : string) (v : Z) (silent : bool) :
  preserves (policy_kept gw0 pm0) (set_duty nid v true silent).
Proof.
  intros gw HI.
  destruct (set_duty_split nid v true silent gw)
    as (gw1 & -> & _ & _ & _ & _ & _ & Hreg).
  assert (gw1 = gw) by (destruct (_power_manager gw); exact Hreg).
  subst gw1.
  destruct (send_to_node_result nid "DUTY"
              (Some (str_of_int (clamp_percent v))) silent gw)
    as (gw' & sent & -> & (Hc & Hb & Hpm) & _).
  cbn [snd]. now apply policy_frame with (gw := gw).
Qed.

Lemma policy_update_commanded (nid : string) (v : Z) :
  preserves (policy_kept gw0 pm0)
    (update_node nid (fun n => set_commanded n v)).
Proof.
  intros gw HI. unfold update_node, with_pm.
  destruct HI as (Hc & Hb & pm & Hpm & Ht & Hp & Ha & Hl & Hg & Hpo & Hn & Hk
                  & Hreg).
  rewrite Hpm.
  destruct (dict_get nid (nodes pm)) as [ns|] eqn:Hget.
  - unfold put_pm. cbn [snd].
    repeat (split; [assumption|]).
    exists (pm_with_nodes pm (dict_set nid (set_commanded ns v) (nodes pm))).
    cbn [_power_manager gw_with_pm nodes pm_with_nodes threshold_mw
         priority_node _poll_generation _polling _needs_bootstrap
         _adjusting _last_adjustment].
    repeat (split; [first [reflexivity|assumption]|]).
    split.
    + rewrite <- Hk. eapply dict_keys_set; eassumption.
    + intros k. specialize (Hreg k).
      destruct (String.eqb_spec nid k) as [<-|Hne].
      * rewrite dict_get_set_same. rewrite Hget in Hreg.
        destruct (dict_get nid (nodes pm0)) as [a|]; [|contradiction].
        unfold same_but_commanded in *. rewrite Hreg. reflexivity.
      * rewrite dict_get_set_other by exact Hne. exact Hreg.
  - cbn [snd raise]. repeat (split; [assumption|]).
    exists pm. auto 12.
Qed.

Lemma policy_nudge (nid : string) (share : float) (R : list string) :
  preserves (policy_kept gw0 pm0) (_nudge_node nid share R).
Proof.
  unfold _nudge_node.
  apply preserves_with_pm. intros pm gw _. revert gw.
  destruct (dict_get nid (nodes pm)) as [ns|]; [|apply preserves_raise].
  apply preserves_bind; [apply preserves_lift|]. intros mw.
  apply preserves_bind; [apply preserves_lift|]. intros ideal.
  apply preserves_bind; [apply preserves_lift|]. intros new_duty.
  destruct (new_duty =? effective_duty ns)%Z; [apply preserves_ret|].
  destruct (Z.max 0 (Z.min 100 new_duty) =? effective_duty ns)%Z;
    [apply preserves_ret|].
  apply preserves_bind; [apply policy_set_duty|]. intros _.
  apply preserves_bind; [apply policy_update_commanded|]. intros _.
  apply preserves_bind; [apply policy_sleep|]. intros _.
  apply preserves_ret.
Qed.

Lemma policy_nudge_each (ids : list string) (share : float)
    (R : list string) :
  preserves (policy_kept gw0 pm0) (nudge_each ids share R).
Proof.
  induction ids as [|nid ids IH]; cbn [nudge_each].
  - apply preserves_ret.
  - apply preserves_bind; [apply policy_nudge|]. intros change.
    apply preserves_bind; [exact IH|]. intros changes.
    apply preserves_ret.
Qed.

Lemma policy_total_power_of (R : list string) :
  preserves (policy_kept gw0 pm0) (total_power_of R).
Proof.
  apply preserves_with_pm. intros pm gw _ HI. exact HI.
Qed.

Lemma policy_balance_proportional (R : list string) (budget : float) :
  preserves (policy_kept gw0 pm0) (_balance_proportional R budget).
Proof.
  unfold _balance_proportional.
  apply preserves_bind; [apply preserves_lift|]. intros share.
  apply preserves_bind; [apply policy_nudge_each|]. intros changes.
  apply preserves_bind; [apply policy_total_power_of|]. intros total.
  destruct changes; [apply preserves_ret | apply policy_log].
Qed.

Lemma policy_balance_with_priority (R : list string) (budget : float) :
  preserves (policy_kept gw0 pm0) (_balance_with_priority R budget).
Proof.
  unfold _balance_with_priority.
  apply preserves_with_pm. intros pm gw Hpm HI. revert gw Hpm HI.
  destruct (priority_node pm) as [pri|]; [|now intros].
  destruct (dict_get pri (dict_view R (nodes pm))) as [priority_ns|];
    [|now intros].
  intros gw _. revert gw.
  apply preserves_bind; [apply preserves_lift|]. intros total_shares.
  apply preserves_bind; [apply preserves_lift|]. intros weight.
  apply preserves_bind; [apply preserves_lift|]. intros pri_mw.
  apply preserves_bind; [apply preserves_lift|]. intros pri_max.
  apply preserves_bind.
  { destruct (filter _ R); [apply preserves_ret | apply preserves_lift]. }
  intros non_pri_share.
  apply preserves_bind; [apply policy_nudge|]. intros change.
  apply preserves_bind; [apply policy_nudge_each|]. intros changes1.
  apply preserves_bind; [apply policy_total_power_of|]. intros total.
  destruct (_ ++ changes1)%list; [apply preserves_ret | apply policy_log].
Qed.

Lemma policy_balance (pm : PowerManager) (R : list string) (budget : float) :
  preserves (policy_kept gw0 pm0)
    (match priority_node pm with
     | Some pri =>
         if negb (String.eqb pri "") && existsb (String.eqb pri) R
         then _balance_with_priority R budget
         else _balance_proportional R budget
     | None => _balance_proportional R budget
     end).
Proof.
  destruct (priority_node pm) as [pri|];
    [destruct (negb (String.eqb pri "") && _)|];
    auto using policy_balance_with_priority, policy_balance_proportional.
Qed.

End PolicyKept.

(** The two ways an evaluation ends: held back, with the state untouched,
    or through the balancing pass and its [finally] clause. *)
Lemma evaluate_outcome (gw : Gateway) (pm : PowerManager) :
  _power_manager gw = Some pm ->
  _evaluate_and_adjust gw = (Ok tt, gw)
  \/ exists r g pmg,
       _adjusting pm = false
       /\ threshold_mw pm <> None
       /\ policy_kept
            (gw_with_pm gw (Some (pm_with_adjusting pm true)))
            (pm_with_adjusting pm true) g
       /\ _power_manager g = Some pmg
       /\ ((r = Ok tt
            /\ _evaluate_and_adjust gw
               = (r, gw_with_pm g
                       (Some (pm_with_adjusting
                                (pm_with_last_adjustment pmg (clock g))
                                false))))
           \/ (r <> Ok tt
               /\ _evaluate_and_adjust gw
                  = (r, gw_with_pm g (Some (pm_with_adjusting pmg false))))).
Proof.
  intros Hpm.
  remember (_evaluate_and_adjust gw) as E eqn:HE.
  unfold _evaluate_and_adjust, with_pm in HE. rewrite Hpm in HE.
  destruct (threshold_mw pm) as [th|] eqn:Hth; [|now left].
  destruct (_adjusting pm) eqn:Hadj; [now left|].
  unfold bind at 1, monotonic at 1 in HE.
  destruct (clock gw - _last_adjustment pm <? COOLDOWN)%float; [now left|].
  destruct (filter (fun kv => responsive (snd kv)) (nodes pm)) as [|kv rest];
    [now left|].
  set (resp := kv :: rest) in HE.
  destruct (float_le_int (th - HEADROOM_MW) 0); [now left|].
  match type of HE with
  | context [if ?b then ret tt else _] => destruct b; [now left|]
  end.
  match type of HE with
  | context [if ?b then ret tt else _] => destruct b; [now left|]
  end.
  right.
  unfold bind at 1, log at 1 in HE. unfold bind at 1, put_pm at 1 in HE.
  cbn [_power_manager gw_with_out gw_with_pm] in HE.
  match type of HE with
  | context [try_finally (bind ?bal ?k) ?fin ?g1] =>
      set (balance := bal) in HE; set (gw1 := g1) in HE
  end.
  set (pm1 := pm_with_adjusting pm true).
  assert (Hstart : policy_kept (gw_with_pm gw (Some pm1)) pm1 gw1).
  { apply policy_frame with (gw := gw_with_pm gw (Some pm1));
      [apply policy_kept_start|..]; reflexivity. }
  assert (Hbal : policy_kept (gw_with_pm gw (Some pm1)) pm1
                   (snd (balance gw1))).
  { apply (policy_balance (gw_with_pm gw (Some pm1)) pm1 pm
             (dict_keys resp) (th - HEADROOM_MW)%float gw1 Hstart). }
  unfold try_finally, bind at 1 in HE.
  destruct (balance gw1) as [[u|e] g]; cbn [snd] in Hbal;
    pose proof Hbal as (_ & _ & pmg & Hpmg & _).
  - exists (Ok tt), g, pmg.
    split; [reflexivity|]. split; [discriminate|].
    split; [exact Hbal|]. split; [exact Hpmg|]. left.
    split; [reflexivity|]. rewrite HE.
    unfold bind, monotonic, with_pm, put_pm. rewrite Hpmg.
    cbn [_power_manager gw_with_pm]. reflexivity.
  - exists (Raise e), g, pmg.
    split; [reflexivity|]. split; [discriminate|].
    split; [exact Hbal|]. split; [exact Hpmg|]. right.
    split; [discriminate|]. rewrite HE.
    unfold with_pm, put_pm. rewrite Hpmg. reflexivity.
Qed.

(** ** The cooldown *)

Lemma sub_self_within_cooldown (x : float) :
  finite x = true -> (x - x <? COOLDOWN)%float = true.
Proof.
  unfold finite. intros H. rewrite ltb_spec, sub_spec.
  set (c := Prim2SF COOLDOWN). vm_compute in c. subst c.
  destruct (Prim2SF x) as [s|s| |s m e]; try discriminate.
  - now destruct s.
  - cbv [SF64sub SFsub]. rewrite Z.sub_diag. reflexivity.
Qed.

(** ** What an adjustment writes, and in which order *)

Lemma subseq_nil_l {A : Type} (l : list A) : subseq [] l.
Proof. induction l; constructor; assumption. Qed.

Lemma subseq_refl {A : Type} (l : list A) : subseq l l.
Proof.
  induction l; [constructor|apply subseq_take; assumption].
Qed.

Lemma subseq_app {A : Type} (a b c d : list A) :
  subseq a b -> subseq c d -> subseq (a ++ c) (b ++ d).
Proof.
  intros Hab Hcd. induction Hab; cbn [app].
  - exact Hcd.
  - now apply subseq_skip.
  - now apply subseq_take.
Qed.

Lemma subseq_trans {A : Type} (a b c : list A) :
  subseq a b -> subseq b c -> subseq a c.
Proof.
  intros Hab Hbc. revert a Hab.
  induction Hbc as [|x b c Hbc IH|x b c Hbc IH]; intros a Hab.
  - exact Hab.
  - constructor. now apply IH.
  - inversion Hab as [|y a' b' Ha'|y a' b' Ha']; subst.
    + apply subseq_skip. now apply IH.
    + apply subseq_take. now apply IH.
Qed.

Lemma subseq_in {A : Type} (a b : list A) (x : A) :
  subseq a b -> In x a -> In x b.
Proof.
  intros H. induction H; cbn [In]; intuition.
Qed.

Lemma subseq_nodup {A : Type} (a b : list A) :
  subseq a b -> NoDup b -> NoDup a.
Proof.
  intros H. induction H; intros Hnd.
  - constructor.
  - inversion Hnd; subst. auto.
  - inversion Hnd as [|? ? Hnot Hnd']; subst. constructor; [|auto].
    intros Hin. apply Hnot. eapply subseq_in; eassumption.
Qed.

Lemma emits_nothing {A : Type} (m : M A) :
  (forall gw, written (snd (m gw)) = written gw) -> emits m [].
Proof.
  intros H gw. exists []. rewrite H. cbn [map]. rewrite app_nil_r.
  repeat split; constructor.
Qed.

Lemma emits_ret {A : Type} (a : A) : emits (ret a) [].
Proof. now apply emits_nothing. Qed.

Lemma emits_raise {A : Type} (e : Exc) : emits (@raise A e) [].
Proof. now apply emits_nothing. Qed.

Lemma emits_lift {A : Type} (r : Res A) : emits (lift r) [].
Proof. now apply emits_nothing. Qed.

Lemma emits_log (o : Output) : emits (log o) [].
Proof. now apply emits_nothing. Qed.

Lemma emits_monotonic : emits monotonic [].
Proof. now apply emits_nothing. Qed.

Lemma emits_put (k : PowerManager -> PowerManager) :
  emits (with_pm (fun pm => put_pm (k pm))) [].
Proof.
  apply emits_nothing. intros gw. unfold with_pm.
  now destruct (_power_manager gw).
Qed.

Lemma emits_weaken {A : Type} (m : M A) (ids ids' : list string) :
  emits m ids -> subseq ids ids' -> emits m ids'.
Proof.
  intros H Hsub gw. destruct (H gw) as (cs & Hw & Hs & Hv).
  exists cs. repeat split; try assumption.
  eapply subseq_trans; eassumption.
Qed.

Lemma emits_bind {A B : Type} (m : M A) (k : A -> M B)
    (ids1 ids2 : list string) :
  emits m ids1 -> (forall a, emits (k a) ids2) ->
  emits (bind m k) (ids1 ++ ids2).
Proof.
  intros Hm Hk gw. unfold emits_at, bind.
  destruct (Hm gw) as (cs1 & Hw1 & Hs1 & Hv1).
  destruct (m gw) as [[a|e] gw1]; cbn [snd] in *.
  - destruct (Hk a gw1) as (cs2 & Hw2 & Hs2 & Hv2).
    exists (cs1 ++ cs2)%list.
    rewrite Hw2, Hw1, !map_app, app_assoc.
    split; [reflexivity|]. split; [now apply subseq_app|].
    apply Forall_app. now split.
  - exists cs1. split; [exact Hw1|]. split; [|exact Hv1].
    rewrite <- (app_nil_r (map fst cs1)).
    apply subseq_app; [exact Hs1|apply subseq_nil_l].
Qed.

Lemma emits_bind_quiet {A B : Type} (m : M A) (k : A -> M B)
    (ids : list string) :
  emits m [] -> (forall a, emits (k a) ids) -> emits (bind m k) ids.
Proof. exact (emits_bind m k [] ids). Qed.

Lemma emits_bind_last {A B : Type} (m : M A) (k : A -> M B)
    (ids : list string) :
  emits m ids -> (forall a, emits (k a) []) -> emits (bind m k) ids.
Proof.
  intros Hm Hk. rewrite <- (app_nil_r ids). now apply emits_bind.
Qed.

Lemma emits_with_pm {A : Type} (k : PowerManager -> M A)
    (ids : list string) :
  (forall pm, emits (k pm) ids) -> emits (with_pm k) ids.
Proof.
  intros Hk gw. unfold emits_at, with_pm.
  destruct (_power_manager gw) as [pm|]; [apply Hk|].
  exists []. cbn. rewrite app_nil_r.
  repeat split; [apply subseq_nil_l|constructor].
Qed.

Lemma emits_try_finally {A : Type} (body : M A) (fin : M unit)
    (ids : list string) :
  emits body ids -> emits fin [] -> emits (try_finally body fin) ids.
Proof.
  intros Hb Hf gw. unfold emits_at, try_finally.
  destruct (Hb gw) as (cs & Hw & Hs & Hv).
  destruct (body gw) as [r gw1]. cbn [snd] in *.
  destruct (Hf gw1) as (cs' & Hw' & Hs' & _).
  inversion Hs' as [Hnil| |]. symmetry in Hnil.
  apply map_eq_nil in Hnil. subst cs'.
  cbn [map] in Hw'. rewrite app_nil_r in Hw'.
  exists cs.
  destruct (fin gw1) as [[u|e] gw2]; cbn [snd] in *;
    (split; [congruence|split; assumption]).
Qed.

Lemma emits_nudge (nid : string) (share : float) (R : list string) :
  upper nid <> "ALL" -> emits (_nudge_node nid share R) [nid].
Proof.
  intros Hid gw. unfold emits_at.
  assert (Hnone : exists cs : list (string * Z),
             written gw = (written gw ++ map duty_cmd cs)%list
             /\ subseq (map fst cs) [nid]
             /\ Forall (fun c => 0 <= snd c <= 100) cs).
  { exists []. cbn. rewrite app_nil_r.
    repeat split; [apply subseq_nil_l|constructor]. }
  destruct (_power_manager gw) as [pm|] eqn:Hpm.
  2:{ unfold _nudge_node, with_pm. rewrite Hpm. exact Hnone. }
  destruct (dict_get nid (nodes pm)) as [ns|] eqn:Hget.
  2:{ unfold _nudge_node, with_pm. rewrite Hpm, Hget. exact Hnone. }
  pose proof (nudge_outcome_holds gw pm nid ns share R Hpm Hget Hid) as Hout.
  destruct (_nudge_node nid share R gw) as [[[change|]|e] gw'];
    cbn [nudge_outcome snd] in *.
  - destruct Hout as (v & Hv & _ & ->).
    unfold after_nudge.
    cbn [written gw_with_clock gw_with_pm].
    rewrite after_duty_command_written.
    destruct (connected gw); [|rewrite app_nil_r; exact Hnone].
    exists [(nid, v)]. split; [reflexivity|].
    split; [apply subseq_refl|]. constructor; [exact Hv|constructor].
  - destruct Hout as [-> _]. exact Hnone.
  - subst gw'. exact Hnone.
Qed.

Lemma emits_nudge_each (ids : list string) (share : float)
    (R : list string) :
  Forall (fun nid => upper nid <> "ALL") ids ->
  emits (nudge_each ids share R) ids.
Proof.
  induction ids as [|nid ids IH]; intros Hids; cbn [nudge_each].
  - apply emits_ret.
  - inversion Hids as [|? ? Hid Hrest]; subst.
    apply (emits_bind _ _ [nid] ids); [now apply emits_nudge|].
    intros change.
    apply emits_bind_last; [now apply IH|]. intros changes.
    apply emits_ret.
Qed.

Lemma emits_total_power_of (R : list string) : emits (total_power_of R) [].
Proof.
  apply emits_nothing. intros gw. unfold total_power_of, with_pm.
  now destruct (_power_manager gw).
Qed.

Lemma Forall_sort_by (P : string -> Prop) (l : list string) :
  Forall P l -> Forall P (sort_by node_sort_key l).
Proof.
  intros H. apply Forall_forall. intros x Hx.
  rewrite Forall_forall in H. apply H.
  eapply Permutation_in; [apply sort_by_perm|exact Hx].
Qed.

Lemma emits_balance_proportional (R : list string) (budget : float) :
  Forall (fun nid => upper nid <> "ALL") R ->
  emits (_balance_proportional R budget) (sort_by node_sort_key R).
Proof.
  intros HR. unfold _balance_proportional.
  apply emits_bind_quiet; [apply emits_lift|]. intros share.
  apply emits_bind_last; [now apply emits_nudge_each, Forall_sort_by|].
  intros changes.
  apply emits_bind_quiet; [apply emits_total_power_of|]. intros total.
  destruct changes; [apply emits_ret | apply emits_log].
Qed.

Lemma emits_at_bind_last {A B : Type} (m : M A) (k : A -> M B)
    (ids : list string) (gw : Gateway) :
  emits_at m ids gw -> (forall a, emits (k a) []) ->
  emits_at (bind m k) ids gw.
Proof.
  intros (cs1 & Hw1 & Hs1 & Hv1) Hk. unfold emits_at, bind.
  destruct (m gw) as [[a|e] gw1]; cbn [snd] in *.
  - destruct (Hk a gw1) as (cs2 & Hw2 & Hs2 & _).
    inversion Hs2 as [Hnil| |]. symmetry in Hnil.
    apply map_eq_nil in Hnil. subst cs2.
    cbn [map] in Hw2. rewrite app_nil_r in Hw2.
    exists cs1. split; [congruence|split; assumption].
  - exists cs1. split; [exact Hw1|split; assumption].
Qed.

Lemma emits_at_try_finally {A : Type} (body : M A) (fin : M unit)
    (ids : list string) (gw : Gateway) :
  emits_at body ids gw -> emits fin [] ->
  emits_at (try_finally body fin) ids gw.
Proof.
  intros (cs & Hw & Hs & Hv) Hf. unfold emits_at, try_finally.
  destruct (body gw) as [r gw1]. cbn [snd] in *.
  destruct (Hf gw1) as (cs' & Hw' & Hs' & _).
  inversion Hs' as [Hnil| |]. symmetry in Hnil.
  apply map_eq_nil in Hnil. subst cs'.
  cbn [map] in Hw'. rewrite app_nil_r in Hw'.
  exists cs.
  destruct (fin gw1) as [[u|e] gw2]; cbn [snd] in *;
    (split; [congruence|split; assumption]).
Qed.

Lemma emits_balance_with_priority (gw : Gateway) (pm : PowerManager)
    (pri : string) (R : list string) (budget : float) :
  _power_manager gw = Some pm ->
  priority_node pm = Some pri ->
  Forall (fun nid => upper nid <> "ALL") R ->
  upper pri <> "ALL" ->
  emits_at (_balance_with_priority R budget)
    (pri :: sort_by node_sort_key
              (filter (fun nid => negb (String.eqb nid pri)) R)) gw.
Proof.
  intros Hpm Hpri HR Hp.
  unfold emits_at, _balance_with_priority, with_pm. rewrite Hpm, Hpri.
  destruct (dict_get pri (dict_view R (nodes pm))) as [priority_ns|].
  2:{ exists []. cbn. rewrite app_nil_r.
      repeat split; [apply subseq_nil_l|constructor]. }
  clear Hpm. revert gw.
  match goal with
  | |- forall gw, exists cs,
         written (snd (?m gw)) = _ /\ subseq _ ?ids /\ _ =>
      change (emits m ids)
  end.
  apply emits_bind_quiet; [apply emits_lift|]. intros total_shares.
  apply emits_bind_quiet; [apply emits_lift|]. intros weight.
  apply emits_bind_quiet; [apply emits_lift|]. intros pri_mw.
  apply emits_bind_quiet; [apply emits_lift|]. intros pri_max.
  apply emits_bind_quiet.
  { destruct (filter _ R); [apply emits_ret | apply emits_lift]. }
  intros non_pri_share.
  apply (emits_bind _ _ [pri]); [now apply emits_nudge|]. intros change.
  apply emits_bind_last.
  { apply emits_nudge_each, Forall_sort_by.
    apply Forall_forall. intros x Hx. apply filter_In in Hx as [Hx _].
    rewrite Forall_forall in HR. now apply HR. }
  intros changes1.
  apply emits_bind_quiet; [apply emits_total_power_of|]. intros total.
  destruct (_ ++ changes1)%list; [apply emits_ret | apply emits_log].
Qed.

Lemma keys_filter_in {V : Type} (p : string * V -> bool) (d : dict V)
    (k : string) :
  In k (dict_keys (filter p d)) -> In k (dict_keys d).
Proof.
  unfold dict_keys. intros H. apply in_map_iff in H as (kv & <- & Hin).
  apply filter_In in Hin as [Hin _]. now apply in_map.
Qed.

Lemma keys_filter_nodup {V : Type} (p : string * V -> bool) (d : dict V) :
  NoDup (dict_keys d) -> NoDup (dict_keys (filter p d)).
Proof.
  unfold dict_keys. induction d as [|kv d IH]; intros Hnd; [constructor|].
  cbn [map filter] in *. inversion Hnd as [|? ? Hnot Hnd']; subst.
  destruct (p kv); cbn [map]; [|auto].
  constructor; [|auto].
  intros Hin. apply Hnot. now apply (keys_filter_in p d).
Qed.

Lemma sort_by_nodup (l : list string) :
  NoDup l -> NoDup (sort_by node_sort_key l).
Proof.
  intros H. eapply Permutation_NoDup; [|exact H].
  apply Permutation_sym, sort_by_perm.
Qed.

Lemma nudge_order_nodup (pm : PowerManager) :
  NoDup (dict_keys (nodes pm)) -> NoDup (nudge_order pm).
Proof.
  intros Hnd. unfold nudge_order, responsive_nodes.
  pose proof (keys_filter_nodup (fun kv => responsive (snd kv)) (nodes pm) Hnd)
    as HR.
  destruct (priority_node pm) as [pri|]; [|now apply sort_by_nodup].
  destruct (negb (String.eqb pri "") && _); [|now apply sort_by_nodup].
  constructor.
  - intros Hin.
    eapply Permutation_in in Hin; [|apply sort_by_perm].
    apply filter_In in Hin as [_ Hne].
    now rewrite String.eqb_refl in Hne.
  - apply sort_by_nodup. now apply NoDup_filter.
Qed.

Lemma nudge_order_responsive (pm : PowerManager) (nid : string) :
  In nid (nudge_order pm) -> In nid (dict_keys (responsive_nodes pm)).
Proof.
  unfold nudge_order.
  destruct (priority_node pm) as [pri|].
  - destruct (negb (String.eqb pri "")
              && existsb (String.eqb pri) (dict_keys (responsive_nodes pm)))
      eqn:Hc.
    + intros [<-|Hin].
      * apply andb_prop in Hc as [_ Hc]. now apply existsb_eqb_in.
      * eapply Permutation_in in Hin; [|apply sort_by_perm].
        now apply filter_In in Hin.
    + intros Hin. eapply Permutation_in; [apply sort_by_perm|exact Hin].
  - intros Hin. eapply Permutation_in; [apply sort_by_perm|exact Hin].
Qed.

Lemma evaluate_emits (gw : Gateway) (pm : PowerManager) :
  _power_manager gw = Some pm ->
  no_broadcast_key pm ->
  emits_at _evaluate_and_adjust (nudge_order pm) gw.
Proof.
  intros Hpm Hkeys.
  assert (Hnone : forall g : Gateway,
             written g = written gw ->
             exists cs : list (string * Z),
               written g = (written gw ++ map duty_cmd cs)%list
               /\ subseq (map fst cs) (nudge_order pm)
               /\ Forall (fun c => 0 <= snd c <= 100) cs).
  { intros g Hg. exists []. cbn [map]. rewrite app_nil_r.
    repeat split; [exact Hg|apply subseq_nil_l|constructor]. }
  unfold emits_at.
  remember (_evaluate_and_adjust gw) as E eqn:HE.
  unfold _evaluate_and_adjust, with_pm in HE. rewrite Hpm in HE.
  destruct (threshold_mw pm) as [th|] eqn:Hth;
    [|subst E; now apply Hnone].
  destruct (_adjusting pm) eqn:Hadj; [subst E; now apply Hnone|].
  unfold bind at 1, monotonic at 1 in HE.
  destruct (clock gw - _last_adjustment pm <? COOLDOWN)%float;
    [subst E; now apply Hnone|].
  assert (HR : Forall (fun nid => upper nid <> "ALL")
                 (dict_keys (responsive_nodes pm))).
  { apply Forall_forall. intros k Hk.
    apply keys_filter_in, in_keys_dict_get in Hk as (ns & Hget).
    exact (Hkeys k ns Hget). }
  unfold nudge_order in *. unfold responsive_nodes in *.
  destruct (filter (fun kv => responsive (snd kv)) (nodes pm)) as [|kv rest];
    [subst E; now apply Hnone|].
  set (resp := kv :: rest) in *.
  destruct (float_le_int (th - HEADROOM_MW) 0); [subst E; now apply Hnone|].
  match type of HE with
  | context [if ?b then ret tt else _] =>
      destruct b; [subst E; now apply Hnone|]
  end.
  match type of HE with
  | context [if ?b then ret tt else _] =>
      destruct b; [subst E; now apply Hnone|]
  end.
  unfold bind at 1, log at 1 in HE. unfold bind at 1, put_pm at 1 in HE.
  cbn [_power_manager gw_with_out gw_with_pm] in HE.
  match type of HE with
  | E = try_finally ?body ?fin ?g1 =>
      assert (Hat : emits_at (try_finally body fin)
                      match priority_node pm with
                      | Some pri =>
                          if negb (String.eqb pri "")
                             && existsb (String.eqb pri) (dict_keys resp)
                          then pri :: sort_by node_sort_key
                                        (filter
                                           (fun nid =>
                                              negb (String.eqb nid pri))
                                           (dict_keys resp))
                          else sort_by node_sort_key (dict_keys resp)
                      | None => sort_by node_sort_key (dict_keys resp)
                      end g1)
  end.
  { apply emits_at_try_finally; [|apply emits_put].
    apply emits_at_bind_last.
    2:{ intros _. apply emits_bind_quiet; [apply emits_monotonic|].
        intros now'. apply emits_put. }
    destruct (priority_node pm) as [pri|] eqn:Hpri.
    - destruct (negb (String.eqb pri "")
                && existsb (String.eqb pri) (dict_keys resp)) eqn:Hc.
      + apply emits_balance_with_priority
          with (pm := pm_with_adjusting pm true);
          [reflexivity|exact Hpri|exact HR|].
        apply andb_prop in Hc as [_ Hc]. apply existsb_eqb_in in Hc.
        rewrite Forall_forall in HR. now apply HR.
      + now apply emits_balance_proportional.
    - now apply emits_balance_proportional. }
  rewrite HE. exact Hat.
Qed.

Lemma digit_keys_no_broadcast (pm : PowerManager) :
  digit_keys pm -> no_broadcast_key pm.
Proof.
  intros H nid ns Hget Hall.
  pose proof (digits_not_ALL nid (H nid ns Hget)) as Hne.
  rewrite Hall in Hne. discriminate.
Qed.

Lemma digit_keys_three (a b c : NodeState) (th : option float)
    (pri : option string) (adj : bool) (last : float) (gen : Z)
    (polling boot : bool) (ka kb kc : string) :
  isdigit ka = true -> isdigit kb = true -> isdigit kc = true ->
  digit_keys (mkPowerManager [(ka, a); (kb, b); (kc, c)] th pri adj last gen
                polling boot).
Proof.
  intros Ha Hb Hc nid ns. cbn [nodes dict_get].
  destruct (String.eqb_spec nid ka) as [->|_]; [auto|].
  destruct (String.eqb_spec nid kb) as [->|_]; [auto|].
  destruct (String.eqb_spec nid kc) as [->|_]; [auto|discriminate].
Qed.

Lemma digit_keys_two (a b : NodeState) (th : option float)
    (pri : option string) (adj : bool) (last : float) (gen : Z)
    (polling boot : bool) (ka kb : string) :
  isdigit ka = true -> isdigit kb = true ->
  digit_keys (mkPowerManager [(ka, a); (kb, b)] th pri adj last gen
                polling boot).
Proof.
  intros Ha Hb nid ns. cbn [nodes dict_get].
  destruct (String.eqb_spec nid ka) as [->|_]; [auto|].
  destruct (String.eqb_spec nid kb) as [->|_]; [auto|discriminate].
Qed.

(** ** Lines that are not telemetry *)

Lemma split_once_none (sep s : string) :
  contains sep s = false -> split_once sep s = None.
Proof.
  induction s as [|c s IH]; cbn [contains split_once].
  - rewrite orb_false_r. now intros ->.
  - intros H. apply orb_false_elim in H as [-> H]. now rewrite IH.
Qed.

Lemma gw_with_buf_same (gw : Gateway) :
  _chunk_buf gw = "" -> gw_with_buf gw "" = gw.
Proof. destruct gw. cbn. now intros ->. Qed.

Lemma prefix_head (c : ascii) (p s : string) :
  prefix (String c p) s = true -> exists s', s = String c s'.
Proof.
  destruct s as [|b s]; [discriminate|]. cbn [prefix].
  destruct (ascii_dec c b) as [->|]; [eauto|discriminate].
Qed.

Lemma prefix_other_head (c b : ascii) (p s : string) :
  c <> b -> prefix (String c p) (String b s) = false.
Proof.
  intros H. cbn [prefix]. destruct (ascii_dec c b); [contradiction|reflexivity].
Qed.

(** ** Scanning *)

Lemma for_each_log (os : list Output) (gw : Gateway) :
  for_each os log gw = (Ok tt, gw_with_out gw (out gw ++ os)).
Proof.
  revert gw. induction os as [|o os IH]; intros gw; cbn [for_each].
  - unfold ret. rewrite app_nil_r. now destruct gw.
  - unfold bind, log at 1. rewrite IH. cbn. now rewrite <- app_assoc.
Qed.

Lemma scan_for_nodes_result
    (devices : dict (BLEDevice * AdvertisementData))
    (target : option string) (gw : Gateway) :
  exists o,
    scan_for_nodes devices target gw
    = (Ok (scan_hits devices target), gw_with_out gw o).
Proof.
  unfold scan_for_nodes.
  set (found := flat_map _ devices).
  assert (Hhits : map fst found = scan_hits devices target).
  { subst found. unfold scan_hits.
    induction devices as [|[k [dev adv]] ds IH]; [reflexivity|].
    cbn [flat_map fst snd]. rewrite map_app, IH.
    now destruct (scan_match target dev adv). }
  rewrite Hhits.
  unfold bind at 1, log at 1. unfold bind at 1. rewrite for_each_log.
  destruct found; cbv [bind log ret]; eexists; reflexivity.
Qed.

Lemma scan_match_some (target : option string) (dev : BLEDevice)
    (adv : AdvertisementData) :
  scan_match target dev adv <> None <-> matches_scan target dev adv.
Proof.
  unfold scan_match, matches_scan.
  assert (Htruthy : forall s, truthy s = true
                              <-> exists t, s = Some t /\ t <> "").
  { intros [[|c t]|]; cbn; split; try discriminate.
    - intros (t & [= <-] & H). contradiction.
    - intros _. eexists. split; [reflexivity|discriminate].
    - reflexivity.
    - intros (t & H & _). discriminate. }
  assert (Hname : forall n, name dev = Some n -> n <> "" ->
                            name_or dev "" = n).
  { intros n Hn Hne. unfold name_or. rewrite Hn. now destruct n. }
  destruct (truthy target
            && String.eqb (upper (address dev))
                 (upper match target with Some t => t | None => "" end))
    eqn:Haddr.
  - split; [|discriminate]. intros _. left.
    apply andb_prop in Haddr as [Ht Heq].
    apply Htruthy in Ht as (t & -> & Hne).
    apply String.eqb_eq in Heq. eauto.
  - assert (Hno : ~ exists t, target = Some t /\ t <> ""
                              /\ upper (address dev) = upper t).
    { intros (t & -> & Hne & Heq).
      assert (truthy (Some t) = true) by (apply Htruthy; eauto).
      rewrite H, Heq, String.eqb_refl in Haddr. discriminate. }
    destruct (truthy (name dev)
              && existsb (fun p => contains p (name_or dev ""))
                   DEVICE_NAME_PREFIXES) eqn:Hnm.
    + split; [|discriminate]. intros _. right. left.
      apply andb_prop in Hnm as [Ht Hex].
      apply Htruthy in Ht as (n & Hn & Hne).
      apply existsb_exists in Hex as (p & Hp & Hc).
      rewrite (Hname n Hn Hne) in Hc. eauto.
    + assert (Hno2 : ~ exists n p, name dev = Some n
                                   /\ In p DEVICE_NAME_PREFIXES
                                   /\ contains p n = true).
      { intros (n & p & Hn & Hp & Hc).
        assert (Hne : n <> "").
        { intros ->. cbn in Hp. destruct Hp as [<-|[<-|[]]]; discriminate. }
        assert (truthy (name dev) = true) by (apply Htruthy; eauto).
        rewrite H in Hnm. cbn [andb] in Hnm.
        rewrite (Hname n Hn Hne) in Hnm.
        assert (existsb (fun p => contains p n) DEVICE_NAME_PREFIXES = true)
          by (apply existsb_exists; eauto).
        congruence. }
      destruct (service_uuids adv) as [|u us] eqn:Hu.
      * split; [congruence|].
        intros [H|[H|H]]; [contradiction|contradiction|destruct H].
      * destruct (existsb (String.eqb (lower DC_MONITOR_SERVICE_UUID))
                    (map lower (u :: us))) eqn:Hex.
        -- split; [|discriminate]. intros _. right. right.
           now apply existsb_eqb_in.
        -- split; [congruence|].
           intros [H|[H|H]]; [contradiction|contradiction|].
           apply existsb_eqb_in in H. congruence.
Qed.

Lemma scan_hits_in (devices : dict (BLEDevice * AdvertisementData))
    (target : option string) (dev : BLEDevice) :
  In dev (scan_hits devices target) <->
  exists k adv, In (k, (dev, adv)) devices
                /\ scan_match target dev adv <> None.
Proof.
  unfold scan_hits. rewrite in_flat_map. split.
  - intros ([k [d adv]] & Hin & Hd). cbn [fst snd] in Hd.
    destruct (scan_match target d adv) eqn:Hm; [|contradiction].
    destruct Hd as [->|[]]. exists k, adv. split; [exact Hin|congruence].
  - intros (k & adv & Hin & Hm). exists (k, (dev, adv)).
    split; [exact Hin|]. cbn [fst snd].
    destruct (scan_match target dev adv); [now left|contradiction].
Qed.

Lemma scan_hits_subseq (devices : dict (BLEDevice * AdvertisementData))
    (target : option string) :
  subseq (scan_hits devices target) (map (fun e => fst (snd e)) devices).
Proof.
  unfold scan_hits. induction devices as [|e ds IH]; [constructor|].
  cbn [flat_map map].
  destruct (scan_match target (fst (snd e)) (snd (snd e))); cbn [app].
  - now apply subseq_take.
  - now apply subseq_skip.
Qed.

(** ** Enabling the threshold *)



(** ** Adjusting, then switching off *)

Lemma disable_unfold (gw : Gateway) (pm : PowerManager) :
  _power_manager gw = Some pm ->
  NoDup (dict_keys (nodes pm)) ->
  no_broadcast_id pm ->
  exists g d',
    disable gw
    = (Ok tt, gw_with_out g (out g ++ [Log "[POWER] Threshold disabled"]))
    /\ _power_manager g = Some (pm_with_nodes (pm_switched_off pm) d')
    /\ dict_keys d' = dict_keys (nodes pm)
    /\ (forall k ns,
          dict_get k (nodes pm) = Some ns ->
          dict_get k d' = Some (set_commanded ns 0))
    /\ connected g = connected gw
    /\ _chunk_buf g = _chunk_buf gw
    /\ written g =
         (written gw ++
          if connected gw
          then map restore_cmd (filter needs_restore (dict_values (nodes pm)))
          else [])%list.
Proof.
  intros Hpm Hnd Hids.
  unfold disable. unfold bind at 1, with_pm at 1. rewrite Hpm.
  unfold put_pm at 1. unfold bind at 1, sleep at 1.
  unfold bind at 1, with_pm at 1.
  cbn [_power_manager gw_with_clock gw_with_pm nodes pm_switched_off].
  match goal with
  | |- context [for_each _ restore_node ?g] =>
      destruct (restore_loop (dict_keys (nodes pm)) g (pm_switched_off pm)
                  eq_refl Hnd)
        as (gw' & d' & -> & Hpm' & Hkeys & Hget & Hc & Hb & Hw);
        [auto|exact Hids|]
  end.
  cbn [nodes pm_switched_off connected _chunk_buf written gw_with_clock
       gw_with_pm] in *.
  exists gw', d'. split; [reflexivity|].
  split; [exact Hpm'|]. split; [exact Hkeys|].
  split; [|split; [exact Hc|split; [exact Hb|]]].
  - intros k ns Hk. rewrite Hget, Hk.
    apply dict_get_in_keys, existsb_eqb_in in Hk. now rewrite Hk.
  - rewrite Hw. f_equal. destruct (connected gw); [|reflexivity].
    rewrite (flat_map_keys
               (fun ns => if needs_restore ns then [restore_cmd ns] else [])
               (nodes pm) Hnd).
    apply flat_map_filter.
Qed.

Lemma evaluate_shape (gw : Gateway) (pm : PowerManager) :
  _power_manager gw = Some pm ->
  exists pm1,
    _power_manager (snd (_evaluate_and_adjust gw)) = Some pm1
    /\ connected (snd (_evaluate_and_adjust gw)) = connected gw
    /\ dict_keys (nodes pm1) = dict_keys (nodes pm)
    /\ forall k,
         match dict_get k (nodes pm), dict_get k (nodes pm1) with
         | Some a, Some b => same_but_commanded a b
         | None, None => True
         | _, _ => False
         end.
Proof.
  intros Hpm.
  destruct (evaluate_outcome gw pm Hpm)
    as [-> | (r & g & pmg & _ & _ & HI & Hpmg & Hrun)].
  - exists pm. cbn [snd]. repeat split; auto.
    intros k. destruct (dict_get k (nodes pm));
      [apply same_but_commanded_refl|exact I].
  - destruct HI as (Hc & _ & pmg' & Hpmg' & _ & _ & _ & _ & _ & _ & _ & Hk
                    & Hreg).
    assert (pmg' = pmg) by congruence. subst pmg'.
    cbn [connected gw_with_pm nodes pm_with_adjusting] in *.
    destruct Hrun as [(_ & ->) | (_ & ->)]; cbn [snd];
      eexists; (split; [reflexivity|]);
      cbn [connected gw_with_pm nodes pm_with_adjusting
           pm_with_last_adjustment];
      auto.
Qed.

(* ================================================================== *)
(** * Further theorems                                                  *)
(* ================================================================== *)

(** ** Which nodes the operator can address *)



(** X2: with a target that the [node] command or the [--node] option
    accepted, no operator command other than [raw] puts a command that
    contains [ALL] on the wire: a broadcast is always expanded. *)
Theorem accepted_target_never_writes_ALL (t : string) (c : Command)
    (gw : Gateway) :
  accepted_target t ->
  is_raw c = false ->
  Forall no_ALL (written gw) ->
  Forall no_ALL (written (snd (dispatch_command t c gw))).
Proof.
  intros Hacc Hraw Hold.
  apply accepted_target_cases in Hacc.
  destruct c; cbn [dispatch_command]; try discriminate.
  - unfold stop_node, bind.
    apply send_to_node_no_ALL; cbn; auto 10.
  - apply send_to_node_no_ALL; cbn; auto 10.
  - apply send_to_node_no_ALL; cbn; auto 10.
  - apply send_to_node_no_ALL; cbn; auto 10.
  - unfold start_monitor, bind.
    apply send_to_node_no_ALL; cbn; auto 10.
  - destruct (set_duty_split t val false false gw)
      as (gw1 & -> & _ & _ & Hw & _).
    apply send_to_node_no_ALL; cbn [VERBS In decimal_value]; auto 10.
    + apply str_of_int_percent. unfold clamp_percent. lia.
    + now rewrite Hw.
Qed.

(** After [node all], [duty 40] over the registry 10, 2, 1. *)
Lemma accepted_target_never_writes_ALL_three_nodes :
  accepted_target "ALL"
  /\ written (snd (dispatch_command "ALL" (CmdDuty 40) three_nodes))
     = ["1:DUTY:40"; "2:DUTY:40"; "10:DUTY:40"]
  /\ Forall no_ALL
       (written (snd (dispatch_command "ALL" (CmdDuty 40) three_nodes))).
Proof.
  assert (Hacc : accepted_target "ALL").
  { exists "all". left. reflexivity. }
  split; [exact Hacc|]. split; [reflexivity|].
  apply (accepted_target_never_writes_ALL "ALL" (CmdDuty 40) three_nodes Hacc).
  - reflexivity.
  - constructor.
Defined.

(** ** A link that is down *)

(** X3: while the link is down no operator command writes anything; a
    command for a single node and a raw command report failure, but a
    broadcast reports success although nothing was sent. *)
Theorem link_down_writes_nothing (t : string) (c : Command) (gw : Gateway) :
  connected gw = false ->
  let '(r, gw') := dispatch_command t c gw in
  written gw' = written gw
  /\ connected gw' = false
  /\ r = Ok (negb (is_raw c) && String.eqb (upper t) "ALL").
Proof.
  intros Hdown.
  assert (Hsend : forall command value silent g,
             connected g = false ->
             let '(r, g') := send_to_node t command value silent g in
             written g' = written g /\ connected g' = false
             /\ r = Ok (String.eqb (upper t) "ALL")).
  { intros command value silent g Hg.
    destruct (send_to_node_result t command value silent g)
      as (g' & sent & -> & (Hc & _) & Hw & ->).
    rewrite Hg in *. rewrite app_nil_r in Hw.
    repeat split; try assumption.
    now destruct (String.eqb (upper t) "ALL"). }
  destruct c; cbn [dispatch_command is_raw negb andb].
  - unfold stop_node, bind.
    exact (Hsend "STOP" None false (gw_with_monitoring gw false) Hdown).
  - now apply Hsend.
  - now apply Hsend.
  - now apply Hsend.
  - unfold start_monitor, bind.
    exact (Hsend "MONITOR" None false (gw_with_monitoring gw true) Hdown).
  - destruct (set_duty_split t val false false gw)
      as (gw1 & -> & Hc & _ & Hw & _).
    specialize (Hsend "DUTY" (Some (str_of_int (clamp_percent val))) false gw1).
    destruct (send_to_node t "DUTY" _ false gw1) as [r g'].
    rewrite <- Hw. apply Hsend. congruence.
  - destruct (send_command_result gw (upper text) false)
      as (g' & -> & _ & Hc & _ & _ & Hw).
    rewrite Hdown in *. rewrite app_nil_r in Hw. auto.
Qed.

(** After a disconnect, a broadcast [duty 40] reports success and writes
    nothing. *)
Lemma link_down_writes_nothing_after_disconnect :
  connected (snd (disconnect three_nodes)) = false
  /\ let '(r, gw') :=
       dispatch_command "ALL" (CmdDuty 40) (snd (disconnect three_nodes)) in
     written gw' = [] /\ connected gw' = false /\ r = Ok true.
Proof.
  split; [reflexivity|].
  apply (link_down_writes_nothing "ALL" (CmdDuty 40)
           (snd (disconnect three_nodes))).
  reflexivity.
Defined.

(** ** A duty for every node *)

(** X4: an operator's duty request for ALL stores the requested value,
    clamped to [0,100], as the target of every registry entry and leaves
    the other fields of each entry alone; on an empty registry it creates
    the entries 1 and 2 with that target.  On a connected link it then
    writes one DUTY command, carrying the same value, for each
    digit-identified entry of the registry, and reports success. *)
Theorem set_duty_ALL_stores_target_everywhere (gw : Gateway)
    (pm : PowerManager) (node : string) (percent : Z) (silent : bool) :
  _power_manager gw = Some pm ->
  upper node = "ALL" ->
  let p := clamp_percent percent in
  let '(r, gw') := set_duty node percent false silent gw in
  r = Ok true
  /\ 0 <= p <= 100
  /\ (forall k ns,
        dict_get k (nodes pm) = Some ns ->
        dict_get k (registry_of gw') = Some (set_target ns p))
  /\ (forall k ns',
        dict_get k (registry_of gw') = Some ns' -> target_duty ns' = p)
  /\ (nodes pm = [] ->
      dict_get "1" (registry_of gw')
        = Some (set_target (NodeState_new "1" (clock gw)) p)
      /\ dict_get "2" (registry_of gw')
        = Some (set_target (NodeState_new "2" (clock gw)) p))
  /\ written gw' =
       (written gw ++
        if connected gw
        then map (fun nid => format_cmd nid "DUTY" (Some (str_of_int p)))
               (filter isdigit (expand_all (_power_manager gw')))
        else [])%list.
Proof.
  intros Hpm Hall p.
  destruct (set_duty_split node percent false silent gw)
    as (gw1 & -> & Hc1 & _ & Hw1 & _ & _ & Hreg).
  rewrite Hpm in Hreg. destruct Hreg as (d' & -> & Hget).
  rewrite Hall in Hget. cbn [String.eqb Ascii.eqb Bool.eqb] in Hget.
  fold p in Hget |- *.
  destruct (send_to_node_result node "DUTY" (Some (str_of_int p)) silent
              (gw_with_pm gw (Some (pm_with_nodes pm d'))))
    as (gw' & sent & -> & (_ & _ & Hpm') & Hw & ->).
  rewrite Hall in *. cbn [String.eqb Ascii.eqb Bool.eqb] in *.
  unfold registry_of. rewrite Hpm'.
  cbn [_power_manager gw_with_pm nodes pm_with_nodes connected written] in *.
  split; [reflexivity|].
  split; [unfold p, clamp_percent; lia|].
  split; [|split; [|split]].
  - intros k ns Hk. rewrite Hget, Hk.
    assert (Hin : existsb (String.eqb k)
                    match nodes pm with
                    | [] => ["1"; "2"]
                    | _ :: _ => dict_keys (nodes pm)
                    end = true).
    { apply existsb_eqb_in. apply dict_get_in_keys in Hk.
      destruct (nodes pm); [contradiction|exact Hk]. }
    now rewrite Hin.
  - intros k ns' Hk. rewrite Hget in Hk.
    destruct (existsb (String.eqb k) _) eqn:Hin.
    + injection Hk as <-. reflexivity.
    + exfalso. apply dict_get_in_keys in Hk.
      destruct (nodes pm) eqn:Hn; [contradiction|].
      apply existsb_eqb_in in Hk. congruence.
  - intros Hempty. rewrite !Hget, Hempty. split; reflexivity.
  - exact Hw.
Qed.

(** [duty 140] for ALL over the registry 10, 2, 1. *)
Lemma set_duty_ALL_stores_target_everywhere_three_nodes :
  upper "all" = "ALL"
  /\ written (snd (set_duty "all" 140 false false three_nodes))
     = ["1:DUTY:100"; "2:DUTY:100"; "10:DUTY:100"]
  /\ let '(r, gw') := set_duty "all" 140 false false three_nodes in
     r = Ok true
     /\ forall k ns',
          dict_get k (registry_of gw') = Some ns' -> target_duty ns' = 100.
Proof.
  split; [reflexivity|]. split; [reflexivity|].
  pose proof (set_duty_ALL_stores_target_everywhere three_nodes _ "all" 140
                false eq_refl eq_refl) as H.
  cbv zeta in H.
  destruct (set_duty "all" 140 false false three_nodes) as [r gw'].
  destruct H as (Hr & _ & _ & Ht & _).
  split; [exact Hr|exact Ht].
Defined.

(** ** What a notification can change *)

(** X5: whatever a notification carries, and whether or not its handler
    raises, handling it writes nothing to the command characteristic and
    leaves the link, the clock, the monitoring flag and every field of the
    power manager other than the registry alone.  In the registry no entry
    disappears, every existing entry keeps its node id and its target duty
    and, while a threshold is set, its commanded duty; an entry that the
    notification creates has no target. *)
Theorem notification_never_commands (ts data : string) (gw : Gateway) :
  let gw' := snd (notification_handler ts data gw) in
  written gw' = written gw
  /\ connected gw' = connected gw
  /\ clock gw' = clock gw
  /\ _monitoring gw' = _monitoring gw
  /\ match _power_manager gw with
     | None => _power_manager gw' = None
     | Some pm =>
         exists pm',
           _power_manager gw' = Some pm'
           /\ threshold_mw pm' = threshold_mw pm
           /\ priority_node pm' = priority_node pm
           /\ _adjusting pm' = _adjusting pm
           /\ _last_adjustment pm' = _last_adjustment pm
           /\ _poll_generation pm' = _poll_generation pm
           /\ _polling pm' = _polling pm
           /\ _needs_bootstrap pm' = _needs_bootstrap pm
           /\ forall k,
                match dict_get k (nodes pm), dict_get k (nodes pm') with
                | Some ns, Some ns' => reading_only pm ns ns'
                | None, Some ns' => target_duty ns' = 0 /\ node_id ns' = k
                | None, None => True
                | Some _, None => False
                end
     end.
Proof.
  assert (Hkeep : forall g,
            written g = written gw -> connected g = connected gw ->
            clock g = clock gw -> _monitoring g = _monitoring gw ->
            _power_manager g = _power_manager gw ->
            written g = written gw
            /\ connected g = connected gw
            /\ clock g = clock gw
            /\ _monitoring g = _monitoring gw
            /\ match _power_manager gw with
               | None => _power_manager g = None
               | Some pm =>
                   exists pm',
                     _power_manager g = Some pm'
                     /\ threshold_mw pm' = threshold_mw pm
                     /\ priority_node pm' = priority_node pm
                     /\ _adjusting pm' = _adjusting pm
                     /\ _last_adjustment pm' = _last_adjustment pm
                     /\ _poll_generation pm' = _poll_generation pm
                     /\ _polling pm' = _polling pm
                     /\ _needs_bootstrap pm' = _needs_bootstrap pm
                     /\ forall k,
                          match dict_get k (nodes pm), dict_get k (nodes pm')
                          with
                          | Some ns, Some ns' => reading_only pm ns ns'
                          | None, Some ns' =>
                              target_duty ns' = 0 /\ node_id ns' = k
                          | None, None => True
                          | Some _, None => False
                          end
               end).
  { intros g Hw Hc Hk Hm Hpm. repeat (split; [assumption|]).
    destruct (_power_manager gw) as [pm|]; [|exact Hpm].
    exists pm. repeat (split; [first [assumption|reflexivity]|]).
    intros k. destruct (dict_get k (nodes pm));
      [apply reading_only_refl|exact I]. }
  cbv zeta. unfold notification_handler.
  destruct (startswith (strip data) "+").
  - now apply Hkeep.
  - match goal with
    | |- context [handle_line ts ?line ?g] =>
        destruct (handle_line_state ts line g)
          as (o & [-> | (pm & nid & d & v & i & p & Hpm & ->)])
    end.
    + now apply Hkeep.
    + destruct (on_sensor_data_result (gw_with_buf gw "") pm nid d v i p Hpm)
        as (nodes' & -> & Hnid & Hother).
      cbn [snd gw_with_out gw_with_pm gw_with_buf written connected clock
           _monitoring _power_manager] in *.
      rewrite Hpm.
      repeat (split; [reflexivity|]).
      exists (pm_with_nodes pm nodes').
      repeat (split; [reflexivity|]).
      intros k. cbn [nodes pm_with_nodes].
      destruct (String.eqb_spec k nid) as [->|Hne].
      * rewrite Hnid. unfold entry_or_new.
        destruct (dict_get nid (nodes pm)) as [ns|].
        -- split; [reflexivity|]. split; [reflexivity|].
           intros Hth. cbn. destruct (threshold_mw pm); congruence.
        -- split; reflexivity.
      * rewrite (Hother k Hne).
        destruct (dict_get k (nodes pm));
          [apply reading_only_refl|exact I].
Qed.

(** ** Telemetry round trip *)



(** ** Marking stale nodes *)

(** X7: a stale sweep returns normally, writes nothing and leaves the
    clock, the registry keys and every power-manager field other than the
    registry alone.  In each entry only [responsive] can change, and it is
    only ever cleared: an entry is cleared exactly when its node id is a
    digit string and it was last seen more than 45 s ago; an entry that was
    unresponsive stays so however recent it is. *)
Theorem stale_sweep_only_clears_responsive (gw : Gateway)
    (pm : PowerManager) :
  _power_manager gw = Some pm ->
  let '(r, gw') := _mark_stale_nodes gw in
  r = Ok tt
  /\ written gw' = written gw
  /\ connected gw' = connected gw
  /\ clock gw' = clock gw
  /\ exists d',
       _power_manager gw' = Some (pm_with_nodes pm d')
       /\ dict_keys d' = dict_keys (nodes pm)
       /\ forall k ns,
            dict_get k (nodes pm) = Some ns ->
            dict_get k d'
            = Some (set_responsive ns
                      (responsive ns && negb (stale (clock gw) ns))).
Proof.
  intros Hpm. unfold _mark_stale_nodes, with_pm. rewrite Hpm.
  unfold bind at 1, monotonic at 1.
  destruct (mark_stale_loop (clock gw) (dict_keys (nodes pm)) gw pm Hpm)
    as (d' & extra & -> & Hkeys & Hget & _); [auto|].
  repeat (split; [reflexivity|]).
  exists d'. split; [reflexivity|]. split; [exact Hkeys|].
  intros k ns Hk. rewrite Hget, Hk.
  apply dict_get_in_keys, existsb_eqb_in in Hk. now rewrite Hk.
Qed.

(** Five minutes after start-up, nodes last seen at start-up are marked. *)
Lemma stale_sweep_only_clears_responsive_S1 :
  let '(r, gw') := _mark_stale_nodes Scenario.S1 in
  r = Ok tt
  /\ written gw' = []
  /\ out gw' = [Log "[POWER] Node 1 unresponsive (300s)";
                Log "[POWER] Node 2 unresponsive (300s)"]
  /\ exists d',
       _power_manager gw' = Some (pm_with_nodes
                                    (mkPowerManager
                                       [("1", Scenario.node "1" 100 100 5000);
                                        ("2", Scenario.node "2" 100 100 5000)]
                                       (Some 4000%float) None false 0%float 1
                                       true false) d')
       /\ dict_get "1" d'
          = Some (set_responsive (Scenario.node "1" 100 100 5000) false).
Proof.
  pose proof (stale_sweep_only_clears_responsive Scenario.S1 _ eq_refl) as H.
  assert (Hout : out (snd (_mark_stale_nodes Scenario.S1))
                 = [Log "[POWER] Node 1 unresponsive (300s)";
                    Log "[POWER] Node 2 unresponsive (300s)"])
    by (vm_compute; reflexivity).
  destruct (_mark_stale_nodes Scenario.S1) as [r gw'].
  destruct H as (Hr & Hw & _ & _ & d' & Hpm' & _ & Hget).
  split; [exact Hr|]. split; [exact Hw|]. split; [exact Hout|].
  exists d'. split; [exact Hpm'|].
  exact (Hget "1" _ eq_refl).
Defined.

(** X8: a second stale sweep at the same clock reading changes nothing
    and logs nothing: each unresponsive node is reported once. *)
Theorem stale_sweep_idempotent (gw : Gateway) (pm : PowerManager) :
  _power_manager gw = Some pm ->
  let gw' := snd (_mark_stale_nodes gw) in
  _mark_stale_nodes gw' = (Ok tt, gw').
Proof.
  intros Hpm. cbv zeta.
  destruct (mark_stale_loop (clock gw) (dict_keys (nodes pm)) gw pm Hpm)
    as (d' & extra & Hrun & Hkeys & Hget & _); [auto|].
  assert (Hfirst : _mark_stale_nodes gw
                   = (Ok tt,
                      gw_with_out
                        (gw_with_pm gw (Some (pm_with_nodes pm d')))
                        (out gw ++ extra))).
  { unfold _mark_stale_nodes, with_pm. rewrite Hpm.
    unfold bind at 1, monotonic at 1. exact Hrun. }
  rewrite Hfirst. cbn [snd].
  unfold _mark_stale_nodes, with_pm.
  cbn [_power_manager gw_with_out gw_with_pm].
  unfold bind at 1, monotonic at 1.
  cbn [clock gw_with_out gw_with_pm nodes pm_with_nodes].
  apply for_each_identity. intros k Hin.
  destruct (in_keys_dict_get k d' Hin) as (ns & Hk).
  apply mark_stale_settled with (pm := pm_with_nodes pm d') (ns := ns);
    [reflexivity|exact Hk|].
  rewrite Hget in Hk.
  destruct (existsb (String.eqb k) (dict_keys (nodes pm))) eqn:Hmem.
  - destruct (dict_get k (nodes pm)) as [ns0|]; [|discriminate].
    injection Hk as <-. apply swept_idem.
  - apply dict_get_in_keys, existsb_eqb_in in Hk. congruence.
Qed.

(** The second sweep over scenario S1 reports nothing further. *)
Lemma stale_sweep_idempotent_S1 :
  out (snd (_mark_stale_nodes (snd (_mark_stale_nodes Scenario.S1))))
  = [Log "[POWER] Node 1 unresponsive (300s)";
     Log "[POWER] Node 2 unresponsive (300s)"].
Proof.
  rewrite (stale_sweep_idempotent Scenario.S1 _ eq_refl).
  vm_compute. reflexivity.
Defined.

(** ** Switching power management off *)

(** X9: [disable] clears the threshold and the polling flag, returns
    normally and, on a connected link, writes exactly one DUTY command for
    each node whose commanded duty differs from a positive target, in
    registry order, carrying that target clamped to [0,100]; afterwards
    every commanded duty is 0 while node ids, targets and readings are as
    before.  On a link that is down it writes nothing and resets the
    commanded duties all the same. *)
Theorem disable_restores_targets (gw : Gateway) (pm : PowerManager) :
  _power_manager gw = Some pm ->
  NoDup (dict_keys (nodes pm)) ->
  no_broadcast_id pm ->
  let '(r, gw') := disable gw in
  r = Ok tt
  /\ connected gw' = connected gw
  /\ _chunk_buf gw' = _chunk_buf gw
  /\ (exists pm',
        _power_manager gw' = Some pm'
        /\ threshold_mw pm' = None
        /\ _polling pm' = false
        /\ priority_node pm' = priority_node pm
        /\ dict_keys (nodes pm') = dict_keys (nodes pm)
        /\ forall k ns,
             dict_get k (nodes pm) = Some ns ->
             dict_get k (nodes pm') = Some (set_commanded ns 0))
  /\ written gw' =
       (written gw ++
        if connected gw
        then map restore_cmd (filter needs_restore (dict_values (nodes pm)))
        else [])%list.
Proof.
  intros Hpm Hnd Hids.
  destruct (disable_unfold gw pm Hpm Hnd Hids)
    as (g & d' & -> & Hpm' & Hkeys & Hget & Hc & Hb & Hw).
  cbn [connected _chunk_buf written _power_manager gw_with_out].
  split; [reflexivity|]. split; [exact Hc|]. split; [exact Hb|].
  split; [|exact Hw].
  exists (pm_with_nodes (pm_switched_off pm) d').
  split; [exact Hpm'|]. repeat (split; [reflexivity|]).
  split; [exact Hkeys|exact Hget].
Qed.

(** Node 1 held at 46 % below its target 100, node 2 at 23 % below a
    target that a reading of 150 % left behind. *)
Lemma disable_restores_targets_held_back :
  let gw := Scenario.gateway [Scenario.node "1" 46 100 2300;
                              set_target (Scenario.node "2" 23 0 1150) 150]
              4000 None in
  written (snd (disable gw)) = ["1:DUTY:100"; "2:DUTY:100"]
  /\ exists pm',
       _power_manager (snd (disable gw)) = Some pm'
       /\ threshold_mw pm' = None
       /\ option_map commanded_duty (dict_get "1" (nodes pm')) = Some 0.
Proof.
  cbv zeta.
  set (gw := Scenario.gateway [Scenario.node "1" 46 100 2300;
                               set_target (Scenario.node "2" 23 0 1150) 150]
               4000 None).
  assert (Hnd : NoDup ["1"; "2"]).
  { constructor; [|constructor; [|constructor]]; cbn; intuition discriminate. }
  pose proof (disable_restores_targets gw _ eq_refl Hnd) as H.
  assert (Hw : written (snd (disable gw)) = ["1:DUTY:100"; "2:DUTY:100"])
    by (vm_compute; reflexivity).
  split; [exact Hw|].
  destruct (disable gw) as [r gw'].
  destruct H as (_ & _ & _ & (pm' & Hpm' & Hth & _ & _ & _ & Hget) & _).
  { intros k ns Hk. cbn in Hk.
    destruct (String.eqb k "1"); [injection Hk as <-; discriminate|].
    destruct (String.eqb k "2"); [injection Hk as <-; discriminate|].
    discriminate. }
  exists pm'. split; [exact Hpm'|]. split; [exact Hth|].
  cbn [snd]. now rewrite (Hget "1" _ eq_refl).
Defined.

(** ** One poll cycle *)

(** X10: a poll returns normally and always advances the poll generation
    by one, leaving the registry and every other power-manager field
    alone.  While a threshold is set and the link is up it writes exactly
    one READ for each registry key that is a digit string, in ascending
    numeric order; with the threshold off it writes nothing. *)
Theorem poll_reads_each_node_once (gw : Gateway) (pm : PowerManager) :
  _power_manager gw = Some pm ->
  let '(r, gw') := _poll_all_nodes gw in
  r = Ok tt
  /\ connected gw' = connected gw
  /\ _chunk_buf gw' = _chunk_buf gw
  /\ (exists pm',
        _power_manager gw' = Some pm'
        /\ _poll_generation pm' = _poll_generation pm + 1
        /\ nodes pm' = nodes pm
        /\ threshold_mw pm' = threshold_mw pm
        /\ priority_node pm' = priority_node pm
        /\ _polling pm' = _polling pm)
  /\ written gw' =
       (written gw ++
        match threshold_mw pm with
        | Some _ =>
            if connected gw
            then map (fun nid => format_cmd nid "READ" None)
                   (poll_ids (nodes pm))
            else []
        | None => []
        end)%list
  /\ Permutation (poll_ids (nodes pm)) (filter isdigit (dict_keys (nodes pm)))
  /\ StronglySorted by_numeric_id (poll_ids (nodes pm)).
Proof.
  intros Hpm.
  assert (Hperm : Permutation (poll_ids (nodes pm))
                    (filter isdigit (dict_keys (nodes pm)))).
  { apply Permutation_filter, sort_by_perm. }
  assert (Hsorted : StronglySorted by_numeric_id (poll_ids (nodes pm))).
  { apply StronglySorted_within
      with (P := fun a => isdigit a = true) (R := key_le node_sort_key).
    - exact sort_key_of_digits.
    - apply Forall_forall. intros a Ha. now apply filter_In in Ha.
    - apply StronglySorted_filter, sort_by_sorted. }
  assert (Hrun : _poll_all_nodes gw
                 = poll_each (sort_by node_sort_key (dict_keys (nodes pm)))
                     (gw_with_pm gw (Some (pm_next_generation pm)))).
  { unfold _poll_all_nodes, with_pm. rewrite Hpm.
    unfold bind, put_pm. now destruct (nodes pm). }
  rewrite Hrun.
  destruct (threshold_mw pm) as [t|] eqn:Hth.
  - destruct (poll_each_on (sort_by node_sort_key (dict_keys (nodes pm)))
                (gw_with_pm gw (Some (pm_next_generation pm)))
                (pm_next_generation pm) t eq_refl Hth)
      as (gw' & -> & (Hc & Hb & Hpm') & Hw).
    split; [reflexivity|]. split; [exact Hc|]. split; [exact Hb|].
    split; [|split; [exact Hw|split; assumption]].
    exists (pm_next_generation pm). rewrite Hpm'. repeat split.
    exact Hth.
  - rewrite (poll_each_off
               (sort_by node_sort_key (dict_keys (nodes pm)))
               (gw_with_pm gw (Some (pm_next_generation pm)))
               (pm_next_generation pm) eq_refl Hth).
    cbn [connected _chunk_buf written gw_with_pm _power_manager].
    rewrite app_nil_r.
    repeat (split; [reflexivity|]).
    split; [|split; [reflexivity|split; assumption]].
    exists (pm_next_generation pm). repeat split. exact Hth.
Qed.

(** One poll over a registry holding the nodes 10, 2 and 1. *)
Lemma poll_reads_each_node_once_three_nodes :
  let '(r, gw') := _poll_all_nodes three_nodes in
  r = Ok tt
  /\ written gw' = ["1:READ"; "2:READ"; "10:READ"]
  /\ exists pm', _power_manager gw' = Some pm' /\ _poll_generation pm' = 2.
Proof.
  pose proof (poll_reads_each_node_once three_nodes _ eq_refl) as H.
  destruct (_poll_all_nodes three_nodes) as [r gw'].
  destruct H as (Hr & _ & _ & (pm' & Hpm' & Hgen & _) & Hw & _).
  split; [exact Hr|]. split; [exact Hw|].
  exists pm'. split; [exact Hpm'|exact Hgen].
Defined.

(** X11: a reading handled after a poll carries the generation of that
    poll, so the node counts as fresh for the cycle, and is marked
    responsive; the entries of the nodes that did not answer are exactly
    as they were before the poll, with their older generation. *)
Theorem reading_after_poll_is_fresh (gw : Gateway) (pm : PowerManager)
    (nid : string) (d : Z) (v i p : float) :
  _power_manager gw = Some pm ->
  let gw1 := snd (_poll_all_nodes gw) in
  let gw2 := snd (on_sensor_data nid d v i p gw1) in
  exists pm2 ns,
    _power_manager gw2 = Some pm2
    /\ _poll_generation pm2 = _poll_generation pm + 1
    /\ dict_get nid (nodes pm2) = Some ns
    /\ poll_gen ns = _poll_generation pm2
    /\ responsive ns = true
    /\ duty ns = d /\ power ns = p
    /\ forall k, k <> nid -> dict_get k (nodes pm2) = dict_get k (nodes pm).
Proof.
  intros Hpm. cbv zeta.
  assert (Hrun : exists gw1,
             _poll_all_nodes gw = (Ok tt, gw1)
             /\ _power_manager gw1 = Some (pm_next_generation pm)).
  { assert (Heq : _poll_all_nodes gw
                  = poll_each (sort_by node_sort_key (dict_keys (nodes pm)))
                      (gw_with_pm gw (Some (pm_next_generation pm)))).
    { unfold _poll_all_nodes, with_pm. rewrite Hpm.
      unfold bind, put_pm. now destruct (nodes pm). }
    rewrite Heq.
    destruct (threshold_mw pm) as [t|] eqn:Hth.
    - destruct (poll_each_on (sort_by node_sort_key (dict_keys (nodes pm)))
                  (gw_with_pm gw (Some (pm_next_generation pm)))
                  (pm_next_generation pm) t eq_refl Hth)
        as (gw' & -> & (_ & _ & Hpm') & _).
      exists gw'. split; [reflexivity|exact Hpm'].
    - rewrite (poll_each_off
               (sort_by node_sort_key (dict_keys (nodes pm)))
               (gw_with_pm gw (Some (pm_next_generation pm)))
               (pm_next_generation pm) eq_refl Hth).
      eexists. split; reflexivity. }
  destruct Hrun as (gw1 & -> & Hpm1). cbn [snd].
  destruct (on_sensor_data_result gw1 _ nid d v i p Hpm1)
    as (nodes' & -> & Hget & Hother).
  cbn [snd].
  exists (pm_with_nodes (pm_next_generation pm) nodes'). eexists.
  split; [reflexivity|]. split; [reflexivity|].
  split; [exact Hget|].
  repeat (split; [reflexivity|]).
  intros k Hk. exact (Hother k Hk).
Qed.

(** Node 2 answers the poll over the registry 10, 2, 1. *)
Lemma reading_after_poll_is_fresh_three_nodes :
  exists pm2 ns,
    _power_manager
      (snd (on_sensor_data "2" 40 12 100 1200
              (snd (_poll_all_nodes three_nodes)))) = Some pm2
    /\ _poll_generation pm2 = 2
    /\ dict_get "2" (nodes pm2) = Some ns
    /\ poll_gen ns = 2.
Proof.
  destruct (reading_after_poll_is_fresh three_nodes _ "2" 40 12 100 1200
              eq_refl)
    as (pm2 & ns & Hpm2 & Hgen & Hget & Hfresh & _).
  exists pm2, ns. split; [exact Hpm2|]. split; [exact Hgen|].
  split; [exact Hget|]. rewrite Hfresh. exact Hgen.
Defined.

(** ** Discovery *)

(** X12: discovery, when no notification is handled while it runs, leaves
    the power manager as it is and probes only the expected nodes 1 and 2:
    a node already in the registry is sent nothing, an unknown one is sent
    READ three times, node 1 before node 2; with the threshold off or the
    link down nothing is written. *)
Theorem bootstrap_probes_unknown_nodes (gw : Gateway) (pm : PowerManager) :
  _power_manager gw = Some pm ->
  let '(r, gw') := _bootstrap_discovery gw in
  r = Ok tt
  /\ _power_manager gw' = Some pm
  /\ connected gw' = connected gw
  /\ written gw' =
       (written gw ++
        match threshold_mw pm with
        | Some _ => if connected gw
                    then probes pm "1" ++ probes pm "2"
                    else []
        | None => []
        end)%list.
Proof.
  intros Hpm. unfold _bootstrap_discovery.
  unfold bind at 1, log at 1.
  set (gw0 := gw_with_out gw _).
  assert (Hpm0 : _power_manager gw0 = Some pm) by exact Hpm.
  cbn [probe_each]. unfold with_pm at 1. rewrite Hpm0.
  destruct (threshold_mw pm) as [t|] eqn:Hth.
  - unfold bind at 1.
    destruct (probe_node_probes 1 gw0 pm eq_refl Hpm0)
      as (gw1 & -> & (Hc1 & _ & Hpm1) & Hw1).
    unfold with_pm at 1. rewrite Hpm1, Hpm0, Hth.
    unfold bind at 1.
    assert (Hpm1' : _power_manager gw1 = Some pm) by congruence.
    destruct (probe_node_probes 2 gw1 pm eq_refl Hpm1')
      as (gw2 & -> & (Hc2 & _ & Hpm2) & Hw2).
    unfold ret.
    split; [reflexivity|]. split; [congruence|].
    split; [rewrite Hc2, Hc1; reflexivity|].
    rewrite Hw2, Hw1, Hc1.
    change (connected gw0) with (connected gw).
    change (written gw0) with (written gw).
    change (str_of_int 1) with "1". change (str_of_int 2) with "2".
    destruct (connected gw); rewrite <- ?app_assoc, ?app_nil_r; reflexivity.
  - unfold ret. rewrite app_nil_r. repeat split; assumption.
Qed.

(** Discovery with node 1 known and node 2 unknown. *)
Lemma bootstrap_probes_unknown_nodes_one_known :
  let gw := Scenario.gateway [Scenario.node "1" 50 50 2500] 4000 None in
  let '(r, gw') := _bootstrap_discovery gw in
  r = Ok tt /\ written gw' = ["2:READ"; "2:READ"; "2:READ"].
Proof.
  cbv zeta.
  pose proof (bootstrap_probes_unknown_nodes
                (Scenario.gateway [Scenario.node "1" 50 50 2500] 4000 None)
                _ eq_refl) as H.
  destruct (_bootstrap_discovery _) as [r gw'].
  destruct H as (Hr & _ & _ & Hw).
  split; [exact Hr|exact Hw].
Defined.

(** ** What an evaluation leaves alone *)

(** X13: an evaluation, whether it holds back, completes or raises, leaves
    the link, the threshold, the priority node, the poll generation, the
    polling and bootstrap flags and the registry keys alone, changes no
    field of any registry entry other than the commanded duty, and leaves
    the in-progress flag as it found it: the [finally] clause clears the
    flag even when the balancing pass raises.  The time of the last
    adjustment is as before, or, after a pass that completed, the clock
    reading at its end. *)
Theorem evaluation_keeps_policy (gw : Gateway) (pm : PowerManager) :
  _power_manager gw = Some pm ->
  let '(r, gw') := _evaluate_and_adjust gw in
  connected gw' = connected gw
  /\ _chunk_buf gw' = _chunk_buf gw
  /\ exists pm',
       _power_manager gw' = Some pm'
       /\ threshold_mw pm' = threshold_mw pm
       /\ priority_node pm' = priority_node pm
       /\ _adjusting pm' = _adjusting pm
       /\ _poll_generation pm' = _poll_generation pm
       /\ _polling pm' = _polling pm
       /\ _needs_bootstrap pm' = _needs_bootstrap pm
       /\ dict_keys (nodes pm') = dict_keys (nodes pm)
       /\ (forall k,
             match dict_get k (nodes pm), dict_get k (nodes pm') with
             | Some a, Some b => same_but_commanded a b
             | None, None => True
             | _, _ => False
             end)
       /\ (_last_adjustment pm' = _last_adjustment pm
           \/ (r = Ok tt /\ _last_adjustment pm' = clock gw')).
Proof.
  intros Hpm.
  destruct (evaluate_outcome gw pm Hpm)
    as [-> | (r & g & pmg & Hadj & _ & HI & Hpmg & Hrun)].
  - repeat (split; [reflexivity|]).
    exists pm. repeat (split; [first [assumption|reflexivity]|]).
    split; [|now left].
    intros k. destruct (dict_get k (nodes pm));
      [apply same_but_commanded_refl|exact I].
  - destruct HI as (Hc & Hb & pmg' & Hpmg' & Ht & Hp & Ha & Hl & Hg & Hpo
                    & Hn & Hk & Hreg).
    assert (pmg' = pmg) by congruence. subst pmg'.
    cbn [connected _chunk_buf gw_with_pm threshold_mw priority_node
         _last_adjustment _poll_generation _polling _needs_bootstrap nodes
         pm_with_adjusting] in *.
    destruct Hrun as [(-> & ->) | (Hr & ->)];
      cbn [connected _chunk_buf gw_with_pm];
      (split; [exact Hc|]); (split; [exact Hb|]);
      eexists; (split; [reflexivity|]);
      cbn [threshold_mw priority_node _adjusting _last_adjustment
           _poll_generation _polling _needs_bootstrap nodes
           pm_with_adjusting pm_with_last_adjustment clock gw_with_pm];
      repeat (split; [first [assumption|congruence]|]);
      [right; split; reflexivity | left; exact Hl].
Qed.

(** Scenario S1, and the registry of the underflowing estimate, where the
    balancing pass raises: the flag is clear afterwards in both. *)
Lemma evaluation_keeps_policy_S1 :
  (exists pm',
     _power_manager (snd (_evaluate_and_adjust Scenario.S1)) = Some pm'
     /\ _adjusting pm' = false
     /\ threshold_mw pm' = Some 4000%float)
  /\ fst (_evaluate_and_adjust Scenario.tiny_gateway)
     = Raise ZeroDivisionError
  /\ exists pm',
       _power_manager (snd (_evaluate_and_adjust Scenario.tiny_gateway))
         = Some pm'
       /\ _adjusting pm' = false.
Proof.
  pose proof (evaluation_keeps_policy Scenario.S1 _ eq_refl) as H1.
  pose proof (evaluation_keeps_policy Scenario.tiny_gateway _ eq_refl) as H2.
  assert (Hr : fst (_evaluate_and_adjust Scenario.tiny_gateway)
               = Raise ZeroDivisionError) by (vm_compute; reflexivity).
  destruct (_evaluate_and_adjust Scenario.S1) as [r1 g1].
  destruct (_evaluate_and_adjust Scenario.tiny_gateway) as [r2 g2].
  destruct H1 as (_ & _ & pm1 & Hpm1 & Ht1 & _ & Ha1 & _).
  destruct H2 as (_ & _ & pm2 & Hpm2 & _ & _ & Ha2 & _).
  split; [|split; [exact Hr|]].
  - exists pm1. split; [exact Hpm1|]. split; [exact Ha1|exact Ht1].
  - exists pm2. split; [exact Hpm2|exact Ha2].
Defined.

(** X14: after an evaluation that returned normally, a further evaluation
    before the clock has moved does nothing: either the first one held
    back, and so does the second, or the first one adjusted and the
    cooldown holds the second one back. *)
Theorem evaluation_then_cooldown (gw : Gateway) (pm : PowerManager) :
  _power_manager gw = Some pm ->
  fst (_evaluate_and_adjust gw) = Ok tt ->
  finite (clock (snd (_evaluate_and_adjust gw))) = true ->
  _evaluate_and_adjust (snd (_evaluate_and_adjust gw))
  = (Ok tt, snd (_evaluate_and_adjust gw)).
Proof.
  intros Hpm Hok Hfin.
  destruct (evaluate_outcome gw pm Hpm)
    as [Hheld | (r & g & pmg & Hadj & Hth & HI & Hpmg & Hrun)].
  - rewrite Hheld. cbn [snd]. exact Hheld.
  - destruct Hrun as [(-> & Hrun) | (Hr & Hrun)];
      rewrite Hrun in *; cbn [fst snd] in *; [|contradiction].
    destruct HI as (_ & _ & pmg' & Hpmg' & Ht & _).
    assert (pmg' = pmg) by congruence. subst pmg'.
    cbn [threshold_mw pm_with_adjusting] in Ht.
    unfold _evaluate_and_adjust, with_pm.
    cbn [_power_manager gw_with_pm threshold_mw _adjusting
         pm_with_adjusting pm_with_last_adjustment].
    rewrite Ht.
    destruct (threshold_mw pm) as [th|]; [|contradiction].
    unfold bind at 1, monotonic at 1.
    cbn [clock gw_with_pm _last_adjustment pm_with_adjusting
         pm_with_last_adjustment] in *.
    now rewrite (sub_self_within_cooldown (clock g) Hfin).
Qed.

(** Scenario S1: the second evaluation writes nothing further. *)
Lemma evaluation_then_cooldown_S1 :
  written (snd (_evaluate_and_adjust Scenario.S1))
    = ["1:DUTY:35"; "2:DUTY:35"]
  /\ _evaluate_and_adjust (snd (_evaluate_and_adjust Scenario.S1))
     = (Ok tt, snd (_evaluate_and_adjust Scenario.S1)).
Proof.
  split; [vm_compute; reflexivity|].
  apply (evaluation_then_cooldown Scenario.S1 _ eq_refl).
  - vm_compute. reflexivity.
  - vm_compute. reflexivity.
Defined.

(** ** The order of an adjustment *)

(** X15: whatever an evaluation writes is a sequence of DUTY commands with
    values in [0,100], addressed to responsive nodes only, each node at
    most once, in this order: the priority node first when it is
    responsive, then the other responsive nodes by ascending sort key.
    This holds whether the evaluation completes or raises part-way. *)
Theorem adjustment_order (gw : Gateway) (pm : PowerManager) :
  _power_manager gw = Some pm ->
  no_broadcast_key pm ->
  exists cs,
    written (snd (_evaluate_and_adjust gw))
      = (written gw ++ map duty_cmd cs)%list
    /\ subseq (map fst cs) (nudge_order pm)
    /\ Forall (fun c => 0 <= snd c <= 100) cs
    /\ (forall nid, In nid (map fst cs) ->
                    In nid (dict_keys (responsive_nodes pm)))
    /\ (NoDup (dict_keys (nodes pm)) -> NoDup (map fst cs)).
Proof.
  intros Hpm Hkeys.
  destruct (evaluate_emits gw pm Hpm Hkeys) as (cs & Hw & Hs & Hv).
  exists cs. repeat split; try assumption.
  - intros nid Hin. apply nudge_order_responsive.
    eapply subseq_in; eassumption.
  - intros Hnd. eapply subseq_nodup; [exact Hs|].
    now apply nudge_order_nodup.
Qed.

(** Node 2 has priority over nodes 10 and 1: it is commanded first, then
    node 1, then node 10. *)
Lemma adjustment_order_three_nodes_priority :
  written (snd (_evaluate_and_adjust three_nodes_priority))
    = ["2:DUTY:35"; "1:DUTY:17"; "10:DUTY:17"]
  /\ exists cs,
       written (snd (_evaluate_and_adjust three_nodes_priority))
         = map duty_cmd cs
       /\ subseq (map fst cs) ["2"; "1"; "10"].
Proof.
  split; [vm_compute; reflexivity|].
  destruct (adjustment_order three_nodes_priority _ eq_refl)
    as (cs & Hw & Hs & _).
  { apply digit_keys_no_broadcast, digit_keys_three; reflexivity. }
  exists cs. split; [exact Hw|exact Hs].
Defined.

(** ** Witnesses for the adjustment as a whole *)

(** Scenario S2: both commands stay within the targets. *)
Lemma adjustment_within_targets_S2 :
  exists sent,
    written (snd (_evaluate_and_adjust Scenario.S2)) = sent
    /\ Forall
         (duty_command_ok
            (mkPowerManager
               [("1", Scenario.node "1" 100 100 5000);
                ("2", Scenario.node "2" 100 100 5000)]
               (Some 4000%float) (Some "1") false 0%float 1 true false))
         sent.
Proof.
  destruct (adjustment_within_targets Scenario.S2 _ eq_refl)
    as (sent & Hw & Hok & _).
  { apply digit_keys_no_broadcast, digit_keys_two; reflexivity. }
  exists sent. split; [exact Hw|exact Hok].
Defined.

(** The registry 10, 2, 1 with priority on node 2: nothing written
    contains ALL. *)
Lemma adjustment_writes_no_ALL_three_nodes_priority :
  exists sent,
    written (snd (_evaluate_and_adjust three_nodes_priority)) = sent
    /\ Forall no_ALL sent.
Proof.
  destruct (adjustment_writes_no_ALL three_nodes_priority _ eq_refl)
    as (sent & Hw & Hok).
  { apply digit_keys_three; reflexivity. }
  exists sent. split; [exact Hw|exact Hok].
Defined.

(** ** Enabling the threshold, then adjusting *)



(** ** Disconnecting *)

(** X17: [disconnect] returns normally, brings the link down, writes
    nothing and empties the continuation buffer, so a partial chunk
    buffered before it is dropped: the next final chunk is handled on its
    own, not glued to that stale text. *)
Theorem disconnect_drops_partial_chunk (ts data : string) (gw : Gateway) :
  startswith (strip data) "+" = false ->
  let gw1 := snd (disconnect gw) in
  fst (disconnect gw) = Ok tt
  /\ connected gw1 = false
  /\ _chunk_buf gw1 = ""
  /\ written gw1 = written gw
  /\ _power_manager gw1 = _power_manager gw
  /\ notification_handler ts data gw1 = handle_line ts (strip data) gw1.
Proof.
  intros Hfinal. cbv zeta.
  rewrite (handler_final ts data (snd (disconnect gw)) Hfinal).
  unfold disconnect. cbn [fst snd].
  destruct (connected gw) eqn:Hc; cbn; auto 10.
Qed.

(** A reading buffered half-way is lost across a disconnect. *)
Lemma disconnect_drops_partial_chunk_half_line :
  let gw := snd (notification_handler "12:00:00" "+NODE1:DATA:D:5"
                   Scenario.idle) in
  _chunk_buf gw = "NODE1:DATA:D:5"
  /\ fst (notification_handler "12:00:01" "MESH_READY" (snd (disconnect gw)))
     = Ok (ReadyLine "MESH_READY").
Proof.
  cbv zeta. split; [reflexivity|].
  destruct (disconnect_drops_partial_chunk "12:00:01" "MESH_READY"
              (snd (notification_handler "12:00:00" "+NODE1:DATA:D:5"
                      Scenario.idle)) eq_refl)
    as (_ & _ & _ & _ & _ & ->).
  reflexivity.
Defined.

(** ** Errors during a poll cycle *)

(** X18: while a poll cycle is active, a line that starts with [ERROR:]
    or [TIMEOUT:] and is not a data line leaves no trace: nothing is
    logged and, with an empty continuation buffer, the state is exactly
    what it was. *)
Theorem errors_silent_while_polling (ts data : string) (gw : Gateway) :
  _chunk_buf gw = "" ->
  polling_now gw = true ->
  contains ":DATA:" (strip data) = false ->
  startswith (strip data) "ERROR:" = true
  \/ startswith (strip data) "TIMEOUT:" = true ->
  snd (notification_handler ts data gw) = gw
  /\ (fst (notification_handler ts data gw) = Ok (ErrorLine (strip data))
      \/ fst (notification_handler ts data gw) = Ok (TimeoutLine (strip data))).
Proof.
  intros Hbuf Hpoll Hdata Hkind.
  assert (Hplus : startswith (strip data) "+" = false).
  { unfold startswith in *.
    destruct Hkind as [H|H]; apply prefix_head in H as (s' & ->);
      apply prefix_other_head; discriminate. }
  rewrite (handler_final ts data gw Hplus), Hbuf.
  change ("" ++ strip data) with (strip data).
  rewrite (gw_with_buf_same gw Hbuf).
  unfold handle_line. rewrite (split_once_none _ _ Hdata), Hpoll.
  destruct Hkind as [H|H].
  - rewrite H. cbv [bind ret]. auto.
  - assert (Hother : startswith (strip data) "ERROR:" = false
                     /\ startswith (strip data) "SENT:" = false
                     /\ startswith (strip data) "MESH_READY" = false).
    { unfold startswith in *. apply prefix_head in H as (s' & ->).
      repeat split; apply prefix_other_head; discriminate. }
    destruct Hother as (-> & -> & ->). rewrite H. cbv [bind ret]. auto.
Qed.

(** A node that times out during a poll of scenario S1. *)
Lemma errors_silent_while_polling_S1 :
  notification_handler "12:00:00" "TIMEOUT:2" Scenario.S1
  = (Ok (TimeoutLine "TIMEOUT:2"), Scenario.S1).
Proof.
  destruct (errors_silent_while_polling "12:00:00" "TIMEOUT:2" Scenario.S1
              eq_refl eq_refl eq_refl (or_intror eq_refl))
    as (Hstate & _).
  rewrite <- Hstate at 2. reflexivity.
Defined.

(** ** What a scan returns *)

(** X19: a scan returns normally and writes nothing; the devices it
    returns are discovered devices, in the order of discovery, and a
    discovered device is returned exactly when its address equals the
    requested one ignoring case, or its name contains one of the two
    gateway prefixes, or it advertises the monitor service UUID. *)
Theorem scan_returns_the_matching_devices
    (devices : dict (BLEDevice * AdvertisementData))
    (target : option string) (gw : Gateway) :
  let '(r, gw') := scan_for_nodes devices target gw in
  exists found,
    r = Ok found
    /\ written gw' = written gw
    /\ connected gw' = connected gw
    /\ _power_manager gw' = _power_manager gw
    /\ subseq found (map (fun e => fst (snd e)) devices)
    /\ forall dev,
         In dev found <->
         exists k adv, In (k, (dev, adv)) devices
                       /\ matches_scan target dev adv.
Proof.
  destruct (scan_for_nodes_result devices target gw) as (o & ->).
  exists (scan_hits devices target).
  repeat (split; [reflexivity|]).
  split; [apply scan_hits_subseq|].
  intros dev. rewrite scan_hits_in.
  split; intros (k & adv & Hin & Hm); exists k, adv;
    (split; [exact Hin|]); now apply scan_match_some.
Qed.

(** ** Adjusting, then switching off *)

(** X22: switching power management off after an evaluation undoes what
    the evaluation did to the registry: every entry is the one from before
    the evaluation with its commanded duty reset to 0, and on a connected
    link exactly the nodes whose commanded duty then differed from a
    positive target are sent that target (clamped to [0,100]) again, in
    registry order. *)
Theorem disable_undoes_adjustment (gw : Gateway) (pm : PowerManager) :
  _power_manager gw = Some pm ->
  NoDup (dict_keys (nodes pm)) ->
  no_broadcast_id pm ->
  let gw1 := snd (_evaluate_and_adjust gw) in
  let '(r, gw2) := disable gw1 in
  r = Ok tt
  /\ exists pm1 pm2,
       _power_manager gw1 = Some pm1
       /\ _power_manager gw2 = Some pm2
       /\ threshold_mw pm2 = None
       /\ _polling pm2 = false
       /\ dict_keys (nodes pm2) = dict_keys (nodes pm)
       /\ (forall k ns,
             dict_get k (nodes pm) = Some ns ->
             dict_get k (nodes pm2) = Some (set_commanded ns 0))
       /\ written gw2 =
            (written gw1 ++
             if connected gw
             then map restore_cmd
                    (filter needs_restore (dict_values (nodes pm1)))
             else [])%list
       /\ forall ns1,
            In ns1 (dict_values (nodes pm1)) ->
            exists k ns,
              dict_get k (nodes pm) = Some ns
              /\ ns1 = set_commanded ns (commanded_duty ns1)
              /\ restore_cmd ns1 = restore_cmd ns.
Proof.
  intros Hpm Hnd Hids. cbv zeta.
  destruct (evaluate_shape gw pm Hpm) as (pm1 & Hpm1 & Hc1 & Hk1 & Hreg).
  assert (Hids1 : no_broadcast_id pm1).
  { intros k ns1 Hget1. specialize (Hreg k). rewrite Hget1 in Hreg.
    destruct (dict_get k (nodes pm)) as [ns|] eqn:Hget; [|contradiction].
    unfold same_but_commanded in Hreg. rewrite Hreg.
    exact (Hids k ns Hget). }
  assert (Hnd1 : NoDup (dict_keys (nodes pm1))) by now rewrite Hk1.
  destruct (disable_unfold (snd (_evaluate_and_adjust gw)) pm1 Hpm1 Hnd1 Hids1)
    as (g & d' & -> & Hpm' & Hkeys & Hget & Hc & _ & Hw).
  cbn [written _power_manager gw_with_out].
  split; [reflexivity|].
  exists pm1, (pm_with_nodes (pm_switched_off pm1) d').
  split; [exact Hpm1|]. split; [exact Hpm'|].
  split; [reflexivity|]. split; [reflexivity|].
  split; [cbn [nodes pm_with_nodes]; congruence|].
  split; [|split].
  - intros k ns Hk. cbn [nodes pm_with_nodes].
    specialize (Hreg k). rewrite Hk in Hreg.
    destruct (dict_get k (nodes pm1)) as [ns1|] eqn:Hk'; [|contradiction].
    rewrite (Hget k ns1 Hk'). unfold same_but_commanded in Hreg.
    rewrite Hreg. reflexivity.
  - rewrite Hw, Hc1. reflexivity.
  - intros ns1 Hin. unfold dict_values in Hin.
    apply in_map_iff in Hin as ([k v] & Hv & Hin). cbn [snd] in Hv. subst v.
    pose proof (dict_get_nodup k ns1 (nodes pm1) Hnd1 Hin) as Hget1.
    specialize (Hreg k). rewrite Hget1 in Hreg.
    destruct (dict_get k (nodes pm)) as [ns|] eqn:Hk; [|contradiction].
    exists k, ns. split; [exact Hk|]. split; [exact Hreg|].
    unfold same_but_commanded in Hreg. rewrite Hreg. reflexivity.
Qed.

(** Scenario S2: the evaluation holds the nodes at 46 % and 23 %, and
    switching off sends both back to 100 %. *)
Lemma disable_undoes_adjustment_S2 :
  written (snd (disable (snd (_evaluate_and_adjust Scenario.S2))))
    = ["1:DUTY:46"; "2:DUTY:23"; "1:DUTY:100"; "2:DUTY:100"]
  /\ exists pm2,
       _power_manager (snd (disable (snd (_evaluate_and_adjust Scenario.S2))))
         = Some pm2
       /\ threshold_mw pm2 = None
       /\ dict_get "1" (nodes pm2)
          = Some (set_commanded (Scenario.node "1" 100 100 5000) 0).
Proof.
  split; [vm_compute; reflexivity|].
  assert (Hnd : NoDup ["1"; "2"]).
  { constructor; [|constructor; [|constructor]]; cbn; intuition discriminate. }
  pose proof (disable_undoes_adjustment Scenario.S2 _ eq_refl Hnd) as H.
  cbv zeta in H.
  destruct (disable (snd (_evaluate_and_adjust Scenario.S2))) as [r gw2].
  destruct H as (_ & pm1 & pm2 & _ & Hpm2 & Hth & _ & _ & Hget & _).
  { intros k ns Hk. cbn in Hk.
    destruct (String.eqb k "1"); [injection Hk as <-; discriminate|].
    destruct (String.eqb k "2"); [injection Hk as <-; discriminate|].
    discriminate. }
  exists pm2. split; [exact Hpm2|]. split; [exact Hth|].
  exact (Hget "1" _ eq_refl).
Defined.
